(** * atomic-swap: the swap manager, the external transaction sender and the
    XMR maker's swap state, embedded from the Go sources.

  - [Types]    : the enumerations of the packages [types] and [common].
  - [Swap]     : package [swap], the manager of ongoing and past swaps over
                 a [Database].
  - [SwapPtr]  : the same [Info] with its pointer fields kept as pointers,
                 for what a copy of the struct shares with the original.
  - [TxSender] : package [txsender], the sender whose transactions are
                 signed by a front-end.
  - [XMRMaker] : package [xmrmaker], the maker's [swapState].
  - [RPC]      : package [rpc], the construction of the JSON-RPC server.
  - [Run]      : small concrete worlds on which the definitions are run.

  Go pointers to [Info] are addresses into an explicit heap, so that the
  sharing between the caller's [*Info] and the manager's maps is visible.
  Calls to collaborators (database, Monero wallet, Ethereum client, the
  front-end behind the channels) are interface methods or inputs of the
  functions; their results are never assumed. *)

From Stdlib Require Import ZArith NArith Lia.
From stdpp Require Import gmap list strings.

Set Default Proof Using "Type".

(* ===================================================================== *)
(** ** Shared types *)
(* ===================================================================== *)

Module Types.

(** [types.Hash] is a [[32]byte]; it is held as the number its bytes
    spell. *)
Definition Hash := N.

(** Modelled from the spec: [types.Status] is declared outside src/. The
    names used by the sources ([KeysExchanged], [XMRLocked],
    [CompletedSuccess], [CompletedRefund], [CompletedAbort]) are kept, the
    others follow the state lists of the maker and the taker. *)
Inductive Status :=
| ExpectingKeys
| KeysExchanged
| ETHLocked
| XMRLocked
| ContractReady
| CompletedSuccess
| CompletedRefund
| CompletedAbort.

#[global] Instance Status_eq_dec : EqDecision Status.
Proof. solve_decision. Defined.

(** Modelled from the spec: [Status.IsOngoing] is declared outside src/.
    "Ongoing vs past: operational dichotomy on swap status; terminal
    statuses are past." *)
Definition IsOngoing (s : Status) : bool :=
  match s with
  | CompletedSuccess | CompletedRefund | CompletedAbort => false
  | _ => true
  end.

(** [common.Environment], with the three values the sources name. *)
Inductive Environment := Mainnet | Stagenet | Development.

(** [time.Time] as a count of nanoseconds, [time.Duration] likewise. *)
Definition Time := Z.
Definition Duration := Z.
Definition Second : Duration := 1000000000%Z.
Definition Minute : Duration := (60 * Second)%Z.
Definition Hour : Duration := (60 * Minute)%Z.

End Types.

(* ===================================================================== *)
(** ** protocol/swap: the manager *)
(* ===================================================================== *)

Module Swap.
Import Types.

(** Modelled from the spec: the struct [Info] is declared outside src/.
    The fields are those of the spec's Swap Info that the sources read or
    write. [EndTime] is a [*time.Time]: [None] is nil. The fields that are
    pointers hold what the pointer designates; [SwapPtr.Info] below keeps
    them as pointers. *)
Record Info := mkInfo {
  OfferID : Hash;
  PeerID : N;
  ProvidedAmount : Z;
  ExpectedAmount : Z;
  Status : Types.Status;
  LastStatusUpdateTime : Time;
  MoneroStartHeight : N;
  StartTime : Time;
  EndTime : option Time;
  Timeout0 : option Time;
  Timeout1 : option Time
}.

Definition set_EndTime (t : option Time) (i : Info) : Info :=
  mkInfo (OfferID i) (PeerID i) (ProvidedAmount i) (ExpectedAmount i)
         (Status i) (LastStatusUpdateTime i) (MoneroStartHeight i)
         (StartTime i) t (Timeout0 i) (Timeout1 i).

(** Modelled from the spec: [Info.SetStatus] is declared outside src/; it
    stores the status and the time of the update ("status, start /
    last-update / end timestamps"). *)
Definition SetStatus (now : Time) (s : Types.Status) (i : Info) : Info :=
  mkInfo (OfferID i) (PeerID i) (ProvidedAmount i) (ExpectedAmount i)
         s now (MoneroStartHeight i)
         (StartTime i) (EndTime i) (Timeout0 i) (Timeout1 i).

(** A [*Info] is an address; the heap maps the allocated addresses to the
    structs they hold. Every function below reads a field of an [*Info]
    before it stores the pointer in a map, so a nil pointer is never
    stored; reading through an address that holds nothing is the runtime
    panic [errNilDereference]. *)
Definition loc := positive.
Abbreviation heap := (gmap loc Info).

(** [new(Info)] followed by a store: an address outside the heap. *)
Definition alloc (v : Info) (h : heap) : loc * heap :=
  let l := fresh (dom h) in (l, <[l := v]> h).

(** Errors of the database ([chaindb.ErrKeyNotFound] and the others). The
    database lives in another package and cannot name the unexported
    [errNoSwapWithID], hence the separate type. *)
Inductive dberror :=
| ErrKeyNotFound
| ErrDBOther (code : N).

Inductive error :=
| errNoSwapWithID
| errDatabase (e : dberror)
| errNilDereference.

Inductive result (A : Type) :=
| Ok (a : A)
| Err (e : error).
Arguments Ok {A} a.
Arguments Err {A} e.

(** The interface [Database]: each method threads the database's own
    state. [PutSwap] receives the struct the pointer designates at the time
    of the call; [GetSwap] and [GetAllSwaps] return structs that the manager
    places at new addresses. *)
Class Database (D : Type) := {
  PutSwap : Info → D → D * option dberror;
  GetSwap : Hash → D → D * (dberror + Info);
  GetAllSwaps : D → D * (dberror + list Info)
}.

(** What the manager did to its maps and to the database, oldest first. *)
Inductive mevent :=
| EvOngoingInsert (id : Hash)
| EvOngoingDelete (id : Hash)
| EvPastInsert (id : Hash)
| EvPutSwap (i : Info) (failed : bool).

Section manager.
Context {D : Type} `{!Database D}.

Record manager := mkManager {
  db : D;
  ongoing : gmap Hash loc;
  past : gmap Hash loc
}.

(** The memory, the manager and what the manager has done so far. *)
Record world := mkWorld {
  mem : heap;
  m : manager;
  history : list mevent
}.

Definition wrap_db (e : option dberror) : option error :=
  errDatabase <$> e.

Definition failed (e : option dberror) : bool :=
  match e with Some _ => true | None => false end.

Definition with_db (d : D) (mg : manager) : manager :=
  mkManager d (ongoing mg) (past mg).

(** [AddSwap] *)
Definition AddSwap (info : loc) (w : world) : world * option error :=
  match mem w !! info with
  | None => (w, Some errNilDereference)
  | Some i =>
      let '(m1, ev) :=
        if IsOngoing (Status i)
        then (mkManager (db (m w)) (<[OfferID i := info]> (ongoing (m w))) (past (m w)),
              EvOngoingInsert (OfferID i))
        else (mkManager (db (m w)) (ongoing (m w)) (<[OfferID i := info]> (past (m w))),
              EvPastInsert (OfferID i)) in
      let '(db', r) := PutSwap i (db m1) in
      (mkWorld (mem w) (with_db db' m1)
         (history w ++ [ev; EvPutSwap i (failed r)]),
       wrap_db r)
  end.

(** [WriteSwapToDB] *)
Definition WriteSwapToDB (info : loc) (w : world) : world * option error :=
  match mem w !! info with
  | None => (w, Some errNilDereference)
  | Some i =>
      let '(db', r) := PutSwap i (db (m w)) in
      (mkWorld (mem w) (with_db db' (m w))
         (history w ++ [EvPutSwap i (failed r)]),
       wrap_db r)
  end.

(** [GetPastIDs]: [ids] is the Go map used as a set. The second loop skips
    the ongoing records; the array is filled by ranging over [ids], in an
    order Go leaves open ([elements] fixes one). *)
Definition add_stored (ids : gset Hash) (s : Info) : gset Hash :=
  if IsOngoing (Status s) then ids else {[OfferID s]} ∪ ids.

Definition GetPastIDs (w : world) : world * result (list Hash) :=
  let ids : gset Hash := dom (past (m w)) in
  let '(db', r) := GetAllSwaps (db (m w)) in
  let w' := mkWorld (mem w) (with_db db' (m w)) (history w) in
  match r with
  | inl e => (w', Err (errDatabase e))
  | inr stored => (w', Ok (elements (foldl add_stored ids stored)))
  end.

(** [getSwapFromDB]. [errors.Is(chaindb.ErrKeyNotFound, err)] holds exactly
    when [err] is that error. *)
Definition getSwapFromDB (id : Hash) (d : D) : D * (error + Info) :=
  let '(d', r) := GetSwap id d in
  match r with
  | inl ErrKeyNotFound => (d', inl errNoSwapWithID)
  | inl e => (d', inl (errDatabase e))
  | inr s => (d', inr s)
  end.

(** [GetPastSwap]. The record read from the database sits at a new address;
    it is cached under its own [OfferID]. *)
Definition GetPastSwap (id : Hash) (w : world) : world * result loc :=
  match past (m w) !! id with
  | Some s => (w, Ok s)
  | None =>
      let '(db', r) := getSwapFromDB id (db (m w)) in
      match r with
      | inl e => (mkWorld (mem w) (with_db db' (m w)) (history w), Err e)
      | inr s =>
          let '(p, mem') := alloc s (mem w) in
          (mkWorld mem'
             (mkManager db' (ongoing (m w)) (<[OfferID s := p]> (past (m w))))
             (history w ++ [EvPastInsert (OfferID s)]),
           Ok p)
      end
  end.

(** [GetOngoingSwap]: the result is the struct [*s], not the pointer. *)
Definition GetOngoingSwap (id : Hash) (w : world) : result Info :=
  match ongoing (m w) !! id with
  | None => Err errNoSwapWithID
  | Some s =>
      match mem w !! s with
      | None => Err errNilDereference
      | Some i => Ok i
      end
  end.

(** [GetOngoingSwaps]: one [new(Info)] per entry, filled with [*s]. The
    entries are visited in the order of [map_to_list]. *)
Fixpoint copy_all (ss : list loc) (h : heap) : heap * result (list loc) :=
  match ss with
  | [] => (h, Ok [])
  | s :: rest =>
      match h !! s with
      | None => (h, Err errNilDereference)
      | Some i =>
          let '(sCopy, h1) := alloc i h in
          let '(h2, r) := copy_all rest h1 in
          match r with
          | Ok swaps => (h2, Ok (sCopy :: swaps))
          | Err e => (h2, Err e)
          end
      end
  end.

Definition GetOngoingSwaps (w : world) : world * result (list loc) :=
  let '(mem', r) := copy_all (snd <$> map_to_list (ongoing (m w))) (mem w) in
  (mkWorld mem' (m w) (history w), r).

(** [CompleteOngoingSwap]; [now] is what [time.Now()] returns. *)
Definition CompleteOngoingSwap (now : Time) (info : loc) (w : world)
  : world * option error :=
  match mem w !! info with
  | None => (w, Some errNilDereference)
  | Some i =>
      match ongoing (m w) !! OfferID i with
      | None => (w, Some errNoSwapWithID)
      | Some _ =>
          let i' := set_EndTime (Some now) i in
          let mem' := <[info := i']> (mem w) in
          let past' := <[OfferID i := info]> (past (m w)) in
          let ongoing' := delete (OfferID i) (ongoing (m w)) in
          let '(db', r) := PutSwap i' (db (m w)) in
          (mkWorld mem' (mkManager db' ongoing' past')
             (history w ++ [EvPastInsert (OfferID i);
                            EvOngoingDelete (OfferID i);
                            EvPutSwap i' (failed r)]),
           wrap_db r)
      end
  end.

(** [HasOngoingSwap] *)
Definition HasOngoingSwap (id : Hash) (w : world) : bool :=
  bool_decide (is_Some (ongoing (m w) !! id)).

(** Go has no dangling pointers: every address in the ongoing map holds a
    struct. *)
Definition ongoing_allocated (w : world) : Prop :=
  ∀ id s, ongoing (m w) !! id = Some s → is_Some (mem w !! s).

(** What a caller does with an [*Info] it holds: a store through it. *)
Definition store (p : loc) (v : Info) (w : world) : world :=
  mkWorld (<[p := v]> (mem w)) (m w) (history w).

(** [NewManager]. The stored records that are ongoing are filed under their
    offer ids (a later record replaces an earlier one with the same id); the
    others are skipped. The source files the pointers [db.GetAllSwaps]
    returned and allocates nothing itself; the class [Database] returns the
    structs and not the pointers, so the address each filed struct has in the
    memory [h] of the model stands for the pointer the database handed
    over. *)
Definition load_ongoing (acc : heap * gmap Hash loc * list mevent) (s : Info)
  : heap * gmap Hash loc * list mevent :=
  let '(h, ongoing, hist) := acc in
  if IsOngoing (Status s) then
    let '(p, h') := alloc s h in
    (h', <[OfferID s := p]> ongoing, hist ++ [EvOngoingInsert (OfferID s)])
  else acc.

Definition NewManager (d : D) (h : heap) : D * result world :=
  let '(d', r) := GetAllSwaps d in
  match r with
  | inl e => (d', Err (errDatabase e))
  | inr stored =>
      let '(h', ongoing, hist) := foldl load_ongoing (h, ∅, []) stored in
      (d', Ok (mkWorld h' (mkManager d' ongoing ∅) hist))
  end.

(** What the manager's own operations keep true of its two maps: every
    pointer they hold is allocated, and the struct it designates carries the
    offer id it is filed under. *)
Definition filed (h : heap) (mp : gmap Hash loc) : Prop :=
  ∀ id p, mp !! id = Some p → ∃ i, h !! p = Some i ∧ OfferID i = id.

Definition consistent (w : world) : Prop :=
  filed (mem w) (ongoing (m w)) ∧ filed (mem w) (past (m w)).

End manager.

Arguments manager D : clear implicits.
Arguments world D : clear implicits.

(** A database held in memory, for running the manager: a table by offer
    id, and a switch that makes every write fail. *)
Record MemDB := mkMemDB {
  table : gmap Hash Info;
  broken : bool
}.

#[global] Instance MemDB_Database : Database MemDB := {
  PutSwap i d :=
    if broken d then (d, Some (ErrDBOther 5))
    else (mkMemDB (<[OfferID i := i]> (table d)) (broken d), None);
  GetSwap id d :=
    match table d !! id with
    | Some i => (d, inr i)
    | None => (d, inl ErrKeyNotFound)
    end;
  GetAllSwaps d := (d, inr (snd <$> map_to_list (table d)))
}.

(** Modelled from the spec: [NewInfo] is declared outside src/. It fills
    the record from its arguments at the time [now]: no end time and no
    timeouts yet, start and last update at [now]. *)
Definition NewInfo (now : Time) (peerID : N) (offerID : Hash)
  (providedAmount expectedAmount : Z) (status : Types.Status)
  (moneroStartHeight : N) : Info :=
  mkInfo offerID peerID providedAmount expectedAmount status now
    moneroStartHeight now None None None.

End Swap.

(* ===================================================================== *)
(** ** Package swap: [Info] with its pointer fields *)
(* ===================================================================== *)

Module SwapPtr.
Import Types.

(** Three fields of [Info] are pointers in the sources: [EndTime] is assigned
    [&now] by [CompleteOngoingSwap], [swapState.ExpectedAmount] returns
    [s.info.ExpectedAmount] as a [*apd.Decimal], and the test of the maker
    fills [ProvidedAmount] and [ExpectedAmount] with one [*apd.Decimal]. The
    record [Swap.Info] holds what these pointers designate. The record below
    holds the pointers themselves, as addresses of cells that hold a decimal
    or a time, so that the struct copy [*s] is seen to share the cells with
    the struct it was copied from. [None] is nil. *)
Definition ref := positive.

Record Info := mkInfo {
  OfferID : Hash;
  PeerID : N;
  ProvidedAmount : option ref;
  ExpectedAmount : option ref;
  Status : Types.Status;
  LastStatusUpdateTime : Time;
  MoneroStartHeight : N;
  StartTime : Time;
  EndTime : option ref;
  Timeout0 : option Time;
  Timeout1 : option Time
}.

Abbreviation heap := (gmap Swap.loc Info).

(** [new(Info)] followed by a store: an address outside the heap. *)
Definition alloc (v : Info) (h : heap) : Swap.loc * heap :=
  let l := fresh (dom h) in (l, <[l := v]> h).

(** The structs, the cells behind their pointer fields, and the map
    [m.ongoing], which is all of the manager that the two functions below
    read. *)
Record world := mkWorld {
  mem : heap;
  cells : gmap ref Z;
  ongoing : gmap Hash Swap.loc
}.

(** [GetOngoingSwap]: the result is the struct [*s], not the pointer. *)
Definition GetOngoingSwap (id : Hash) (w : world) : Swap.result Info :=
  match ongoing w !! id with
  | None => Swap.Err Swap.errNoSwapWithID
  | Some s =>
      match mem w !! s with
      | None => Swap.Err Swap.errNilDereference
      | Some i => Swap.Ok i
      end
  end.

(** [GetOngoingSwaps]: one [new(Info)] per entry, filled with [*s]. The
    entries are visited in the order of [map_to_list]. *)
Fixpoint copy_all (ss : list Swap.loc) (h : heap)
  : heap * Swap.result (list Swap.loc) :=
  match ss with
  | [] => (h, Swap.Ok [])
  | s :: rest =>
      match h !! s with
      | None => (h, Swap.Err Swap.errNilDereference)
      | Some i =>
          let '(sCopy, h1) := alloc i h in
          let '(h2, r) := copy_all rest h1 in
          match r with
          | Swap.Ok swaps => (h2, Swap.Ok (sCopy :: swaps))
          | Swap.Err e => (h2, Swap.Err e)
          end
      end
  end.

Definition GetOngoingSwaps (w : world)
  : world * Swap.result (list Swap.loc) :=
  let '(mem', r) := copy_all (snd <$> map_to_list (ongoing w)) (mem w) in
  (mkWorld mem' (cells w) (ongoing w), r).

(** Go has no dangling pointers: every address in the ongoing map holds a
    struct. *)
Definition ongoing_allocated (w : world) : Prop :=
  ∀ id s, ongoing w !! id = Some s → is_Some (mem w !! s).

(** The pointer fields. *)
Inductive field :=
| FProvidedAmount
| FExpectedAmount
| FEndTime.

Definition ptr (f : field) (i : Info) : option ref :=
  match f with
  | FProvidedAmount => ProvidedAmount i
  | FExpectedAmount => ExpectedAmount i
  | FEndTime => EndTime i
  end.

(** What a caller can do with an [Info] it was handed: assign to the struct
    a pointer designates ([*p = v]; the assignment of one field is the case
    where [v] differs from [*p] in that field), and write to what one of
    its pointer fields designates ([info.ExpectedAmount.Set(x)],
    [*info.EndTime = t]). *)
Definition store (p : Swap.loc) (v : Info) (w : world) : world :=
  mkWorld (<[p := v]> (mem w)) (cells w) (ongoing w).

Definition write (r : ref) (v : Z) (w : world) : world :=
  mkWorld (mem w) (<[r := v]> (cells w)) (ongoing w).

(** The manager's record of the swap [id], and what the record holds in a
    pointer field: the content of the cell the field designates. *)
Definition stored (id : Hash) (w : world) : option Info :=
  ongoing w !! id ≫= λ s, mem w !! s.

Definition reads (id : Hash) (f : field) (w : world) : option Z :=
  stored id w ≫= λ i, ptr f i ≫= λ r, cells w !! r.

End SwapPtr.

(* ===================================================================== *)
(** ** protocol/txsender: the external sender *)
(* ===================================================================== *)

Module TxSender.
Import Types.

(** [ethcommon.Address] and [ethcommon.Hash], opaque numbers. *)
Definition Address := N.
Definition TxHash := N.
Definition Receipt := N.

Inductive error :=
| errTransactionTimeout
| errTokenUnsupported
| errPack (code : N)
| errReceipt (code : N).

(** The package-level variables of [txsender]. *)
Record pkg := mkPkg {
  transactionTimeout : Duration
}.

(** Their values when the program starts: [time.Minute * 2]. *)
Definition pkg_init : pkg := mkPkg (Minute * 2)%Z.

(** [Transaction]; [Value] is nil in [sendAndReceive]. *)
Record Transaction := mkTransaction {
  To : Address;
  Data : list N;
  Value : option Z
}.

(** [ExternalSender]. The context, the client and the ABI are the same for
    every call and are left out; the two channels are private to the sender
    and appear below through the front-end at their other end. The struct
    holds no timeout. *)
Record ExternalSender := mkExternalSender {
  contractAddr : Address;
  erc20Addr : Address
}.

(** [coins.EthAssetAmount] is an interface: a value of it is what its
    methods answer. *)
Record EthAssetAmount := mkEthAssetAmount {
  IsToken : bool;
  TokenAddress : Address;
  BigInt : Z;
  AsStandard : Z
}.

(** The arguments handed to [abi.Pack]. *)
Inductive abi_call :=
| call_new_swap (pubKeyClaim pubKeyRefund : N) (claimer : Address)
    (timeoutDuration : Z) (asset : Address) (value : Z) (nonce : Z)
| call_other (method : N) (args : list N).

(** What stands at the other end of the channels during one call: whether
    somebody takes the transaction from [out]; the hash sent on [in], with
    the time between the hand-over and the moment it is offered ([None]: no
    hash is ever sent); which case the [select] runs when the hash and the
    timer are ready at the same instant; and the answer of
    [block.WaitForReceipt]. The mutex of the sender serialises its calls; one
    call is followed here, from the moment it holds the lock. *)
Record frontend := mkFrontend {
  takes : bool;
  answer : option (Duration * TxHash);
  timer_wins_tie : bool;
  receipt : error + Receipt
}.

(** A call returns, or stays blocked on the send. *)
Inductive outcome :=
| Returns (r : error + Receipt)
| Blocks.

(** [NewExternalSender] *)
Definition NewExternalSender (env : Environment)
  (contractAddr erc20Addr : Address) (p : pkg) : pkg * ExternalSender :=
  let p' :=
    match env with
    | Mainnet | Stagenet => mkPkg Hour
    | _ => p
    end in
  (p', mkExternalSender contractAddr erc20Addr).

(** The package variables after the process has constructed senders for
    the environments [envs], first to last. *)
Definition after_senders (envs : list Environment) (p : pkg) : pkg :=
  foldl (λ q env, fst (NewExternalSender env 0%N 0%N q)) p envs.

(** [SetSwapCreatorAddr] *)
Definition SetSwapCreatorAddr (addr : Address) (s : ExternalSender)
  : ExternalSender :=
  mkExternalSender addr (erc20Addr s).

(** The [select] between [time.After(transactionTimeout)] and [<-s.in]. *)
Definition select_in (p : pkg) (fe : frontend) : error + TxHash :=
  match answer fe with
  | None => inl errTransactionTimeout
  | Some (d, h) =>
      if (d <? transactionTimeout p)%Z then inr h
      else if (transactionTimeout p <? d)%Z then inl errTransactionTimeout
      else if timer_wins_tie fe then inl errTransactionTimeout
      else inr h
  end.

(** The part [NewSwap] and [sendAndReceive] share, from [s.out <- tx] on.
    The first component lists what was handed over on [out]. *)
Definition exchange (p : pkg) (tx : Transaction) (fe : frontend)
  : list Transaction * outcome :=
  if takes fe then
    match select_in p fe with
    | inl e => ([tx], Returns (inl e))
    | inr txHash => ([tx], Returns (receipt fe))
    end
  else ([], Blocks).

Section sender.
(** [abi.Pack] on the parsed ABI of the contract. *)
Variable Pack : abi_call → error + list N.

(** [NewSwap] *)
Definition NewSwap (s : ExternalSender) (p : pkg)
  (pubKeyClaim pubKeyRefund : N) (claimer : Address)
  (timeoutDuration nonce : Z) (amount : EthAssetAmount) (fe : frontend)
  : list Transaction * outcome :=
  if IsToken amount then ([], Returns (inl errTokenUnsupported))
  else
    match Pack (call_new_swap pubKeyClaim pubKeyRefund claimer timeoutDuration
                  (TokenAddress amount) (BigInt amount) nonce) with
    | inl e => ([], Returns (inl e))
    | inr input =>
        exchange p (mkTransaction (contractAddr s) input (Some (AsStandard amount))) fe
    end.

(** [sendAndReceive] *)
Definition sendAndReceive (s : ExternalSender) (p : pkg)
  (input : list N) (to : Address) (fe : frontend)
  : list Transaction * outcome :=
  exchange p (mkTransaction to input None) fe.

(** The methods packed by the other calls, by number, and the encoding of
    their arguments as the list handed to [Pack]: a [*big.Int] is its sign
    and its magnitude, a [*contracts.SwapCreatorSwap] is the list of its
    fields. *)
Definition method_approve : N := 1.
Definition method_set_ready : N := 2.
Definition method_claim : N := 3.
Definition method_refund : N := 4.

Definition big_int_args (z : Z) : list N :=
  [if (z <? 0)%Z then 1%N else 0%N; Z.abs_N z].

(** [approve] *)
Definition approve (s : ExternalSender) (p : pkg)
  (spender : Address) (amount : Z) (fe : frontend)
  : list Transaction * outcome :=
  match Pack (call_other method_approve (spender :: big_int_args amount)) with
  | inl e => ([], Returns (inl e))
  | inr input => sendAndReceive s p input (erc20Addr s) fe
  end.

(** [SetReady] *)
Definition SetReady (s : ExternalSender) (p : pkg)
  (swap : list N) (fe : frontend) : list Transaction * outcome :=
  match Pack (call_other method_set_ready swap) with
  | inl e => ([], Returns (inl e))
  | inr input => sendAndReceive s p input (contractAddr s) fe
  end.

(** [Claim] *)
Definition Claim (s : ExternalSender) (p : pkg)
  (swap : list N) (secret : N) (fe : frontend)
  : list Transaction * outcome :=
  match Pack (call_other method_claim (swap ++ [secret])) with
  | inl e => ([], Returns (inl e))
  | inr input => sendAndReceive s p input (contractAddr s) fe
  end.

(** [Refund] *)
Definition Refund (s : ExternalSender) (p : pkg)
  (swap : list N) (secret : N) (fe : frontend)
  : list Transaction * outcome :=
  match Pack (call_other method_refund (swap ++ [secret])) with
  | inl e => ([], Returns (inl e))
  | inr input => sendAndReceive s p input (contractAddr s) fe
  end.

End sender.

(** A packer that always succeeds, for running the sender past the call of
    [Pack]; what [Pack] answers on the ABI of the contract is [abi_pack]
    below. *)
Definition pack_ok (c : abi_call) : error + list N :=
  match c with
  | call_new_swap a b c d e f g => inr [a; b; c; e]
  | call_other mth args => inr (mth :: args)
  end.

(** [abi.ABI], as far as [Pack] reads it: the methods of the contract, each
    with its name and the number of its inputs. *)
Record Method := mkMethod {
  Name : string;
  Inputs : nat
}.

(** Modelled from the spec: [contracts.SwapCreatorParsedABI], which the
    sender holds as its [abi], is generated from the contract, outside src/.
    "EVM contract surface: newSwap(commit_claim, commit_refund, claimer,
    t0_duration, t1_duration, asset, value, nonce) payable, setReady(swap),
    claim(swap, secret), refund(swap, secret), view swaps(id)". The test of
    the relayer calls the binding of [newSwap] with these eight arguments. *)
Definition SwapCreatorParsedABI : list Method :=
  [mkMethod "newSwap" 8; mkMethod "setReady" 1; mkMethod "claim" 2;
   mkMethod "refund" 2; mkMethod "swaps" 1].

(** The method name and the number of arguments that each call of the sender
    hands to [Pack]: [NewSwap] packs "new_swap" with seven arguments, and
    the other calls pack "approve", "set_ready", "claim" and "refund". The
    sender makes no other call; the last case stands for a method number
    that none of its functions uses. *)
Definition packed_as (c : abi_call) : string * nat :=
  match c with
  | call_new_swap _ _ _ _ _ _ _ => ("new_swap", 7%nat)
  | call_other mth _ =>
      if (mth =? method_approve)%N then ("approve", 2%nat)
      else if (mth =? method_set_ready)%N then ("set_ready", 1%nat)
      else if (mth =? method_claim)%N then ("claim", 2%nat)
      else if (mth =? method_refund)%N then ("refund", 2%nat)
      else ("", 0%nat)
  end.

(** The errors of go-ethereum's [abi.Pack] that do not depend on the types
    of the arguments: "method not found" and "argument count mismatch". *)
Definition errMethodNotFound : error := errPack 1.
Definition errArgumentCount : error := errPack 2.

(** [abi.Pack] of go-ethereum: the method is looked up by its name; a name
    the ABI does not have is an error, and so is a number of arguments other
    than the number of the method's inputs; the arguments are then encoded
    by [encode], which can still refuse them for their types. *)
Definition abi_pack (abi : list Method) (encode : abi_call → error + list N)
  (c : abi_call) : error + list N :=
  match find (λ mth, bool_decide (Name mth = (packed_as c).1)) abi with
  | None => inl errMethodNotFound
  | Some mth =>
      if decide (Inputs mth = (packed_as c).2) then encode c
      else inl errArgumentCount
  end.

End TxSender.

(* ===================================================================== *)
(** ** protocol/xmrmaker: the maker's swap state *)
(* ===================================================================== *)

Module XMRMaker.
Import Types.

Definition Address := N.

(** An error returned by a collaborator (wallet, Ethereum client, recovery
    database, offer database). *)
Inductive exterror := ExtErr (code : N).

(** The event types named by the sources, and the events read from the
    event channel. *)
Inductive EventType :=
| EventETHLockedType
| EventContractReadyType
| EventETHRefundedType
| EventExitType
| EventNoneType.

Inductive Event :=
| EventETHLocked
| EventContractReady
| EventETHRefunded (secret : N)
| EventExit.

(** [contracts.Stage] is a byte; the four named values and the others. *)
Inductive Stage :=
| StageInvalid
| StagePending
| StageReady
| StageCompleted
| StageOther (b : N).

(** [ethtypes.Log], the fields read here. *)
Record Log := mkLog {
  Topics : list Hash;
  Removed : bool;
  BlockNumber : N;
  TxHash : Hash
}.

Record SwapCreatorSwap := mkSwapCreatorSwap {
  Timeout0 : Z;
  Timeout1 : Z
}.

(** [db.EthereumSwapInfo] *)
Record EthereumSwapInfo := mkEthereumSwapInfo {
  StartNumber : Z;
  SwapID : Hash;
  Swap : SwapCreatorSwap;
  SwapCreatorAddr : Address
}.

(** [types.Offer] and [types.OfferExtra], the fields read here. *)
Record Offer := mkOffer {
  ID : Hash;
  EthAsset : Address
}.

Record OfferExtra := mkOfferExtra {
  UseRelayer : bool
}.

Inductive error :=
| errSwapDoesNotExist (swapID : Hash)
| errInvalidStageForRecovery
| errUnexpectedMessageType
| errAlreadyCompleted
| errFailedToCompleteSwap (e : error)
| errMarkCompleted (e : Swap.error)
| errDeleteOffer (e : exterror)
| errDeleteSwapInfo (e : exterror)
| errFilterLogs (e : exterror)
| errSetNextExpectedEvent (e : exterror)
| errExternal (e : exterror)
| panicUnhandledStage
| panicIndexOutOfRange
| panicNilDereference.

(** Modelled from the spec: [pcommon.CheckSwapID] is declared outside src/.
    "events New, Ready, Claimed, Refunded each tagged with the swap id in
    topic[1]": a log whose second topic is another id is not for us, a log
    without a second topic is malformed. *)
Inductive checkerror :=
| ErrLogNotForUs
| errLogMissingParams.

Definition CheckSwapID (l : Log) (topic : Hash) (swapID : Hash)
  : option checkerror :=
  match Topics l !! 1%nat with
  | None => Some errLogMissingParams
  | Some t => if decide (t = swapID) then None else Some ErrLogNotForUs
  end.

(** [monero.MinSpendConfirmations] *)
Definition MinSpendConfirmations : N := 10.

(** The collaborators behind [backend.Backend], each call threading their
    state: the Ethereum client and the contract, the Monero wallet, the
    recovery database and the network. *)
Class Backend (B : Type) := {
  NewSwapCreator : Address → B → B * option exterror;
  Swaps : Address → Hash → B → B * (exterror + Stage);
  FilterLogs : Z → Address → B → B * (exterror + list Log);
  NewIERC20 : Address → B → B * option exterror;
  NewTxSender : Address → bool → B → B * option exterror;
  StartWatcher : Hash → Z → B → B * option exterror;
  GetBalance : N → B → B * (exterror + Z);
  Transfer : Address → N → Z → N → B → B * (exterror + N);
  DeleteSwap : Hash → B → B * option exterror;
  CloseProtocolStream : Hash → B → B
}.

(** Modelled from the spec: [offers.Manager] is declared outside src/. It
    is the table "offers (key: offer id → Offer)": an offer that was added
    without error is in the table, an offer that was deleted without error
    is not. *)
Class OfferManager (O : Type) := {
  AddOffer : Offer → bool → O → O * option exterror;
  DeleteOffer : Hash → O → O * option exterror;
  GetOffer : Hash → O → option Offer;
  AddOffer_present : ∀ o r st st',
    AddOffer o r st = (st', None) → is_Some (GetOffer (ID o) st');
  DeleteOffer_absent : ∀ id st st',
    DeleteOffer id st = (st', None) → GetOffer id st' = None
}.

(** What [lockFunds] asks of the wallet and of the swap state, oldest
    first. *)
Inductive call :=
| CallGetBalance
| CallSetNextExpectedEvent (e : EventType) (failed : bool)
| CallTransfer (dest : Address) (amount : Z) (failed : bool).

(** [swapState], the fields read or written here. [cancelled] records that
    [s.cancel()] ran, [done] that the channel [done] is closed. *)
Record swapState := mkSwapState {
  info : Swap.loc;
  offer : Offer;
  offerExtra : OfferExtra;
  privkeys : option N;
  pubkeys : option N;
  swapCreatorAddr : Address;
  contractSwapID : Hash;
  contractSwap : option SwapCreatorSwap;
  t0 : Z;
  t1 : Z;
  xmrtakerPublicSpendKey : option N;
  xmrtakerPrivateViewKey : option N;
  moneroStartHeight : N;
  nextExpectedEvent : EventType;
  cancelled : bool;
  done : bool
}.

(** The constants and functions of the repository that the functions below
    use and that are declared outside src/; they are taken as they come. The
    helpers of [swapState] act on the state and on the swap manager. *)
Class Externals (D : Type) := {
  readyTopic : Hash;
  claimedTopic : Hash;
  refundedTopic : Hash;
  IsSet : Offer → bool;
  IsToken : Address → bool;
  PublicKeyPair : N → N;
  swapAddress : N → N → N → Address;
  nextExpectedEventFromStatus : Types.Status → EventType;
  setNextExpectedEvent :
    EventType → swapState → Swap.world D → swapState * Swap.world D * option exterror;
  clearNextExpectedEvent :
    Types.Status → swapState → Swap.world D → swapState * Swap.world D
}.

Section maker.
Context {D O B : Type}.
Context `{!Swap.Database D, !OfferManager O, !Backend B, !Externals D}.

(** The manager with the memory, the offer manager, the collaborators, and
    the calls of [lockFunds] so far. *)
Record mworld := mkMWorld {
  sw : Swap.world D;
  om : O;
  backend : B;
  calls : list call
}.

Definition with_backend (b : B) (w : mworld) : mworld :=
  mkMWorld (sw w) (om w) b (calls w).

(** The loop of [checkIfAlreadyClaimed] over the filtered logs. Any answer
    of [CheckSwapID] other than [ErrLogNotForUs] counts as found. *)
Fixpoint find_claimed (swapID : Hash) (logs : list Log) : error + bool :=
  match logs with
  | [] => inr false
  | l :: rest =>
      match Topics l !! 0%nat with
      | None => inl panicIndexOutOfRange
      | Some topic0 =>
          if decide (topic0 = claimedTopic) then
            if Removed l then find_claimed swapID rest
            else
              match CheckSwapID l claimedTopic swapID with
              | Some ErrLogNotForUs => find_claimed swapID rest
              | _ => inr true
              end
          else find_claimed swapID rest
      end
  end.

(** A log of the contract carries the event signature and the swap id. *)
Definition tagged (l : Log) : Prop := 2 ≤ length (Topics l).

(** A Claimed log that stands and carries our swap id. *)
Definition claimed_for (swapID : Hash) (l : Log) : Prop :=
  Topics l !! 0%nat = Some claimedTopic ∧
  Removed l = false ∧
  Topics l !! 1%nat = Some swapID.

(** [checkIfAlreadyClaimed] *)
Definition checkIfAlreadyClaimed (ethSwapInfo : EthereumSwapInfo) (b : B)
  : B * (error + bool) :=
  let '(b1, r) := NewSwapCreator (SwapCreatorAddr ethSwapInfo) b in
  match r with
  | Some e => (b1, inl (errExternal e))
  | None =>
      let '(b2, rs) :=
        Swaps (SwapCreatorAddr ethSwapInfo) (SwapID ethSwapInfo) b1 in
      match rs with
      | inl e => (b2, inl (errExternal e))
      | inr StageInvalid => (b2, inl (errSwapDoesNotExist (SwapID ethSwapInfo)))
      | inr StageCompleted =>
          let '(b3, rl) :=
            FilterLogs (StartNumber ethSwapInfo) (SwapCreatorAddr ethSwapInfo) b2 in
          match rl with
          | inl e => (b3, inl (errFilterLogs e))
          | inr logs => (b3, find_claimed (SwapID ethSwapInfo) logs)
          end
      | inr StagePending | inr StageReady => (b2, inr false)
      | inr (StageOther _) => (b2, inl panicUnhandledStage)
      end
  end.

(** [completeSwap]; [now_status] and [now_end] are the two readings of the
    clock, in [SetStatus] and in [CompleteOngoingSwap]. *)
Definition completeSwap (now_status now_end : Time) (info : Swap.loc)
  (w : mworld) : mworld * option error :=
  match Swap.mem (sw w) !! info with
  | None => (w, Some panicNilDereference)
  | Some i =>
      let sw0 :=
        Swap.store info (Swap.SetStatus now_status CompletedSuccess i) (sw w) in
      let '(sw1, r) := Swap.CompleteOngoingSwap now_end info sw0 in
      match r with
      | Some e => (mkMWorld sw1 (om w) (backend w) (calls w), Some (errMarkCompleted e))
      | None =>
          let '(om1, r1) := DeleteOffer (Swap.OfferID i) (om w) in
          match r1 with
          | Some e => (mkMWorld sw1 om1 (backend w) (calls w), Some (errDeleteOffer e))
          | None =>
              let '(b1, r2) := DeleteSwap (Swap.OfferID i) (backend w) in
              match r2 with
              | Some e => (mkMWorld sw1 om1 b1 (calls w), Some (errDeleteSwapInfo e))
              | None => (mkMWorld sw1 om1 b1 (calls w), None)
              end
          end
      end
  end.

(** [newSwapState]: the sender, the two watchers, then the struct. The two
    goroutines it starts are not part of its result. *)
Definition newSwapState (offer : Offer) (offerExtra : OfferExtra)
  (ethStartNumber : Z) (moneroStartNumber : N) (info : Swap.loc) (w : mworld)
  : mworld * (error + swapState) :=
  let '(b1, rs) :=
    if IsToken (EthAsset offer) then
      let '(b0, r0) := NewIERC20 (EthAsset offer) (backend w) in
      match r0 with
      | Some e => (b0, Some e)
      | None => NewTxSender (EthAsset offer) true b0
      end
    else NewTxSender (EthAsset offer) false (backend w) in
  match rs with
  | Some e => (with_backend b1 w, inl (errExternal e))
  | None =>
      let '(b2, r2) := StartWatcher readyTopic ethStartNumber b1 in
      match r2 with
      | Some e => (with_backend b2 w, inl (errExternal e))
      | None =>
          let '(b3, r3) := StartWatcher refundedTopic ethStartNumber b2 in
          match r3 with
          | Some e => (with_backend b3 w, inl (errExternal e))
          | None =>
              match Swap.mem (sw w) !! info with
              | None => (with_backend b3 w, inl panicNilDereference)
              | Some i =>
                  (with_backend b3 w,
                   inr (mkSwapState info offer offerExtra None None 0%N 0%N None
                          0%Z 0%Z None None moneroStartNumber
                          (nextExpectedEventFromStatus (Swap.Status i))
                          false false))
              end
          end
      end
  end.

(** [setContract] *)
Definition setContract (address : Address) (s : swapState) (b : B)
  : swapState * B * option error :=
  let s1 :=
    mkSwapState (info s) (offer s) (offerExtra s) (privkeys s) (pubkeys s)
      address (contractSwapID s) (contractSwap s) (t0 s) (t1 s)
      (xmrtakerPublicSpendKey s) (xmrtakerPrivateViewKey s)
      (moneroStartHeight s) (nextExpectedEvent s) (cancelled s) (done s) in
  let '(b1, r) := NewSwapCreator address b in
  match r with
  | Some e => (s1, b1, Some (errExternal e))
  | None => (s1, b1, None)
  end.

(** [newSwapStateFromOngoing] *)
Definition newSwapStateFromOngoing (now_status now_end : Time)
  (offer : Offer) (offerExtra : OfferExtra) (ethSwapInfo : EthereumSwapInfo)
  (info : Swap.loc) (sk : N) (w : mworld) : mworld * (error + swapState) :=
  let '(b1, rc) := checkIfAlreadyClaimed ethSwapInfo (backend w) in
  let w1 := with_backend b1 w in
  match rc with
  | inl e => (w1, inl e)
  | inr true =>
      let '(w2, r) := completeSwap now_status now_end info w1 in
      match r with
      | Some e => (w2, inl (errFailedToCompleteSwap e))
      | None => (w2, inl errAlreadyCompleted)
      end
  | inr false =>
      match Swap.mem (sw w1) !! info with
      | None => (w1, inl panicNilDereference)
      | Some i =>
          if decide (Swap.Status i = XMRLocked) then
            let '(w2, rs) :=
              newSwapState offer offerExtra (StartNumber ethSwapInfo)
                (Swap.MoneroStartHeight i) info w1 in
            match rs with
            | inl e => (w2, inl e)
            | inr s =>
                let '(s1, b3, r) :=
                  setContract (SwapCreatorAddr ethSwapInfo) s (backend w2) in
                match r with
                | Some e => (with_backend b3 w2, inl e)
                | None =>
                    (with_backend b3 w2,
                     inr (mkSwapState (XMRMaker.info s1) (XMRMaker.offer s1)
                            (XMRMaker.offerExtra s1)
                            (Some sk) (Some (PublicKeyPair sk))
                            (swapCreatorAddr s1) (SwapID ethSwapInfo)
                            (Some (Swap ethSwapInfo))
                            (Timeout0 (Swap ethSwapInfo))
                            (Timeout1 (Swap ethSwapInfo))
                            (xmrtakerPublicSpendKey s1) (xmrtakerPrivateViewKey s1)
                            (moneroStartHeight s1) (nextExpectedEvent s1)
                            (cancelled s1) (done s1)))
                end
            end
          else (w1, inl errInvalidStageForRecovery)
      end
  end.

(** [lockFunds]. The destination is computed from the taker's keys and
    ours, which the swap state holds by then; a missing key is a nil
    dereference before any call is made. *)
Definition lockFunds (amount : Z) (s : swapState) (w : mworld)
  : swapState * mworld * option error :=
  match xmrtakerPublicSpendKey s, xmrtakerPrivateViewKey s, pubkeys s with
  | Some spend, Some view, Some ours =>
      let swapDestAddr := swapAddress spend view ours in
      let '(b1, rb) := GetBalance 0 (backend w) in
      let w1 := mkMWorld (sw w) (om w) b1 (calls w ++ [CallGetBalance]) in
      match rb with
      | inl e => (s, w1, Some (errExternal e))
      | inr balance =>
          let '(s2, sw2, r) :=
            setNextExpectedEvent EventContractReadyType s (sw w1) in
          let w2 :=
            mkMWorld sw2 (om w1) (backend w1)
              (calls w1 ++ [CallSetNextExpectedEvent EventContractReadyType
                              (bool_decide (is_Some r))]) in
          match r with
          | Some e => (s2, w2, Some (errSetNextExpectedEvent e))
          | None =>
              let '(b3, rt) :=
                Transfer swapDestAddr 0 amount MinSpendConfirmations (backend w2) in
              let w3 (failed : bool) :=
                mkMWorld (sw w2) (om w2) b3
                  (calls w2 ++ [CallTransfer swapDestAddr amount failed]) in
              match rt with
              | inl e => (s2, w3 true, Some (errExternal e))
              | inr transfer => (s2, w3 false, None)
              end
          end
      end
  | _, _, _ => (s, w, Some panicNilDereference)
  end.

(** How a call of [exit] ends: it returns, or a dereference panics, or it
    waits on the event channel for ever. *)
Inductive exit_outcome :=
| ExitReturns (e : option error)
| ExitPanics
| ExitBlocks.

(** The function deferred by [exit]; [None] is a nil dereference. [now] is
    the clock read by [CompleteOngoingSwap]. Errors of [AddOffer],
    [DeleteOffer] and [DeleteSwap] are logged and dropped. *)
Definition exit_deferred (now : Time) (s : swapState) (w : mworld)
  : option (swapState * mworld) :=
  match Swap.mem (sw w) !! info s with
  | None => None
  | Some i0 =>
      let b1 := CloseProtocolStream (Swap.OfferID i0) (backend w) in
      let '(sw1, r) := Swap.CompleteOngoingSwap now (info s) (sw w) in
      match r with
      | Some _ => Some (s, mkMWorld sw1 (om w) b1 (calls w))
      | None =>
          match Swap.mem sw1 !! info s with
          | None => None
          | Some i =>
              let om1 :=
                if bool_decide (Swap.Status i ≠ CompletedSuccess) && IsSet (offer s)
                then fst (AddOffer (offer s) (UseRelayer (offerExtra s)) (om w))
                else if bool_decide (Swap.Status i = CompletedSuccess)
                then fst (DeleteOffer (ID (offer s)) (om w))
                else om w in
              let b2 := fst (DeleteSwap (ID (offer s)) b1) in
              Some (mkSwapState (info s) (offer s) (offerExtra s) (privkeys s)
                      (pubkeys s) (swapCreatorAddr s) (contractSwapID s)
                      (contractSwap s) (t0 s) (t1 s) (xmrtakerPublicSpendKey s)
                      (xmrtakerPrivateViewKey s) (moneroStartHeight s)
                      (nextExpectedEvent s) true true,
                    mkMWorld sw1 om1 b2 (calls w))
          end
      end
  end.

Section exit.
(** The two handlers [exit] calls, declared outside src/. *)
Variable handleEventETHRefunded :
  N → swapState → mworld → swapState * mworld * option error.
Variable handleEventContractReady :
  swapState → mworld → swapState * mworld * option error.

(** The [switch] of [exit]; [next] is the event the channel delivers, if
    one ever comes. [None]: the receive does not return. *)
Definition exit_body (next : option Event) (s : swapState) (w : mworld)
  : option (swapState * mworld * option error) :=
  match nextExpectedEvent s with
  | EventETHLockedType =>
      let '(s1, sw1) := clearNextExpectedEvent CompletedAbort s (sw w) in
      Some (s1, mkMWorld sw1 (om w) (backend w) (calls w), None)
  | EventContractReadyType =>
      match next with
      | None => None
      | Some (EventETHRefunded secret) => Some (handleEventETHRefunded secret s w)
      | Some EventContractReady => Some (handleEventContractReady s w)
      | Some _ => Some (s, w, None)
      end
  | EventNoneType => Some (s, w, None)
  | _ =>
      let '(s1, sw1) := clearNextExpectedEvent CompletedAbort s (sw w) in
      Some (s1, mkMWorld sw1 (om w) (backend w) (calls w),
            Some errUnexpectedMessageType)
  end.

(** [exit]: the switch, then the deferred function. *)
Definition exit (now : Time) (next : option Event) (s : swapState) (w : mworld)
  : exit_outcome * swapState * mworld :=
  match exit_body next s w with
  | None => (ExitBlocks, s, w)
  | Some (s1, w1, err) =>
      match exit_deferred now s1 w1 with
      | None => (ExitPanics, s1, w1)
      | Some (s2, w2) => (ExitReturns err, s2, w2)
      end
  end.

End exit.

End maker.

Arguments mworld D O B : clear implicits.

(** An offer table held in memory, for running the maker. *)
#[global, refine] Instance MemOffers : OfferManager (gmap Hash Offer) := {
  AddOffer o r st := (<[ID o := o]> st, None);
  DeleteOffer id st := (delete id st, None);
  GetOffer id st := st !! id
}.
Proof.
  - intros o r st st' [= <-]. rewrite lookup_insert_eq. eauto.
  - intros id st st' [= <-]. apply lookup_delete_eq.
Defined.

(** A chain and a wallet with fixed answers, for running the maker. *)
Record Fixed := mkFixed {
  stage : Stage;
  logs : list Log;
  wallet_fails : bool
}.

#[global] Instance Fixed_Backend : Backend Fixed := {
  NewSwapCreator _ b := (b, None);
  Swaps _ _ b := (b, inr (stage b));
  FilterLogs _ _ b := (b, inr (logs b));
  NewIERC20 _ b := (b, None);
  NewTxSender _ _ b := (b, None);
  StartWatcher _ _ b := (b, None);
  GetBalance _ b := (b, inr 0%Z);
  Transfer _ _ _ _ b :=
    if wallet_fails b then (b, inl (ExtErr 1)) else (b, inr 0%N);
  DeleteSwap _ b := (b, None);
  CloseProtocolStream _ b := b
}.

(** Modelled from the spec: the helpers of [swapState] declared outside
    src/, for running the maker. [setNextExpectedEvent] stores the event and
    persists the record ("persist next-expected-event"); an abort or a
    success clears the next expected event and sets the terminal status;
    recovery resumes an XMR-locked swap at the event [ContractReady]. *)
Definition with_next (e : EventType) (s : swapState) : swapState :=
  mkSwapState (info s) (offer s) (offerExtra s) (privkeys s) (pubkeys s)
    (swapCreatorAddr s) (contractSwapID s) (contractSwap s) (t0 s) (t1 s)
    (xmrtakerPublicSpendKey s) (xmrtakerPrivateViewKey s)
    (moneroStartHeight s) e (cancelled s) (done s).

Definition Helpers (now : Time) : Externals Swap.MemDB := {|
  readyTopic := 1%N;
  claimedTopic := 2%N;
  refundedTopic := 3%N;
  IsSet o := negb (ID o =? 0)%N;
  IsToken a := negb (a =? 0)%N;
  PublicKeyPair k := k;
  swapAddress a b c := (a + b + c)%N;
  nextExpectedEventFromStatus st :=
    match st with
    | ExpectingKeys | KeysExchanged => EventETHLockedType
    | ETHLocked | XMRLocked => EventContractReadyType
    | _ => EventNoneType
    end;
  setNextExpectedEvent e s w :=
    let '(w', r) := Swap.WriteSwapToDB (info s) w in
    (with_next e s, w',
     match r with Some _ => Some (ExtErr 2) | None => None end);
  clearNextExpectedEvent st s w :=
    match Swap.mem w !! info s with
    | Some i => (with_next EventNoneType s,
                 Swap.store (info s) (Swap.SetStatus now st i) w)
    | None => (with_next EventNoneType s, w)
    end
|}.

#[global] Instance Helpers_at_start : Externals Swap.MemDB := Helpers 0%Z.

(** The status channel [StatusCh] of [types.OfferExtra]: its capacity and
    what it holds, oldest first. *)
Record statusChan := mkStatusChan {
  capacity : nat;
  held : list Types.Status
}.

(** A send on the channel: it completes when there is room. *)
Definition send (st : Types.Status) (c : statusChan) : option statusChan :=
  if (length (held c) <? capacity c)%nat
  then Some (mkStatusChan (capacity c) (held c ++ [st]))
  else None.

(** [pcommon.KeysAndProof] *)
Record KeysAndProof := mkKeysAndProof {
  kpDLEqProof : N;
  kpSecp256k1PublicKey : N;
  kpPrivateKeyPair : N;
  kpPublicKeyPair : N
}.

(** The key fields of [swapState] that the record [swapState] leaves out:
    [dleqProof] and [secp256k1Pub]. *)
Record sessionKeys := mkSessionKeys {
  dleqProof : option N;
  secp256k1Pub : option N
}.

(** More of the collaborators behind [backend.Backend]: the recovery
    database, the wallet's height and primary address, the latest Ethereum
    header, and the key generation [pcommon.GenerateKeysAndProof]. The values
    [GetCounterpartySwapKeys] returns are the public spend key and the
    private view key. *)
Class BackendMore (B : Type) := {
  PutSwapRelayerInfo : Hash → OfferExtra → B → B * option exterror;
  GetHeight : B → B * (exterror + N);
  HeaderByNumber : B → B * (exterror + Z);
  PutSwapPrivateKey : Hash → N → B → B * option exterror;
  PutCounterpartySwapPrivateKey : Hash → N → B → B * option exterror;
  GetCounterpartySwapKeys : Hash → B → B * (exterror + N * N);
  GenerateKeysAndProof : B → B * (exterror + KeysAndProof);
  PrimaryAddress : B → Address
}.

(** More functions of the repository declared outside src/:
    the two halves of a private key pair, [pcommon.GetClaimKeypair], and
    [pcommon.ClaimMonero], which is handed the swap, the wallet and the swap
    manager. *)
Class ExternalsMore (D B : Type) := {
  SpendKey : N → N;
  ViewKey : N → N;
  GetClaimKeypair : N → N → N → N → N;
  ClaimMonero :
    Swap.loc → N → Address → Swap.world D → B → Swap.world D * B * option exterror
}.

(** The errors of the functions below: those of [error], an error of the
    swap manager returned as it is, the wrapped error of
    [GetCounterpartySwapKeys], and the panic of [generateAndSetKeys]. *)
Inductive error' :=
| errMaker (e : error)
| errManager (e : Swap.error)
| errGetCounterpartyKeys (e : exterror)
| panicCalledTwice.

(** What [reclaimMonero] asks of the recovery database and of the wallet,
    oldest first. *)
Inductive rcall :=
| RPutCounterpartySwapPrivateKey (id : Hash) (sk : N) (failed : bool)
| RGetCounterpartySwapKeys (id : Hash) (failed : bool)
| RClaimMonero (kpAB : N) (dest : Address) (failed : bool).

(** How a call of [newSwapStateFromStart] ends: it returns, or it waits on
    the status channel because the channel is full. *)
Inductive start_outcome :=
| StartReturns (r : error' + swapState * sessionKeys)
| StartBlocks.

Section maker_more.
Context {D O B : Type}.
Context `{!Swap.Database D, !OfferManager O, !Backend B, !Externals D}.
Context `{!BackendMore B, !ExternalsMore D B}.

Definition with_keys (priv pub : option N) (s : swapState) : swapState :=
  mkSwapState (info s) (offer s) (offerExtra s) priv pub
    (swapCreatorAddr s) (contractSwapID s) (contractSwap s) (t0 s) (t1 s)
    (xmrtakerPublicSpendKey s) (xmrtakerPrivateViewKey s)
    (moneroStartHeight s) (nextExpectedEvent s) (cancelled s) (done s).

Definition with_xmrtaker (spend view : option N) (s : swapState) : swapState :=
  mkSwapState (info s) (offer s) (offerExtra s) (privkeys s) (pubkeys s)
    (swapCreatorAddr s) (contractSwapID s) (contractSwap s) (t0 s) (t1 s)
    spend view
    (moneroStartHeight s) (nextExpectedEvent s) (cancelled s) (done s).

(** [generateAndSetKeys] *)
Definition generateAndSetKeys (s : swapState) (k : sessionKeys)
  (h : Swap.heap) (b : B) : swapState * sessionKeys * B * option error' :=
  match privkeys s with
  | Some _ => (s, k, b, Some panicCalledTwice)
  | None =>
      let '(b1, r) := GenerateKeysAndProof b in
      match r with
      | inl e => (s, k, b1, Some (errMaker (errExternal e)))
      | inr keysAndProof =>
          let s1 :=
            with_keys (Some (kpPrivateKeyPair keysAndProof))
              (Some (kpPublicKeyPair keysAndProof)) s in
          let k1 :=
            mkSessionKeys (Some (kpDLEqProof keysAndProof))
              (Some (kpSecp256k1PublicKey keysAndProof)) in
          match h !! info s with
          | None => (s1, k1, b1, Some (errMaker panicNilDereference))
          | Some i =>
              let '(b2, r2) :=
                PutSwapPrivateKey (Swap.OfferID i)
                  (SpendKey (kpPrivateKeyPair keysAndProof)) b1 in
              (s1, k1, b2, errMaker ∘ errExternal <$> r2)
          end
      end
  end.

(** The start height of the Monero scan: the wallet's height, less
    [monero.MinSpendConfirmations] when that does not go below zero. *)
Definition scanStart (height : N) : N :=
  if (MinSpendConfirmations <=? height)%N
  then (height - MinSpendConfirmations)%N
  else height.

(** [newSwapStateFromStart]. [statusCh] is [offerExtra.StatusCh] ([None]:
    nil, replaced by a new channel of capacity 7); [providesAmount] and
    [desiredAmount] are the amounts in the units the record holds. *)
Definition newSwapStateFromStart (now : Time) (takerPeerID : N)
  (offer : Offer) (offerExtra : OfferExtra) (statusCh : option statusChan)
  (providesAmount desiredAmount : Z) (w : mworld D O B)
  : mworld D O B * statusChan * start_outcome :=
  let stage := KeysExchanged in
  let ch := match statusCh with
            | None => mkStatusChan 7 []
            | Some c => c
            end in
  let '(b0, r0) :=
    if UseRelayer offerExtra
    then PutSwapRelayerInfo (ID offer) offerExtra (backend w)
    else (backend w, None) in
  match r0 with
  | Some e => (with_backend b0 w, ch, StartReturns (inl (errMaker (errExternal e))))
  | None =>
      let '(b1, r1) := GetHeight b0 in
      match r1 with
      | inl e => (with_backend b1 w, ch, StartReturns (inl (errMaker (errExternal e))))
      | inr height =>
          let moneroStartHeight := scanStart height in
          let '(b2, r2) := HeaderByNumber b1 in
          match r2 with
          | inl e =>
              (with_backend b2 w, ch, StartReturns (inl (errMaker (errExternal e))))
          | inr ethHeaderNumber =>
              let '(info, mem1) :=
                Swap.alloc
                  (Swap.NewInfo now takerPeerID (ID offer) providesAmount
                     desiredAmount stage moneroStartHeight)
                  (Swap.mem (sw w)) in
              let '(sw1, r3) :=
                Swap.AddSwap info
                  (Swap.mkWorld mem1 (Swap.m (sw w)) (Swap.history (sw w))) in
              let w1 := mkMWorld sw1 (om w) b2 (calls w) in
              match r3 with
              | Some e => (w1, ch, StartReturns (inl (errManager e)))
              | None =>
                  let '(w2, r4) :=
                    newSwapState offer offerExtra ethHeaderNumber
                      moneroStartHeight info w1 in
                  match r4 with
                  | inl e => (w2, ch, StartReturns (inl (errMaker e)))
                  | inr s =>
                      let '(s1, k1, b5, r5) :=
                        generateAndSetKeys s (mkSessionKeys None None)
                          (Swap.mem (sw w2)) (backend w2) in
                      let w3 := with_backend b5 w2 in
                      match r5 with
                      | Some e => (w3, ch, StartReturns (inl e))
                      | None =>
                          match send stage ch with
                          | None => (w3, ch, StartBlocks)
                          | Some ch' => (w3, ch', StartReturns (inr (s1, k1)))
                          end
                      end
                  end
              end
          end
      end
  end.

(** [reclaimMonero]; the fourth component lists the calls made. *)
Definition reclaimMonero (skA : N) (s : swapState) (w : Swap.world D) (b : B)
  : swapState * Swap.world D * B * list rcall * option error' :=
  match Swap.mem w !! info s with
  | None => (s, w, b, [], Some (errMaker panicNilDereference))
  | Some i =>
      let id := Swap.OfferID i in
      let '(b1, r1) := PutCounterpartySwapPrivateKey id skA b in
      let log1 := [RPutCounterpartySwapPrivateKey id skA (bool_decide (is_Some r1))] in
      match r1 with
      | Some e => (s, w, b1, log1, Some (errMaker (errExternal e)))
      | None =>
          let '(s2, b2, log2, r2) :=
            match xmrtakerPublicSpendKey s, xmrtakerPrivateViewKey s with
            | Some _, Some _ => (s, b1, log1, None)
            | _, _ =>
                let '(b', r) := GetCounterpartySwapKeys id b1 in
                match r with
                | inl e =>
                    (with_xmrtaker None None s, b',
                     log1 ++ [RGetCounterpartySwapKeys id true],
                     Some (errGetCounterpartyKeys e))
                | inr (spend, view) =>
                    (with_xmrtaker (Some spend) (Some view) s, b',
                     log1 ++ [RGetCounterpartySwapKeys id false], None)
                end
            end in
          match r2 with
          | Some e => (s2, w, b2, log2, Some e)
          | None =>
              match privkeys s2, xmrtakerPrivateViewKey s2 with
              | Some priv, Some view =>
                  let kpAB :=
                    GetClaimKeypair skA (SpendKey priv) view (ViewKey priv) in
                  let '(w3, b3, r3) :=
                    ClaimMonero (info s2) kpAB (PrimaryAddress b2) w b2 in
                  (s2, w3, b3,
                   log2 ++ [RClaimMonero kpAB (PrimaryAddress b2)
                              (bool_decide (is_Some r3))],
                   errMaker ∘ errExternal <$> r3)
              | _, _ => (s2, w, b2, log2, Some (errMaker panicNilDereference))
              end
          end
      end
  end.

End maker_more.

(** More fixed answers, for running the maker: the wallet stands at height
    25, the latest header is number 100. *)
#[global] Instance Fixed_BackendMore : BackendMore Fixed := {
  PutSwapRelayerInfo _ _ b := (b, None);
  GetHeight b := (b, inr 25%N);
  HeaderByNumber b := (b, inr 100%Z);
  PutSwapPrivateKey _ _ b := (b, None);
  PutCounterpartySwapPrivateKey _ _ b := (b, None);
  GetCounterpartySwapKeys _ b := (b, inr (13%N, 14%N));
  GenerateKeysAndProof b := (b, inr (mkKeysAndProof 21%N 22%N 23%N 24%N));
  PrimaryAddress _ := 99%N
}.

#[global] Instance Fixed_ExternalsMore : ExternalsMore Swap.MemDB Fixed := {
  SpendKey k := (2 * k)%N;
  ViewKey k := (2 * k + 1)%N;
  GetClaimKeypair a b c d := (a + b + c + d)%N;
  ClaimMonero _ _ _ w b := (w, b, None)
}.

End XMRMaker.

(* ===================================================================== *)
(** ** Package rpc: building the JSON-RPC server *)
(* ===================================================================== *)

Module RPC.

Definition DaemonNamespace : string := "daemon".
Definition DatabaseNamespace : string := "database".
Definition NetNamespace : string := "net".
Definition PersonalName : string := "personal".
Definition SwapNamespace : string := "swap".

(** [AllNamespaces] returns a map with every namespace as a key. *)
Definition AllNamespaces : gset string :=
  {[ DaemonNamespace; DatabaseNamespace; NetNamespace; PersonalName;
     SwapNamespace ]}.

(** The errors [NewServer] returns: the one of a failed
    [RegisterService], [fmt.Errorf("unknown namespace %s", ns)], and the
    one of a failed [Listen]. *)
Inductive error :=
| errRegister (ns : string) (e : N)
| errUnknownNamespace (ns : string)
| errListen (e : N).

(** The gorilla RPC server, as far as [NewServer] uses it: registering the
    service of a namespace changes the server and may fail. *)
Class RPCServer (R : Type) := {
  RegisterService : string → R → R * option N
}.

(** The server that is returned: its listener, and whether the websocket
    handler was built with a net service ([netService] is nil unless the
    loop met the net namespace). *)
Record Server := mkServer {
  listener : N;
  wsNetService : bool
}.

Section server.
Context {R : Type} `{!RPCServer R}.

(** One round of the loop over [cfg.Namespaces]: the state is the RPC
    server, whether [netService] is set, and the variable [err], which
    every case but the daemon's assigns. *)
Definition register_namespace (acc : R * bool * option error) (ns : string)
  : R * bool * option error :=
  let '(r, net, err) := acc in
  if decide (ns = DaemonNamespace) then acc
  else if decide (ns = DatabaseNamespace) then
    let '(r', e) := RegisterService DatabaseNamespace r in
    (r', net, errRegister ns <$> e)
  else if decide (ns = NetNamespace) then
    let '(r', e) := RegisterService NetNamespace r in
    (r', true, errRegister ns <$> e)
  else if decide (ns = PersonalName) then
    let '(r', e) := RegisterService PersonalName r in
    (r', net, errRegister ns <$> e)
  else if decide (ns = SwapNamespace) then
    let '(r', e) := RegisterService SwapNamespace r in
    (r', net, errRegister ns <$> e)
  else (r, net, Some (errUnknownNamespace ns)).

(** [NewServer]. [Namespaces] lists the keys of [cfg.Namespaces] in the
    order in which the [range] statement yields them, [listen] is the
    answer of [lc.Listen]. The result is the RPC server, whether
    [serverCancel] was called, and the returned pair. *)
Definition NewServer (Namespaces : list string) (listen : N + N) (r : R)
  : R * bool * (error + Server) :=
  let '(r0, e0) := RegisterService DaemonNamespace r in
  match e0 with
  | Some e => (r0, false, inl (errRegister DaemonNamespace e))
  | None =>
      let '(r1, net, err) :=
        foldl register_namespace (r0, false, None) Namespaces in
      match err with
      | Some e => (r1, true, inl e)
      | None =>
          match listen with
          | inl e => (r1, true, inl (errListen e))
          | inr ln => (r1, false, inr (mkServer ln net))
          end
      end
  end.

End server.

(** An RPC server that records the names registered and refuses the ones
    in [refused]. *)
Record Recording := mkRecording {
  registered : list string;
  refused : list string
}.

#[global] Instance Recording_RPCServer : RPCServer Recording := {
  RegisterService ns r :=
    if bool_decide (ns ∈ refused r) then (r, Some 1%N)
    else (mkRecording (registered r ++ [ns]) (refused r), None)
}.

End RPC.

(* ===================================================================== *)
(** ** Concrete worlds used to run the definitions *)
(* ===================================================================== *)

Module Run.
Import Types.

(** A swap with XMR locked, offer id 7. *)
Definition locked : Swap.Info :=
  Swap.mkInfo 7%N 1%N 10%Z 20%Z XMRLocked 0%Z 5%N 0%Z None None None.

(** The same swap once aborted. *)
Definition aborted : Swap.Info :=
  Swap.mkInfo 7%N 1%N 10%Z 20%Z CompletedAbort 0%Z 5%N 0%Z None None None.

(** A manager that holds [locked] at address 1 as its only ongoing swap,
    over a database whose writes work ([broken = false]) or fail. *)
Definition one_ongoing (broken : bool) : Swap.world Swap.MemDB :=
  Swap.mkWorld {[ 1%positive := locked ]}
    (Swap.mkManager (Swap.mkMemDB ∅ broken) {[ 7%N := 1%positive ]} ∅) [].

(** A manager with no swap in memory, over a database that holds [locked]. *)
Definition only_stored : Swap.world Swap.MemDB :=
  Swap.mkWorld ∅
    (Swap.mkManager (Swap.mkMemDB {[ 7%N := locked ]} false) ∅ ∅) [].

(** A manager whose past map holds id 3, over a database that holds the
    ongoing [locked] (id 7) and the aborted swap 9. *)
Definition finished (id : Hash) : Swap.Info :=
  Swap.mkInfo id 1%N 10%Z 20%Z CompletedAbort 0%Z 5%N 0%Z (Some 4%Z) None None.

Definition mixed : Swap.world Swap.MemDB :=
  Swap.mkWorld {[ 2%positive := finished 3%N ]}
    (Swap.mkManager
       (Swap.mkMemDB {[ 7%N := locked; 9%N := finished 9%N ]} false)
       ∅ {[ 3%N := 2%positive ]}) [].

(** An amount of ether, and a front-end that takes the transaction and
    answers with hash 77 after [d]. *)
Definition ether : TxSender.EthAssetAmount :=
  TxSender.mkEthAssetAmount false 0%N 1000%Z 1%Z.

Definition answers_after (d : Duration) : TxSender.frontend :=
  TxSender.mkFrontend true (Some (d, 77%N)) true (inr 5%N).

Definition never_answers : TxSender.frontend :=
  TxSender.mkFrontend true None true (inr 5%N).

(** The maker's side: the offer 7, a swap state waiting for the ETH lock
    on the swap held at address 1, and a world where that swap is the only
    ongoing one and the offer table is empty (the offer was taken). *)
Definition offer7 : XMRMaker.Offer := XMRMaker.mkOffer 7%N 0%N.

Definition waiting (next : XMRMaker.EventType) : XMRMaker.swapState :=
  XMRMaker.mkSwapState 1%positive offer7 (XMRMaker.mkOfferExtra false)
    (Some 11%N) (Some 12%N) 0%N 0%N None 0%Z 0%Z (Some 13%N) (Some 14%N) 5%N
    next false false.

Definition maker_world (chain : XMRMaker.Fixed)
  : XMRMaker.mworld Swap.MemDB (gmap Hash XMRMaker.Offer) XMRMaker.Fixed :=
  XMRMaker.mkMWorld (one_ongoing false) ∅ chain [].

(** A chain where the swap is still pending, and one where it is completed
    with a Claimed log for swap id 40 after a removed one and one for
    another swap. *)
Definition pending : XMRMaker.Fixed :=
  XMRMaker.mkFixed XMRMaker.StagePending [] false.

Definition claimed : XMRMaker.Fixed :=
  XMRMaker.mkFixed XMRMaker.StageCompleted
    [XMRMaker.mkLog [2%N; 40%N; 9%N] true 3%N 1%N;
     XMRMaker.mkLog [2%N; 41%N; 9%N] false 4%N 2%N;
     XMRMaker.mkLog [2%N; 40%N; 9%N] false 5%N 3%N] false.

Definition swap40 : XMRMaker.EthereumSwapInfo :=
  XMRMaker.mkEthereumSwapInfo 1%Z 40%N (XMRMaker.mkSwapCreatorSwap 100%Z 200%Z) 6%N.

(** Handlers that do nothing, for the paths of [exit] that do not call
    them. *)
Definition idle_refunded (secret : N) (s : XMRMaker.swapState)
  (w : XMRMaker.mworld Swap.MemDB (gmap Hash XMRMaker.Offer) XMRMaker.Fixed)
  : XMRMaker.swapState
    * XMRMaker.mworld Swap.MemDB (gmap Hash XMRMaker.Offer) XMRMaker.Fixed
    * option XMRMaker.error :=
  (s, w, None).

Definition idle_ready (s : XMRMaker.swapState)
  (w : XMRMaker.mworld Swap.MemDB (gmap Hash XMRMaker.Offer) XMRMaker.Fixed)
  : XMRMaker.swapState
    * XMRMaker.mworld Swap.MemDB (gmap Hash XMRMaker.Offer) XMRMaker.Fixed
    * option XMRMaker.error :=
  (s, w, None).

(** A world with no swap and no offer, over an empty database. *)
Definition empty_world (chain : XMRMaker.Fixed)
  : XMRMaker.mworld Swap.MemDB (gmap Hash XMRMaker.Offer) XMRMaker.Fixed :=
  XMRMaker.mkMWorld
    (Swap.mkWorld ∅ (Swap.mkManager (Swap.mkMemDB ∅ false) ∅ ∅) [])
    ∅ chain [].

(** A database that holds the ongoing swap 7 and the aborted swap 9. *)
Definition two_stored : Swap.MemDB :=
  Swap.mkMemDB {[ 7%N := locked; 9%N := finished 9%N ]} false.

(** A manager with no swap in memory, over a database that answers the key
    7 with the record of swap 9. *)
Definition misfiled : Swap.world Swap.MemDB :=
  Swap.mkWorld ∅
    (Swap.mkManager (Swap.mkMemDB {[ 7%N := finished 9%N ]} false) ∅ ∅) [].

(** The swap 7 with its pointer fields: the provided amount is the cell 1,
    which holds 10, the expected amount is the cell 2, which holds 20, and
    there is no end time yet. It is the only ongoing swap, at address 1. *)
Definition locked_ptr : SwapPtr.Info :=
  SwapPtr.mkInfo 7%N 1%N (Some 1%positive) (Some 2%positive) XMRLocked 0%Z
    5%N 0%Z None None None.

Definition shared : SwapPtr.world :=
  SwapPtr.mkWorld {[ 1%positive := locked_ptr ]}
    {[ 1%positive := 10%Z; 2%positive := 20%Z ]} {[ 7%N := 1%positive ]}.

(** An RPC server with nothing registered that refuses no service. *)
Definition blank : RPC.Recording := RPC.mkRecording [] [].

End Run.

(* ===================================================================== *)
(** ** The manager: completion, copies, past swaps *)
(* ===================================================================== *)

Section manager_facts.
Import Types Swap.
Context {D : Type} `{!Database D}.

Lemma alloc_fresh (v : Info) (h : heap) : (alloc v h).1 ∉ dom h.
Proof. unfold alloc; simpl. apply is_fresh. Qed.

Lemma alloc_lookup (v : Info) (h : heap) : (alloc v h).2 !! (alloc v h).1 = Some v.
Proof. unfold alloc; simpl. apply lookup_insert_eq. Qed.

Lemma alloc_old (v : Info) (h : heap) (l : loc) :
  is_Some (h !! l) → (alloc v h).2 !! l = h !! l.
Proof.
  intros Hl. unfold alloc; simpl. apply lookup_insert_ne.
  intros <-. apply (is_fresh (dom h)). by apply elem_of_dom.
Qed.

(** On sources that are all allocated, [copy_all] succeeds, leaves the
    cells it found in place, and pairs each source with a new address that
    holds the same struct. *)
Lemma copy_all_spec (ss : list loc) :
  ∀ (h : heap),
    Forall (λ s, is_Some (h !! s)) ss →
    ∃ h' ps,
      copy_all ss h = (h', Ok ps) ∧
      (∀ l, is_Some (h !! l) → h' !! l = h !! l) ∧
      Forall2 (λ p s, h !! p = None ∧ h' !! p = h !! s) ps ss.
Proof.
  induction ss as [|s rest IH]; intros h Hall; simpl.
  - exists h, []. split; [done|]. split; [done | constructor].
  - apply Forall_cons in Hall as [[i Hs] Hrest]. rewrite Hs.
    set (sCopy := fresh (dom h)). set (h1 := <[sCopy := i]> h).
    assert (HsCopy : h !! sCopy = None).
    { apply not_elem_of_dom, is_fresh. }
    assert (Hh1 : ∀ l, is_Some (h !! l) → h1 !! l = h !! l).
    { intros l [x Hl]. apply lookup_insert_ne. intros <-. congruence. }
    assert (Hnew : h1 !! sCopy = Some i).
    { apply lookup_insert_eq. }
    destruct (IH h1) as (h2 & swaps & Hc & Hold & Hpairs).
    { eapply Forall_impl; [exact Hrest|]. simpl. intros l Hl. by rewrite Hh1. }
    rewrite Hc. exists h2, (sCopy :: swaps). split; [done|]. split.
    + intros l Hl. rewrite Hold; [by apply Hh1 |]. by rewrite Hh1.
    + constructor.
      * split; [done|]. rewrite Hold; [by rewrite Hnew, Hs | by eexists].
      * apply Forall2_same_length_lookup. 
        destruct (proj1 (Forall2_same_length_lookup _ _ _) Hpairs) as [Hlen Hlk].
        split; [done|]. intros k p s' Hp Hs'.
        destruct (Hlk k p s' Hp Hs') as [Hnone Heq].
        assert (Hs'' : is_Some (h !! s')).
        { eapply (proj1 (Forall_lookup _ _) Hrest); exact Hs'. }
        split.
        -- destruct (h !! p) eqn:Hhp; [|done].
           rewrite Hh1 in Hnone; [congruence | by eexists].
        -- rewrite Heq. by apply Hh1.
Qed.

(** The second loop of [GetPastIDs] adds the ids of the records that are not
    ongoing, and nothing else. *)
Lemma foldl_add_stored (stored : list Info) :
  ∀ (ids : gset Hash) (id : Hash),
    id ∈ foldl add_stored ids stored ↔
    id ∈ ids ∨ ∃ s, s ∈ stored ∧ IsOngoing (Status s) = false ∧ OfferID s = id.
Proof.
  induction stored as [|s rest IH]; intros ids id; simpl.
  - split; [by left|]. intros [?|(s & Hs & _)]; [done|]. by apply elem_of_nil in Hs.
  - rewrite IH. unfold add_stored at 1.
    destruct (IsOngoing (Status s)) eqn:Hon.
    + split.
      * intros [?|(s' & ? & ? & ?)]; [by left|].
        right. exists s'. split; [by apply elem_of_cons; right | done].
      * intros [?|(s' & Hin & Hoff & Hid)]; [by left|].
        apply elem_of_cons in Hin as [->|Hin]; [congruence|].
        right. by exists s'.
    + rewrite elem_of_union, elem_of_singleton. split.
      * intros [[->|?]|(s' & ? & ? & ?)].
        -- right. exists s. split; [by apply elem_of_cons; left | done].
        -- by left.
        -- right. exists s'. split; [by apply elem_of_cons; right | done].
      * intros [?|(s' & Hin & Hoff & Hid)]; [by left; right|].
        apply elem_of_cons in Hin as [->|Hin]; [by left; left|].
        right. by exists s'.
Qed.

(** C2. [CompleteOngoingSwap(info)] returns the not-found error exactly when
    no ongoing swap has the offer id of [info], and then nothing changes:
    not the maps, not [info], not the database. Otherwise [info] gets the end
    time, the id leaves the ongoing map and enters the past map with [info],
    and the stamped record is handed to [PutSwap]; afterwards the record is
    absent from ongoing and present in past with an end time. *)
Theorem CompleteOngoingSwap_spec (now : Time) (info : loc) (w : world D) (i : Info) :
  mem w !! info = Some i →
  let w' := (CompleteOngoingSwap now info w).1 in
  let r := (CompleteOngoingSwap now info w).2 in
  let i' := set_EndTime (Some now) i in
  (r = Some errNoSwapWithID ↔ ongoing (m w) !! OfferID i = None) ∧
  (ongoing (m w) !! OfferID i = None → w' = w) ∧
  (is_Some (ongoing (m w) !! OfferID i) →
     mem w' = <[info := i']> (mem w) ∧
     ongoing (m w') = delete (OfferID i) (ongoing (m w)) ∧
     past (m w') = <[OfferID i := info]> (past (m w)) ∧
     db (m w') = (PutSwap i' (db (m w))).1 ∧
     r = wrap_db (PutSwap i' (db (m w))).2 ∧
     ongoing (m w') !! OfferID i = None ∧
     past (m w') !! OfferID i = Some info ∧
     ∃ j, mem w' !! info = Some j ∧ OfferID j = OfferID i ∧ EndTime j = Some now).
Proof.
  intros Hi. unfold CompleteOngoingSwap. rewrite Hi.
  destruct (ongoing (m w) !! OfferID i) as [q|] eqn:Hq.
  - destruct (PutSwap (set_EndTime (Some now) i) (db (m w))) as [db' r] eqn:Hput.
    simpl. split; [|split].
    + split; [|discriminate]. destruct r; simpl; discriminate.
    + discriminate.
    + intros _. repeat split.
      * apply lookup_delete_eq.
      * apply lookup_insert_eq.
      * exists (set_EndTime (Some now) i). rewrite lookup_insert_eq. done.
  - simpl. split; [done|]. split; [done|]. intros [? [=]].
Qed.

(** C1, as amended. When [CompleteOngoingSwap] finds the swap, it inserts it
    in the past map and clears the ongoing entry first and calls [PutSwap]
    last; it returns what [PutSwap] returns. So when the write fails the
    error is returned and the swap is already absent from ongoing and
    present in past: the maps are not put back. *)
Theorem CompleteOngoingSwap_clears_then_writes
  (now : Time) (info : loc) (w : world D) (i : Info) :
  mem w !! info = Some i →
  is_Some (ongoing (m w) !! OfferID i) →
  let w' := (CompleteOngoingSwap now info w).1 in
  let r := (CompleteOngoingSwap now info w).2 in
  let i' := set_EndTime (Some now) i in
  history w' = history w ++ [EvPastInsert (OfferID i);
                             EvOngoingDelete (OfferID i);
                             EvPutSwap i' (failed (PutSwap i' (db (m w))).2)] ∧
  r = wrap_db (PutSwap i' (db (m w))).2 ∧
  ongoing (m w') !! OfferID i = None ∧
  past (m w') !! OfferID i = Some info.
Proof.
  intros Hi [q Hq]. unfold CompleteOngoingSwap. rewrite Hi, Hq.
  destruct (PutSwap (set_EndTime (Some now) i) (db (m w))) as [db' r]. simpl.
  repeat split; [apply lookup_delete_eq | apply lookup_insert_eq].
Qed.

(** By contrast [GetPastSwap] returns the pointer the past map holds: a
    store through it is a store into the manager's record. *)
Lemma GetPastSwap_returns_stored_pointer
  (id : Hash) (w : world D) (p : loc) (v : Info) :
  past (m w) !! id = Some p →
  GetPastSwap id w = (w, Ok p) ∧ mem (store p v w) !! p = Some v.
Proof.
  intros Hp. unfold GetPastSwap. rewrite Hp. split; [done|].
  apply lookup_insert_eq.
Qed.

(** C8. When the database answers, [GetPastIDs] returns a list without
    repetition whose members are exactly the keys of the past map and the
    offer ids of the stored records that are not ongoing. *)
Theorem GetPastIDs_union (w : world D) (stored : list Info) :
  (GetAllSwaps (db (m w))).2 = inr stored →
  ∃ ids, (GetPastIDs w).2 = Ok ids ∧
    NoDup ids ∧
    ∀ id, id ∈ ids ↔
      (is_Some (past (m w) !! id) ∨
       ∃ s, s ∈ stored ∧ IsOngoing (Status s) = false ∧ OfferID s = id).
Proof.
  intros Hall. unfold GetPastIDs.
  destruct (GetAllSwaps (db (m w))) as [db' r]. simpl in Hall. subst r.
  eexists. split; [reflexivity|]. split; [apply NoDup_elements|].
  intros id. rewrite elem_of_elements, foldl_add_stored, elem_of_dom. done.
Qed.

(** C9. [GetPastSwap] does not look at the status of what the database
    returns: for an id that the past map does not hold and for which
    [GetSwap] returns a record, whatever its status, [GetPastSwap] returns a
    pointer to that record and the past map now holds the pointer under the
    record's offer id. *)
Theorem GetPastSwap_caches_any_status (id : Hash) (w : world D) (s : Info) :
  past (m w) !! id = None →
  (GetSwap id (db (m w))).2 = inr s →
  let w' := (GetPastSwap id w).1 in
  ∃ p, (GetPastSwap id w).2 = Ok p ∧
    mem w !! p = None ∧
    mem w' !! p = Some s ∧
    past (m w') !! OfferID s = Some p ∧
    ongoing (m w') = ongoing (m w).
Proof.
  intros Hpast Hget. unfold GetPastSwap, getSwapFromDB. rewrite Hpast.
  destruct (GetSwap id (db (m w))) as [db' r]. simpl in Hget. subst r. simpl.
  eexists. split; [reflexivity|]. split; [apply not_elem_of_dom, is_fresh|].
  split; [apply lookup_insert_eq|]. split; [apply lookup_insert_eq | done].
Qed.

End manager_facts.

(** C2, run: the only ongoing swap is completed at time 99. *)
Lemma CompleteOngoingSwap_spec_run :
  let w := Run.one_ongoing false in
  let w' := (Swap.CompleteOngoingSwap 99%Z 1%positive w).1 in
  Swap.mem w !! 1%positive = Some Run.locked ∧
  Swap.ongoing (Swap.m w') !! 7%N = None ∧
  Swap.past (Swap.m w') !! 7%N = Some 1%positive ∧
  ∃ j, Swap.mem w' !! 1%positive = Some j ∧ Swap.EndTime j = Some 99%Z.
Proof.
  split; [reflexivity|].
  destruct (CompleteOngoingSwap_spec 99%Z 1%positive (Run.one_ongoing false)
              Run.locked eq_refl) as (_ & _ & H).
  destruct H as (_ & _ & _ & _ & _ & Ho & Hp & j & Hj & _ & He).
  { vm_compute. eauto. }
  split; [exact Ho|]. split; [exact Hp|]. exists j. split; assumption.
Defined.

(** C1, as stated, fails: over a database whose write fails, the call
    returns the error, nothing is persisted, and the swap that was in the
    ongoing map is no longer there. *)
Lemma CompleteOngoingSwap_failed_write_not_rolled_back :
  let w := Run.one_ongoing true in
  let w' := (Swap.CompleteOngoingSwap 99%Z 1%positive w).1 in
  Swap.ongoing (Swap.m w) !! 7%N = Some 1%positive ∧
  (Swap.CompleteOngoingSwap 99%Z 1%positive w).2
    = Some (Swap.errDatabase (Swap.ErrDBOther 5)) ∧
  Swap.table (Swap.db (Swap.m w')) = ∅ ∧
  Swap.ongoing (Swap.m w') !! 7%N = None ∧
  Swap.ongoing (Swap.m w') ≠ Swap.ongoing (Swap.m w).
Proof.
  vm_compute. repeat split; try reflexivity. intros H. discriminate H.
Qed.

(** C1 as amended, run over the database whose write fails. *)
Lemma CompleteOngoingSwap_clears_then_writes_run :
  let w := Run.one_ongoing true in
  let w' := (Swap.CompleteOngoingSwap 99%Z 1%positive w).1 in
  Swap.mem w !! 1%positive = Some Run.locked ∧
  is_Some (Swap.ongoing (Swap.m w) !! 7%N) ∧
  Swap.ongoing (Swap.m w') !! 7%N = None ∧
  Swap.past (Swap.m w') !! 7%N = Some 1%positive.
Proof.
  assert (H1 : Swap.mem (Run.one_ongoing true) !! 1%positive = Some Run.locked)
    by reflexivity.
  assert (H2 : is_Some (Swap.ongoing (Swap.m (Run.one_ongoing true))
                          !! Swap.OfferID Run.locked))
    by (vm_compute; eauto).
  destruct (CompleteOngoingSwap_clears_then_writes 99%Z 1%positive
              (Run.one_ongoing true) Run.locked H1 H2) as (_ & _ & Ho & Hp).
  split; [exact H1|]. split; [exact H2|]. split; [exact Ho | exact Hp].
Defined.

(** C8, run: the past map holds 3, the database holds the ongoing 7 and the
    aborted 9. *)
Lemma GetPastIDs_union_run :
  ∃ ids, (Swap.GetPastIDs Run.mixed).2 = Swap.Ok ids ∧
    NoDup ids ∧ 3%N ∈ ids ∧ 9%N ∈ ids ∧ 7%N ∉ ids.
Proof.
  assert (Hdb : (Swap.GetAllSwaps (Swap.db (Swap.m Run.mixed))).2
                = inr [Run.finished 9%N; Run.locked])
    by (vm_compute; reflexivity).
  destruct (GetPastIDs_union Run.mixed [Run.finished 9%N; Run.locked] Hdb)
    as (ids & Hr & Hnd & Hin).
  exists ids. split; [exact Hr|]. split; [exact Hnd|]. split; [|split].
  - apply Hin. left. vm_compute. eauto.
  - apply Hin. right. exists (Run.finished 9%N). split; [|split; reflexivity].
    apply elem_of_cons. by left.
  - intros H7. apply Hin in H7 as [[x Hx]|(s & Hs & Hoff & Hid)].
    + vm_compute in Hx. discriminate Hx.
    + apply elem_of_cons in Hs as [->|Hs]; [discriminate Hid|].
      apply elem_of_cons in Hs as [->|Hs]; [discriminate Hoff|].
      by apply elem_of_nil in Hs.
Defined.

(** C9, run: the database holds the ongoing swap 7, the past map is empty;
    the past-swap query returns it and caches it. *)
Lemma GetPastSwap_caches_any_status_run :
  let w' := (Swap.GetPastSwap 7%N Run.only_stored).1 in
  Types.IsOngoing (Swap.Status Run.locked) = true ∧
  ∃ p, (Swap.GetPastSwap 7%N Run.only_stored).2 = Swap.Ok p ∧
    Swap.mem w' !! p = Some Run.locked ∧
    Swap.past (Swap.m w') !! 7%N = Some p.
Proof.
  split; [reflexivity|].
  assert (Hpast : Swap.past (Swap.m Run.only_stored) !! 7%N = None)
    by reflexivity.
  assert (Hdb : (Swap.GetSwap 7%N (Swap.db (Swap.m Run.only_stored))).2
                = inr Run.locked)
    by (vm_compute; reflexivity).
  destruct (GetPastSwap_caches_any_status 7%N Run.only_stored Run.locked
              Hpast Hdb) as (p & Hr & _ & Hm & Hp & _).
  exists p. split; [exact Hr|]. split; [exact Hm | exact Hp].
Defined.

(* ===================================================================== *)
(** ** The external sender: unsupported tokens and the sign timeout *)
(* ===================================================================== *)

Section sender_facts.
Import Types TxSender.
Variable Pack : abi_call → error + list N.

Lemma NewExternalSender_timeout (env : Environment) (a b : Address) (p : pkg) :
  transactionTimeout (NewExternalSender env a b p).1 =
    match env with
    | Mainnet | Stagenet => Hour
    | Development => transactionTimeout p
    end.
Proof. by destruct env. Qed.

(** Senders for the development environment only: still two minutes. *)
Lemma after_senders_development (envs : list Environment) (p : pkg) :
  Forall (λ e, e = Development) envs → after_senders envs p = p.
Proof.
  induction envs as [|e envs IH] using rev_ind; [done|].
  intros Hall. apply Forall_app in Hall as [Hall He].
  inversion He as [|? ? He' _]; subst.
  unfold after_senders in *. rewrite foldl_app, IH by done. reflexivity.
Qed.

(** Once a sender for mainnet or stagenet was constructed: one hour. *)
Lemma after_senders_hour (envs : list Environment) (p : pkg) :
  Exists (λ e, e = Mainnet ∨ e = Stagenet) envs →
  transactionTimeout (after_senders envs p) = Hour.
Proof.
  induction envs as [|e envs IH] using rev_ind.
  - intros H. by apply Exists_nil in H.
  - intros H. unfold after_senders in *. rewrite foldl_app.
    destruct e; try reflexivity.
    apply Exists_app in H as [H|H]; [by apply IH|].
    apply Exists_cons in H as [[H|H]|H]; [discriminate | discriminate |].
    by apply Exists_nil in H.
Qed.

(** A round trip in which no hash is offered before the timer fires ends
    in the timeout error; one in which the hash is offered earlier does
    not. *)
Lemma exchange_timeout (p : pkg) (tx : Transaction) (fe : frontend) :
  takes fe = true →
  (∀ d h, answer fe = Some (d, h) → (transactionTimeout p < d)%Z) →
  exchange p tx fe = ([tx], Returns (inl errTransactionTimeout)).
Proof.
  intros Htakes Hlate. unfold exchange, select_in. rewrite Htakes.
  destruct (answer fe) as [[d h]|]; [|done].
  specialize (Hlate d h eq_refl).
  destruct (Z.ltb_spec d (transactionTimeout p)); [lia|].
  destruct (Z.ltb_spec (transactionTimeout p) d); [done | lia].
Qed.

Lemma exchange_in_time (p : pkg) (tx : Transaction) (fe : frontend) d h :
  takes fe = true →
  answer fe = Some (d, h) →
  (d < transactionTimeout p)%Z →
  exchange p tx fe = ([tx], Returns (receipt fe)).
Proof.
  intros Htakes Hans Hd. unfold exchange, select_in. rewrite Htakes, Hans.
  destruct (Z.ltb_spec d (transactionTimeout p)); [done | lia].
Qed.

(** C10. The timeout is a variable of the package and no field of the
    sender. Constructing a sender for mainnet or stagenet sets it to one
    hour, constructing one for development leaves it as it is, and every
    sender, whichever way it was constructed, waits for the value the
    package holds at the time of the call: after a construction for mainnet
    or stagenet a hash offered before the hour is accepted and one offered
    after the hour is not, by any sender, and a later construction for
    development does not change that. *)
Theorem transactionTimeout_is_shared
  (env : Environment) (a b : Address) (p : pkg) :
  let p' := (NewExternalSender env a b p).1 in
  (env = Mainnet ∨ env = Stagenet → transactionTimeout p' = Hour) ∧
  (env = Development → p' = p) ∧
  (env = Mainnet ∨ env = Stagenet →
   ∀ a' b', (NewExternalSender Development a' b' p').1 = p') ∧
  (∀ (s : ExternalSender) k1 k2 claimer td nonce amount fe input,
     IsToken amount = false →
     Pack (call_new_swap k1 k2 claimer td (TokenAddress amount)
             (BigInt amount) nonce) = inr input →
     takes fe = true →
     let out := (NewSwap Pack s p' k1 k2 claimer td nonce amount fe).2 in
     (∀ d h, answer fe = Some (d, h) → (d < transactionTimeout p')%Z →
        out = Returns (receipt fe)) ∧
     ((∀ d h, answer fe = Some (d, h) → (transactionTimeout p' < d)%Z) →
        out = Returns (inl errTransactionTimeout))).
Proof.
  simpl. split; [|split; [|split]].
  - intros [->| ->]; reflexivity.
  - intros ->. reflexivity.
  - intros _ a' b'. reflexivity.
  - intros s k1 k2 claimer td nonce amount fe input Htok Hpack Htakes.
    unfold NewSwap. rewrite Htok, Hpack. split.
    + intros d h Hans Hd. by erewrite exchange_in_time.
    + intros Hlate. by rewrite exchange_timeout.
Qed.

End sender_facts.

(** C10, run: after a sender for stagenet exists, a sender built with the
    development constructor accepts a hash that comes after three
    minutes. *)
Lemma transactionTimeout_is_shared_run :
  let p' := (TxSender.NewExternalSender Types.Stagenet 1%N 2%N TxSender.pkg_init).1 in
  let s := (TxSender.NewExternalSender Types.Development 3%N 4%N p').2 in
  TxSender.transactionTimeout p' = Types.Hour ∧
  (TxSender.NewSwap TxSender.pack_ok s p' 8%N 9%N 3%N 600%Z 0%Z Run.ether
     (Run.answers_after (3 * Types.Minute)%Z)).2
    = TxSender.Returns (inr 5%N).
Proof.
  destruct (transactionTimeout_is_shared TxSender.pack_ok Types.Stagenet 1%N 2%N
              TxSender.pkg_init) as (Hhour & _ & _ & Hany).
  split; [apply Hhour; by right|].
  destruct (Hany (TxSender.NewExternalSender Types.Development 3%N 4%N
                    (TxSender.NewExternalSender Types.Stagenet 1%N 2%N
                       TxSender.pkg_init).1).2
              8%N 9%N 3%N 600%Z 0%Z Run.ether
              (Run.answers_after (3 * Types.Minute)%Z)
              [8%N; 9%N; 3%N; 0%N] eq_refl eq_refl eq_refl) as [Hin _].
  apply (Hin (3 * Types.Minute)%Z 77%N eq_refl). reflexivity.
Defined.

(* ===================================================================== *)
(** ** The maker: exit, lockFunds, recovery *)
(* ===================================================================== *)

Section maker_facts.
Import Types XMRMaker.
Context {D O B : Type}.
Context `{!Swap.Database D, !OfferManager O, !Backend B, !Externals D}.

Lemma find_claimed_spec (swapID : Hash) (logs : list Log) :
  Forall tagged logs →
  ∃ found, find_claimed swapID logs = inr found ∧
    (found = true ↔ Exists (claimed_for swapID) logs).
Proof.
  induction logs as [|l rest IH]; intros Hall; simpl.
  - exists false. split; [done|]. split; [done|].
    intros Hex. by apply Exists_nil in Hex.
  - apply Forall_cons in Hall as [Hl Hrest].
    destruct (IH Hrest) as (found & Hfound & Hiff).
    unfold tagged in Hl.
    destruct (Topics l) as [|topic0 [|topic1 more]] eqn:Htop;
      simpl in Hl; [lia | lia |].
    assert (Hskip : ¬ claimed_for swapID l →
              (found = true ↔ Exists (claimed_for swapID) (l :: rest))).
    { intros Hno. rewrite Hiff, Exists_cons. tauto. }
    simpl. destruct (decide (topic0 = claimedTopic)) as [->|Hne].
    + destruct (Removed l) eqn:Hrem.
      * exists found. split; [done|]. apply Hskip.
        intros (_ & Hr & _). congruence.
      * unfold CheckSwapID. rewrite Htop. simpl.
        destruct (decide (topic1 = swapID)) as [->|Hid].
        -- exists true. split; [done|]. split; [|done]. intros _.
           apply Exists_cons. left. unfold claimed_for. by rewrite Htop.
        -- exists found. split; [done|]. apply Hskip.
           intros (_ & _ & Hid'). rewrite Htop in Hid'. simpl in Hid'. congruence.
    + exists found. split; [done|]. apply Hskip.
      intros (Ht & _). rewrite Htop in Ht. simpl in Ht. congruence.
Qed.


(** A completion without error leaves at [info] the struct it held, with
    the end time set. *)
Lemma CompleteOngoingSwap_success_mem
  (now : Time) (p : Swap.loc) (w : Swap.world D) (i : Swap.Info) :
  Swap.mem w !! p = Some i →
  (Swap.CompleteOngoingSwap now p w).2 = None →
  Swap.mem (Swap.CompleteOngoingSwap now p w).1 !! p
    = Some (Swap.set_EndTime (Some now) i).
Proof.
  intros Hi. unfold Swap.CompleteOngoingSwap. rewrite Hi.
  destruct (Swap.ongoing (Swap.m w) !! Swap.OfferID i); [|discriminate].
  destruct (Swap.PutSwap _ _) as [db' r]. simpl. intros _.
  apply lookup_insert_eq.
Qed.

Section exit_facts.
Variable handleEventETHRefunded :
  N → swapState → mworld D O B → swapState * mworld D O B * option error.
Variable handleEventContractReady :
  swapState → mworld D O B → swapState * mworld D O B * option error.

(** C3, as amended. When the switch of [exit] has returned, [exit] returns
    and the deferred function treats the offer by the status the swap then
    has, provided the manager completes the swap without error: on
    [CompletedSuccess] it calls [DeleteOffer], and the offer is gone if that
    succeeds; on any other status, [CompletedAbort] included, with an offer
    that is set it calls [AddOffer], and the offer is in the offer manager if
    that succeeds; on any other status with an offer that is not set the
    offer manager is left as it is. When the manager fails to complete the
    swap, the offer manager is left as it is too. *)
Theorem exit_deletes_or_readds_offer
  (now : Time) (next : option Event) (s s1 : swapState) (w w1 : mworld D O B)
  (err : option error) (i : Swap.Info) :
  exit_body handleEventETHRefunded handleEventContractReady next s w
    = Some (s1, w1, err) →
  Swap.mem (sw w1) !! info s1 = Some i →
  ∃ s2 w2,
    exit handleEventETHRefunded handleEventContractReady now next s w
      = (ExitReturns err, s2, w2) ∧
    (is_Some (Swap.CompleteOngoingSwap now (info s1) (sw w1)).2 →
       om w2 = om w1) ∧
    ((Swap.CompleteOngoingSwap now (info s1) (sw w1)).2 = None →
       (Swap.Status i = CompletedSuccess →
          om w2 = (DeleteOffer (ID (offer s1)) (om w1)).1 ∧
          ((DeleteOffer (ID (offer s1)) (om w1)).2 = None →
           GetOffer (ID (offer s1)) (om w2) = None)) ∧
       (Swap.Status i ≠ CompletedSuccess → IsSet (offer s1) = true →
          om w2 = (AddOffer (offer s1) (UseRelayer (offerExtra s1)) (om w1)).1 ∧
          ((AddOffer (offer s1) (UseRelayer (offerExtra s1)) (om w1)).2 = None →
           is_Some (GetOffer (ID (offer s1)) (om w2)))) ∧
       (Swap.Status i ≠ CompletedSuccess → IsSet (offer s1) = false →
          om w2 = om w1)).
Proof.
  intros Hbody Hi. unfold exit. rewrite Hbody.
  unfold exit_deferred. rewrite Hi.
  pose proof (CompleteOngoingSwap_success_mem now (info s1) (sw w1) i Hi)
    as Hmem.
  destruct (Swap.CompleteOngoingSwap now (info s1) (sw w1)) as [sw1 [e|]];
    simpl in *.
  { eexists _, _. split; [reflexivity|]. split; [done | discriminate]. }
  rewrite (Hmem eq_refl). simpl.
  eexists _, _. split; [reflexivity|]. simpl.
  split; [by intros [? [=]]|]. intros _.
  split; [|split].
  - intros Hs. rewrite bool_decide_eq_false_2 by (by intros ?).
    rewrite bool_decide_eq_true_2 by done. simpl. split; [done|].
    destruct (DeleteOffer (ID (offer s1)) (om w1)) as [om' r] eqn:Hdel.
    simpl. intros ->. by eapply DeleteOffer_absent.
  - intros Hs Hset. rewrite bool_decide_eq_true_2 by done. rewrite Hset.
    simpl. split; [done|].
    destruct (AddOffer (offer s1) (UseRelayer (offerExtra s1)) (om w1))
      as [om' r] eqn:Hadd.
    simpl. intros ->. by eapply AddOffer_present.
  - intros Hs Hset. rewrite Hset, andb_false_r.
    by rewrite bool_decide_eq_false_2.
Qed.

End exit_facts.

(** [completeSwap] without error: the swap is marked successful, has its
    end time, has moved from the ongoing map to the past map, and its offer
    is deleted. *)
Lemma completeSwap_success
  (now_status now_end : Time) (p : Swap.loc) (w : mworld D O B) (i : Swap.Info) :
  Swap.mem (sw w) !! p = Some i →
  (completeSwap now_status now_end p w).2 = None →
  let w' := (completeSwap now_status now_end p w).1 in
  Swap.mem (sw w') !! p
    = Some (Swap.set_EndTime (Some now_end)
              (Swap.SetStatus now_status CompletedSuccess i)) ∧
  Swap.ongoing (Swap.m (sw w')) !! Swap.OfferID i = None ∧
  Swap.past (Swap.m (sw w')) !! Swap.OfferID i = Some p ∧
  GetOffer (Swap.OfferID i) (om w') = None.
Proof.
  intros Hi. unfold completeSwap. rewrite Hi.
  unfold Swap.CompleteOngoingSwap, Swap.store. simpl.
  rewrite lookup_insert_eq. simpl.
  destruct (Swap.ongoing (Swap.m (sw w)) !! Swap.OfferID i); [|discriminate].
  destruct (Swap.PutSwap _ _) as [db' [e|]]; [discriminate|]. simpl.
  destruct (DeleteOffer (Swap.OfferID i) (om w)) as [om1 [e|]] eqn:Hdel;
    [discriminate|].
  destruct (DeleteSwap (Swap.OfferID i) (backend w)) as [b1 [e|]];
    [discriminate|].
  simpl. intros _.
  split; [apply lookup_insert_eq|]. split; [apply lookup_delete_eq|].
  split; [apply lookup_insert_eq|]. by eapply DeleteOffer_absent.
Qed.

(** C5. [newSwapStateFromOngoing] first asks [checkIfAlreadyClaimed]. When
    the contract answers and the logs are tagged, the answer is yes exactly
    when the stage is [StageCompleted] and the logs from the persisted start
    block hold a Claimed log that is not removed and carries our swap id.
    On yes the swap is completed by [completeSwap] and an error is returned,
    never a swap state. On no, a status other than [XMRLocked] gives
    [errInvalidStageForRecovery]; a swap state is returned only on no with
    status [XMRLocked], and it is returned then whenever [newSwapState] and
    [setContract] succeed. *)
Theorem newSwapStateFromOngoing_recovery
  (now_status now_end : Time) (offer : Offer) (offerExtra : OfferExtra)
  (ethSwapInfo : EthereumSwapInfo) (info : Swap.loc) (sk : N)
  (w : mworld D O B) :
  let chk := checkIfAlreadyClaimed ethSwapInfo (backend w) in
  let w1 := with_backend chk.1 w in
  let res := newSwapStateFromOngoing now_status now_end offer offerExtra
               ethSwapInfo info sk w in
  (∀ b1 b2 b3 st logs,
     NewSwapCreator (SwapCreatorAddr ethSwapInfo) (backend w) = (b1, None) →
     Swaps (SwapCreatorAddr ethSwapInfo) (SwapID ethSwapInfo) b1 = (b2, inr st) →
     FilterLogs (StartNumber ethSwapInfo) (SwapCreatorAddr ethSwapInfo) b2
       = (b3, inr logs) →
     Forall tagged logs →
     st ≠ StageInvalid → (∀ n, st ≠ StageOther n) →
     ∃ found, chk.2 = inr found ∧
       (found = true ↔
        st = StageCompleted ∧ Exists (claimed_for (SwapID ethSwapInfo)) logs)) ∧
  (chk.2 = inr true →
     res.1 = (completeSwap now_status now_end info w1).1 ∧
     ((completeSwap now_status now_end info w1).2 = None →
      res.2 = inl errAlreadyCompleted ∧
      ∀ i, Swap.mem (sw w) !! info = Some i →
        (∃ j, Swap.mem (sw res.1) !! info = Some j ∧
              Swap.Status j = CompletedSuccess ∧
              Swap.EndTime j = Some now_end) ∧
        Swap.ongoing (Swap.m (sw res.1)) !! Swap.OfferID i = None ∧
        Swap.past (Swap.m (sw res.1)) !! Swap.OfferID i = Some info ∧
        GetOffer (Swap.OfferID i) (om res.1) = None) ∧
     (∀ e, (completeSwap now_status now_end info w1).2 = Some e →
      res.2 = inl (errFailedToCompleteSwap e))) ∧
  (chk.2 = inr false →
     ∀ i, Swap.mem (sw w) !! info = Some i →
       (Swap.Status i ≠ XMRLocked →
        res = (w1, inl errInvalidStageForRecovery)) ∧
       (Swap.Status i = XMRLocked →
        ∀ w2 s0,
          newSwapState offer offerExtra (StartNumber ethSwapInfo)
            (Swap.MoneroStartHeight i) info w1 = (w2, inr s0) →
          (setContract (SwapCreatorAddr ethSwapInfo) s0 (backend w2)).2 = None →
          ∃ s, res.2 = inr s)) ∧
  (∀ s, res.2 = inr s →
     chk.2 = inr false ∧
     ∃ i, Swap.mem (sw w) !! info = Some i ∧
       Swap.Status i = XMRLocked ∧
       XMRMaker.info s = info ∧
       nextExpectedEvent s = nextExpectedEventFromStatus XMRLocked ∧
       contractSwapID s = SwapID ethSwapInfo ∧
       privkeys s = Some sk).
Proof.
  simpl. split; [|split; [|split]].
  - intros b1 b2 b3 st logs Hnew Hst Hlogs Htag Hinv Hother.
    unfold checkIfAlreadyClaimed. rewrite Hnew, Hst.
    destruct st as [| | | |n]; simpl.
    + done.
    + exists false. split; [done|]. split; [done | by intros [? _]].
    + exists false. split; [done|]. split; [done | by intros [? _]].
    + rewrite Hlogs. simpl.
      destruct (find_claimed_spec (SwapID ethSwapInfo) logs Htag)
        as (found & Hfound & Hiff).
      exists found. split; [done|]. rewrite Hiff. tauto.
    + by destruct (Hother n).
  - intros Hchk. unfold newSwapStateFromOngoing.
    destruct (checkIfAlreadyClaimed ethSwapInfo (backend w)) as [b1 rc].
    simpl in Hchk. subst rc. simpl.
    pose proof (completeSwap_success now_status now_end info
                  (with_backend b1 w)) as Hdone.
    destruct (completeSwap now_status now_end info (with_backend b1 w))
      as [w2 [e|]]; simpl in *.
    + split; [done|]. split; [discriminate|]. by intros e' [= <-].
    + split; [done|]. split; [|discriminate]. intros _. split; [done|].
      intros i Hi. destruct (Hdone i Hi eq_refl) as (Hm & Ho & Hp & Hoff).
      split; [|done]. eexists. split; [exact Hm|]. done.
  - intros Hchk i Hi. unfold newSwapStateFromOngoing.
    destruct (checkIfAlreadyClaimed ethSwapInfo (backend w)) as [b1 rc].
    simpl in Hchk. subst rc. simpl. rewrite Hi. split.
    + intros Hne. by destruct (decide (Swap.Status i = XMRLocked)).
    + intros Hst w2 s0 Hnew Hset.
      destruct (decide (Swap.Status i = XMRLocked)); [|done].
      rewrite Hnew.
      destruct (setContract (SwapCreatorAddr ethSwapInfo) s0 (backend w2))
        as [[s1 b3] r]. simpl in Hset. subst r. simpl. eauto.
  - intros s. unfold newSwapStateFromOngoing.
    destruct (checkIfAlreadyClaimed ethSwapInfo (backend w)) as [b1 [e|[|]]];
      simpl.
    + discriminate.
    + destruct (completeSwap _ _ _ _) as [w2 [e|]]; discriminate.
    + destruct (Swap.mem (sw w) !! info) as [i|] eqn:Hi; [|discriminate].
      destruct (decide (Swap.Status i = XMRLocked)) as [Hst|]; [|discriminate].
      destruct (newSwapState _ _ _ _ _ _) as [w2 [e|s0]] eqn:Hnew;
        [discriminate|].
      destruct (setContract _ _ _) as [[s1 b3] [e|]] eqn:Hset; [discriminate|].
      simpl. intros [= <-]. split; [done|]. exists i. split; [done|].
      split; [done|]. simpl.
      unfold setContract in Hset.
      destruct (NewSwapCreator _ _) as [b4 [e|]]; simplify_eq/=.
      unfold newSwapState in Hnew.
      repeat match type of Hnew with
             | context [let '(_, _) := ?x in _] => destruct x as [??]
             | context [match ?x with _ => _ end] => destruct x eqn:?
             end; simplify_eq/=.
      all: rewrite Hst; done.
Qed.

End maker_facts.

(** C3, as stated, fails on abort: the maker exits while it waits for the
    ETH lock, with the taken offer 7 out of the offer table. [exit] returns,
    the swap is aborted and moved out of the ongoing map, and the offer is
    back in the offer manager instead of deleted. The same happens when
    [exit] runs on a swap whose status is already [CompletedAbort] and whose
    next expected event is already cleared. *)
Lemma exit_abort_readds_offer :
  let s := Run.waiting XMRMaker.EventETHLockedType in
  let w := Run.maker_world Run.pending in
  let out := XMRMaker.exit Run.idle_refunded Run.idle_ready 99%Z None s w in
  XMRMaker.GetOffer 7%N (XMRMaker.om w) = None ∧
  out.1.1 = XMRMaker.ExitReturns None ∧
  Swap.Status <$> (Swap.mem (XMRMaker.sw out.2) !! 1%positive)
    = Some Types.CompletedAbort ∧
  Swap.ongoing (Swap.m (XMRMaker.sw out.2)) !! 7%N = None ∧
  XMRMaker.GetOffer 7%N (XMRMaker.om out.2) = Some Run.offer7 ∧
  let s' := Run.waiting XMRMaker.EventNoneType in
  let w' := XMRMaker.mkMWorld
              (Swap.store 1%positive Run.aborted (Run.one_ongoing false))
              (∅ : gmap Types.Hash XMRMaker.Offer) Run.pending [] in
  let out' := XMRMaker.exit Run.idle_refunded Run.idle_ready 99%Z None s' w' in
  out'.1.1 = XMRMaker.ExitReturns None ∧
  XMRMaker.GetOffer 7%N (XMRMaker.om out'.2) = Some Run.offer7.
Proof. vm_compute. repeat split; reflexivity. Qed.

(** C3 as amended, run on the same exit. *)
Lemma exit_deletes_or_readds_offer_run :
  let s := Run.waiting XMRMaker.EventETHLockedType in
  let w := Run.maker_world Run.pending in
  ∃ s2 w2,
    XMRMaker.exit Run.idle_refunded Run.idle_ready 99%Z None s w
      = (XMRMaker.ExitReturns None, s2, w2) ∧
    is_Some (XMRMaker.GetOffer 7%N (XMRMaker.om w2)).
Proof.
  pose (s1 := Run.waiting XMRMaker.EventNoneType).
  pose (w1 := XMRMaker.mkMWorld
                (Swap.store 1%positive Run.aborted (Run.one_ongoing false))
                (∅ : gmap Types.Hash XMRMaker.Offer) Run.pending []).
  assert (Hbody : XMRMaker.exit_body Run.idle_refunded Run.idle_ready None
                    (Run.waiting XMRMaker.EventETHLockedType)
                    (Run.maker_world Run.pending) = Some (s1, w1, None))
    by (vm_compute; reflexivity).
  assert (Hi : Swap.mem (XMRMaker.sw w1) !! XMRMaker.info s1 = Some Run.aborted)
    by (vm_compute; reflexivity).
  assert (Hok : (Swap.CompleteOngoingSwap 99%Z (XMRMaker.info s1)
                   (XMRMaker.sw w1)).2 = None)
    by (vm_compute; reflexivity).
  destruct (exit_deletes_or_readds_offer Run.idle_refunded Run.idle_ready
              99%Z None _ s1 _ w1 None Run.aborted Hbody Hi)
    as (s2 & w2 & Hexit & _ & Hdone).
  destruct (Hdone Hok) as (_ & Hadd & _).
  exists s2, w2. split; [exact Hexit|].
  apply Hadd; [discriminate | reflexivity | reflexivity].
Defined.


(** C5, run: on the chain where the swap is completed and claimed, recovery
    completes the swap and returns the error; on the chain where it is
    pending, recovery of the XMR-locked swap returns a swap state. *)
Lemma newSwapStateFromOngoing_recovery_run :
  (XMRMaker.newSwapStateFromOngoing 50%Z 99%Z Run.offer7
     (XMRMaker.mkOfferExtra false) Run.swap40 1%positive 11%N
     (Run.maker_world Run.claimed)).2 = inl XMRMaker.errAlreadyCompleted ∧
  ∃ s, (XMRMaker.newSwapStateFromOngoing 50%Z 99%Z Run.offer7
          (XMRMaker.mkOfferExtra false) Run.swap40 1%positive 11%N
          (Run.maker_world Run.pending)).2 = inr s ∧
       XMRMaker.contractSwapID s = 40%N.
Proof.
  split.
  - destruct (newSwapStateFromOngoing_recovery 50%Z 99%Z Run.offer7
                (XMRMaker.mkOfferExtra false) Run.swap40 1%positive 11%N
                (Run.maker_world Run.claimed)) as (_ & Hyes & _).
    destruct Hyes as (_ & Hdone & _); [vm_compute; reflexivity|].
    destruct Hdone as [Herr _]; [vm_compute; reflexivity|]. exact Herr.
  - destruct (newSwapStateFromOngoing_recovery 50%Z 99%Z Run.offer7
                (XMRMaker.mkOfferExtra false) Run.swap40 1%positive 11%N
                (Run.maker_world Run.pending)) as (_ & _ & Hno & Honly).
    destruct (Hno eq_refl Run.locked eq_refl) as [_ Hlocked].
    destruct (Hlocked eq_refl _ _ eq_refl eq_refl) as [s Hs].
    exists s. split; [exact Hs|].
    destruct (Honly s Hs) as (_ & i & _ & _ & _ & _ & Hid & _). exact Hid.
Defined.

(* ===================================================================== *)
(** ** The manager: loading, registration, the invariant of the maps *)
(* ===================================================================== *)

Section manager_more.
Import Types Swap.
Context {D : Type} `{!Database D}.

Lemma filed_mem_ext (h h' : heap) (mp : gmap Hash loc) :
  (∀ l, is_Some (h !! l) → h' !! l = h !! l) → filed h mp → filed h' mp.
Proof.
  intros Hext Hf id p Hp. destruct (Hf id p Hp) as (i & Hi & Hid).
  exists i. split; [|done]. rewrite Hext; [done | by eexists].
Qed.

Lemma filed_fresh (h : heap) (mp : gmap Hash loc) (v : Info) :
  filed h mp → filed (<[fresh (dom h) := v]> h) mp.
Proof.
  apply filed_mem_ext. intros l [x Hl]. apply lookup_insert_ne.
  intros <-. apply (is_fresh (dom h)). apply elem_of_dom. by eexists.
Qed.

Lemma filed_insert (h : heap) (mp : gmap Hash loc) (p : loc) (i : Info) :
  h !! p = Some i → filed h mp → filed h (<[OfferID i := p]> mp).
Proof.
  intros Hi Hf id q Hq. destruct (decide (OfferID i = id)) as [<-|Hne].
  - rewrite lookup_insert_eq in Hq. injection Hq as <-. by exists i.
  - rewrite lookup_insert_ne in Hq by done. by apply Hf.
Qed.

Lemma filed_delete (h : heap) (mp : gmap Hash loc) (id : Hash) :
  filed h mp → filed h (delete id mp).
Proof.
  intros Hf id' q Hq. apply lookup_delete_Some in Hq as [_ Hq]. by apply Hf.
Qed.

Lemma filed_restamp (h : heap) (mp : gmap Hash loc) (p : loc) (i i' : Info) :
  h !! p = Some i → OfferID i' = OfferID i →
  filed h mp → filed (<[p := i']> h) mp.
Proof.
  intros Hi Hid Hf id q Hq. destruct (Hf id q Hq) as (j & Hj & Hjid).
  destruct (decide (p = q)) as [<-|Hne].
  - rewrite lookup_insert_eq. exists i'. split; [done|]. congruence.
  - rewrite lookup_insert_ne by done. by exists j.
Qed.

(** X1. The maps of the manager stay consistent: if every pointer in the
    ongoing and the past map designates an allocated struct whose offer id
    is the key it is filed under, the same holds after [AddSwap],
    [WriteSwapToDB], [GetPastIDs], [GetPastSwap], [GetOngoingSwaps] and
    [CompleteOngoingSwap], whatever the database answers. *)
Theorem manager_keeps_consistent (w : world D) :
  consistent w →
  (∀ info, consistent (AddSwap info w).1) ∧
  (∀ info, consistent (WriteSwapToDB info w).1) ∧
  consistent (GetPastIDs w).1 ∧
  (∀ id, consistent (GetPastSwap id w).1) ∧
  consistent (GetOngoingSwaps w).1 ∧
  (∀ now info, consistent (CompleteOngoingSwap now info w).1).
Proof.
  intros [Hon Hpast]. repeat split.
  - unfold AddSwap. destruct (mem w !! info) as [i|] eqn:Hi; [|done].
    destruct (IsOngoing (Status i)); simpl;
      destruct (PutSwap i (db (m w))) as [db' r]; simpl; [|done].
    by apply filed_insert.
  - unfold AddSwap. destruct (mem w !! info) as [i|] eqn:Hi; [|done].
    destruct (IsOngoing (Status i)); simpl;
      destruct (PutSwap i (db (m w))) as [db' r]; simpl; [done|].
    by apply filed_insert.
  - unfold WriteSwapToDB. destruct (mem w !! info) as [i|]; [|done].
    by destruct (PutSwap i (db (m w))) as [db' r].
  - unfold WriteSwapToDB. destruct (mem w !! info) as [i|]; [|done].
    by destruct (PutSwap i (db (m w))) as [db' r].
  - unfold GetPastIDs. by destruct (GetAllSwaps (db (m w))) as [db' [e|stored]].
  - unfold GetPastIDs. by destruct (GetAllSwaps (db (m w))) as [db' [e|stored]].
  - unfold GetPastSwap. destruct (past (m w) !! id); [done|].
    destruct (getSwapFromDB id (db (m w))) as [db' [e|s]]; simpl; [done|].
    by apply filed_fresh.
  - unfold GetPastSwap. destruct (past (m w) !! id); [done|].
    destruct (getSwapFromDB id (db (m w))) as [db' [e|s]]; simpl; [done|].
    apply (filed_insert _ _ _ s); [apply lookup_insert_eq|].
    by apply filed_fresh.
  - unfold GetOngoingSwaps.
    destruct (copy_all_spec (snd <$> map_to_list (ongoing (m w))) (mem w))
      as (h' & ps & Hc & Hold & _).
    { apply Forall_forall. intros s Hs. apply list_elem_of_fmap in Hs
        as ([id s0] & -> & Hin). apply elem_of_map_to_list in Hin.
      destruct (Hon _ _ Hin) as (i & Hi & _). by eexists. }
    rewrite Hc. simpl. by eapply filed_mem_ext.
  - unfold GetOngoingSwaps.
    destruct (copy_all_spec (snd <$> map_to_list (ongoing (m w))) (mem w))
      as (h' & ps & Hc & Hold & _).
    { apply Forall_forall. intros s Hs. apply list_elem_of_fmap in Hs
        as ([id s0] & -> & Hin). apply elem_of_map_to_list in Hin.
      destruct (Hon _ _ Hin) as (i & Hi & _). by eexists. }
    rewrite Hc. simpl. by eapply filed_mem_ext.
  - unfold CompleteOngoingSwap. destruct (mem w !! info) as [i|] eqn:Hi; [|done].
    destruct (ongoing (m w) !! OfferID i); [|done].
    destruct (PutSwap _ _) as [db' r]. simpl.
    apply filed_delete. by apply (filed_restamp _ _ _ i).
  - unfold CompleteOngoingSwap. destruct (mem w !! info) as [i|] eqn:Hi; [|done].
    destruct (ongoing (m w) !! OfferID i); [|done].
    destruct (PutSwap _ _) as [db' r]. simpl.
    apply (filed_insert _ _ _ (set_EndTime (Some now) i));
      [apply lookup_insert_eq|].
    by apply (filed_restamp _ _ _ i).
Qed.

(** What the loading loop of [NewManager] has built after a run over
    [stored]. *)
Lemma load_ongoing_spec (h : heap) (stored : list Info) :
  ∃ h' og hist,
    foldl load_ongoing (h, ∅, []) stored = (h', og, hist) ∧
    (∀ l, is_Some (h !! l) → h' !! l = h !! l) ∧
    (∀ s, s ∈ stored → IsOngoing (Status s) = true → is_Some (og !! OfferID s)) ∧
    (∀ id p, og !! id = Some p →
       h !! p = None ∧
       ∃ i pre post,
         h' !! p = Some i ∧ stored = pre ++ i :: post ∧
         IsOngoing (Status i) = true ∧ OfferID i = id ∧
         ∀ s, s ∈ post → IsOngoing (Status s) = true → OfferID s ≠ id).
Proof.
  induction stored as [|s stored IH] using rev_ind.
  - exists h, ∅, []. split; [done|]. split; [done|]. split.
    + intros s Hs. by apply elem_of_nil in Hs.
    + intros id p Hp. by rewrite lookup_empty in Hp.
  - destruct IH as (h1 & og & hist & Hfold & Hold & Hall & Hog).
    rewrite foldl_app, Hfold. simpl.
    destruct (IsOngoing (Status s)) eqn:Hs.
    + simpl. eexists _, _, _. split; [reflexivity|].
      assert (Hfresh : h1 !! fresh (dom h1) = None)
        by apply not_elem_of_dom, is_fresh.
      assert (Hh1 : ∀ l, is_Some (h1 !! l) →
                <[fresh (dom h1) := s]> h1 !! l = h1 !! l).
      { intros l [x Hl]. apply lookup_insert_ne. intros <-. congruence. }
      split; [|split].
      * intros l Hl. rewrite Hh1; [by apply Hold | by rewrite Hold].
      * intros s' Hin Hs'. apply elem_of_app in Hin as [Hin|Hin].
        -- destruct (decide (OfferID s = OfferID s')) as [Heq|Hne].
           ++ rewrite <- Heq, lookup_insert_eq. by eexists.
           ++ rewrite lookup_insert_ne by done. by apply Hall.
        -- apply list_elem_of_singleton in Hin as ->.
           rewrite lookup_insert_eq. by eexists.
      * intros id p Hp. destruct (decide (OfferID s = id)) as [<-|Hne].
        -- rewrite lookup_insert_eq in Hp. injection Hp as <-. split.
           ++ destruct (h !! fresh (dom h1)) eqn:Hh; [|done].
              rewrite <- Hold in Hh by (by eexists). congruence.
           ++ exists s, stored, []. rewrite lookup_insert_eq.
              split; [done|]. split; [done|]. split; [done|]. split; [done|].
              intros s' Hin. by apply elem_of_nil in Hin.
        -- rewrite lookup_insert_ne in Hp by done.
           destruct (Hog id p Hp) as (Hnew & i & pre & post & Hi & -> & Hon & Hid & Hlast).
           split; [done|]. exists i, pre, (post ++ [s]).
           split; [rewrite Hh1; [done | by eexists]|].
           split; [by rewrite <- app_assoc|]. split; [done|]. split; [done|].
           intros s' Hin Hs'. apply elem_of_app in Hin as [Hin|Hin];
             [by apply Hlast|].
           apply list_elem_of_singleton in Hin as ->. done.
    + exists h1, og, hist. split; [done|]. split; [done|]. split.
      * intros s' Hin Hs'. apply elem_of_app in Hin as [Hin|Hin];
          [by apply Hall|].
        apply list_elem_of_singleton in Hin as ->. congruence.
      * intros id p Hp.
        destruct (Hog id p Hp) as (Hnew & i & pre & post & Hi & -> & Hon & Hid & Hlast).
        split; [done|]. exists i, pre, (post ++ [s]).
        split; [done|]. split; [by rewrite <- app_assoc|].
        split; [done|]. split; [done|].
        intros s' Hin Hs'. apply elem_of_app in Hin as [Hin|Hin];
          [by apply Hlast|].
        apply list_elem_of_singleton in Hin as ->. congruence.
Qed.

(** X2. [NewManager] returns the error of [GetAllSwaps] wrapped, and
    otherwise a manager over the database as [GetAllSwaps] left it, with an
    empty past map and consistent maps, whose ongoing map holds exactly the
    ids of the stored swaps with an ongoing status; for an id stored more
    than once, the last ongoing record in the order of [GetAllSwaps] is the
    one kept. The structs that were in memory before the call are as they
    were. *)
Theorem NewManager_loads_ongoing (d : D) (h : heap) :
  (∀ e, (GetAllSwaps d).2 = inl e →
     NewManager d h = ((GetAllSwaps d).1, Err (errDatabase e))) ∧
  (∀ stored, (GetAllSwaps d).2 = inr stored →
     ∃ w, NewManager d h = ((GetAllSwaps d).1, Ok w) ∧
       db (m w) = (GetAllSwaps d).1 ∧
       past (m w) = ∅ ∧
       consistent w ∧
       (∀ l, is_Some (h !! l) → mem w !! l = h !! l) ∧
       (∀ id, HasOngoingSwap id w = true ↔
          ∃ s, s ∈ stored ∧ IsOngoing (Status s) = true ∧ OfferID s = id) ∧
       (∀ id i, GetOngoingSwap id w = Ok i →
          ∃ pre post,
            stored = pre ++ i :: post ∧
            IsOngoing (Status i) = true ∧ OfferID i = id ∧
            ∀ s, s ∈ post → IsOngoing (Status s) = true → OfferID s ≠ id)).
Proof.
  split.
  - intros e He. unfold NewManager.
    destruct (GetAllSwaps d) as [d' r]. simpl in He. by subst r.
  - intros stored Hst. unfold NewManager.
    destruct (GetAllSwaps d) as [d' r]. simpl in Hst. subst r. simpl.
    destruct (load_ongoing_spec h stored)
      as (h' & og & hist & Hfold & Hold & Hall & Hog).
    rewrite Hfold. eexists. split; [reflexivity|]. simpl.
    split; [done|]. split; [done|]. split; [|split; [done|split]].
    + split; simpl.
      * intros id p Hp. destruct (Hog id p Hp) as (_ & i & _ & _ & Hi & _ & _ & Hid & _).
        by exists i.
      * intros id p Hp. by rewrite lookup_empty in Hp.
    + intros id. unfold HasOngoingSwap. simpl. rewrite bool_decide_eq_true. split.
      * intros [p Hp].
        destruct (Hog id p Hp) as (_ & i & pre & post & _ & -> & Hon & Hid & _).
        exists i. split; [|done]. apply elem_of_app. right. apply elem_of_cons. by left.
      * intros (s & Hin & Hon & <-). by apply Hall.
    + intros id i Hget. unfold GetOngoingSwap in Hget. simpl in Hget.
      destruct (og !! id) as [p|] eqn:Hp; [|discriminate].
      destruct (Hog id p Hp) as (_ & j & pre & post & Hj & -> & Hon & Hid & Hlast).
      rewrite Hj in Hget. injection Hget as <-. by exists pre, post.
Qed.

(** X3. [AddSwap] returns what the database write returned and files the
    pointer whether or not the write worked: a swap with an ongoing status
    is then found by [GetOngoingSwap] and [HasOngoingSwap], any other is
    served by [GetPastSwap] from the past map without a database read; the
    other map and the memory are left as they were. *)
Theorem AddSwap_registers (info : loc) (w : world D) (i : Info) :
  mem w !! info = Some i →
  let w' := (AddSwap info w).1 in
  (AddSwap info w).2 = wrap_db (PutSwap i (db (m w))).2 ∧
  mem w' = mem w ∧
  (IsOngoing (Status i) = true →
     GetOngoingSwap (OfferID i) w' = Ok i ∧
     HasOngoingSwap (OfferID i) w' = true ∧
     ongoing (m w') = <[OfferID i := info]> (ongoing (m w)) ∧
     past (m w') = past (m w)) ∧
  (IsOngoing (Status i) = false →
     GetPastSwap (OfferID i) w' = (w', Ok info) ∧
     past (m w') = <[OfferID i := info]> (past (m w)) ∧
     ongoing (m w') = ongoing (m w)).
Proof.
  intros Hi. unfold AddSwap. rewrite Hi.
  destruct (IsOngoing (Status i)) eqn:Hon; simpl;
    destruct (PutSwap i (db (m w))) as [db' r]; simpl.
  - split; [done|]. split; [done|]. split; [|discriminate]. intros _.
    unfold GetOngoingSwap, HasOngoingSwap. simpl.
    rewrite lookup_insert_eq, Hi. split; [done|]. split; [|done].
    apply bool_decide_eq_true. by eexists.
  - split; [done|]. split; [done|]. split; [discriminate|]. intros _.
    unfold GetPastSwap. simpl. by rewrite lookup_insert_eq.
Qed.

(** X4. A swap is completed once: after a call of [CompleteOngoingSwap]
    that found the swap in the ongoing map, a second call on the same
    pointer returns [errNoSwapWithID] and changes nothing, not even the end
    time. *)
Theorem CompleteOngoingSwap_only_once
  (now now' : Time) (info : loc) (w : world D) (i : Info) :
  mem w !! info = Some i →
  is_Some (ongoing (m w) !! OfferID i) →
  let w1 := (CompleteOngoingSwap now info w).1 in
  CompleteOngoingSwap now' info w1 = (w1, Some errNoSwapWithID).
Proof.
  intros Hi [q Hq]. unfold CompleteOngoingSwap. rewrite Hi, Hq.
  destruct (PutSwap _ _) as [db' r]. simpl.
  by rewrite lookup_insert_eq, lookup_delete_eq.
Qed.

(** X5. [CompleteOngoingSwap] touches one swap: the structs at other
    addresses and the entries of both maps under other offer ids are as
    before, and a pointer that designates nothing leaves the whole world
    unchanged. *)
Theorem CompleteOngoingSwap_touches_one_swap
  (now : Time) (info : loc) (w : world D) :
  let w' := (CompleteOngoingSwap now info w).1 in
  (∀ p, p ≠ info → mem w' !! p = mem w !! p) ∧
  (∀ i id, mem w !! info = Some i → id ≠ OfferID i →
     ongoing (m w') !! id = ongoing (m w) !! id ∧
     past (m w') !! id = past (m w) !! id) ∧
  (mem w !! info = None → w' = w).
Proof.
  unfold CompleteOngoingSwap.
  destruct (mem w !! info) as [i|] eqn:Hi; [|done].
  destruct (ongoing (m w) !! OfferID i) eqn:Hq.
  - destruct (PutSwap _ _) as [db' r]. simpl. split; [|split; [|done]].
    + intros p Hp. by rewrite lookup_insert_ne.
    + intros i' id [= <-] Hid.
      by rewrite lookup_delete_ne, lookup_insert_ne.
  - simpl. split; [done|]. split; [done | discriminate].
Qed.

(** X6. After [CompleteOngoingSwap] found the swap, the queries agree that
    it is past, whether or not the write to the database worked:
    [GetPastSwap] returns the caller's pointer without a database read,
    [GetOngoingSwap] returns [errNoSwapWithID], [HasOngoingSwap] is false,
    and [GetPastIDs] lists the id whenever the database answers. *)
Theorem completed_swap_is_past
  (now : Time) (info : loc) (w : world D) (i : Info) :
  mem w !! info = Some i →
  is_Some (ongoing (m w) !! OfferID i) →
  let w1 := (CompleteOngoingSwap now info w).1 in
  GetPastSwap (OfferID i) w1 = (w1, Ok info) ∧
  GetOngoingSwap (OfferID i) w1 = Err errNoSwapWithID ∧
  HasOngoingSwap (OfferID i) w1 = false ∧
  (∀ stored, (GetAllSwaps (db (m w1))).2 = inr stored →
     ∃ ids, (GetPastIDs w1).2 = Ok ids ∧ OfferID i ∈ ids).
Proof.
  intros Hi [q Hq]. unfold CompleteOngoingSwap. rewrite Hi, Hq.
  destruct (PutSwap _ _) as [db' r]. simpl.
  unfold GetPastSwap, GetOngoingSwap, HasOngoingSwap, GetPastIDs. simpl.
  rewrite lookup_insert_eq, lookup_delete_eq.
  split; [done|]. split; [done|]. split.
  - apply bool_decide_eq_false. by intros [? [=]].
  - intros stored Hst. destruct (GetAllSwaps db') as [db'' rr].
    simpl in Hst. subst rr. simpl. eexists. split; [reflexivity|].
    rewrite elem_of_elements, foldl_add_stored. left.
    apply elem_of_dom. rewrite lookup_insert_eq. by eexists.
Qed.

(** X7. A miss of [GetPastSwap] that the database cannot serve returns
    [errNoSwapWithID] when the key is absent and the database's error
    otherwise, and leaves the memory, both maps and the history as they
    were. *)
Theorem GetPastSwap_miss (id : Hash) (w : world D) (e : dberror) :
  past (m w) !! id = None →
  (GetSwap id (db (m w))).2 = inl e →
  let w' := (GetPastSwap id w).1 in
  (GetPastSwap id w).2
    = Err (match e with
           | ErrKeyNotFound => errNoSwapWithID
           | _ => errDatabase e
           end) ∧
  mem w' = mem w ∧ ongoing (m w') = ongoing (m w) ∧
  past (m w') = past (m w) ∧ history w' = history w ∧
  db (m w') = (GetSwap id (db (m w))).1.
Proof.
  intros Hp He. unfold GetPastSwap, getSwapFromDB. rewrite Hp.
  destruct (GetSwap id (db (m w))) as [db' r]. simpl in He. subst r.
  by destruct e.
Qed.

(** X8. [GetPastSwap] files what it loaded under the offer id of the
    record, not under the id asked for. When the two agree, a second call
    returns the same pointer and changes nothing; when the database answers
    with a record of another id, the id asked for is still not in the past
    map. *)
Theorem GetPastSwap_cached (id : Hash) (w : world D) (s : Info) :
  past (m w) !! id = None →
  (GetSwap id (db (m w))).2 = inr s →
  let w1 := (GetPastSwap id w).1 in
  (OfferID s = id → GetPastSwap id w1 = (w1, (GetPastSwap id w).2)) ∧
  (OfferID s ≠ id → past (m w1) !! id = None).
Proof.
  intros Hp Hs. unfold GetPastSwap, getSwapFromDB. rewrite Hp.
  destruct (GetSwap id (db (m w))) as [db' r]. simpl in Hs. subst r. simpl.
  split.
  - intros <-. by rewrite lookup_insert_eq.
  - intros Hne. by rewrite lookup_insert_ne.
Qed.

(** X9. [HasOngoingSwap] and [GetOngoingSwap] agree: the first is false
    exactly when the second returns [errNoSwapWithID], and in a consistent
    manager the first is true exactly when the second returns a swap, whose
    offer id is the one asked for. *)
Theorem HasOngoingSwap_GetOngoingSwap (id : Hash) (w : world D) :
  (HasOngoingSwap id w = false ↔ GetOngoingSwap id w = Err errNoSwapWithID) ∧
  (consistent w →
   (HasOngoingSwap id w = true ↔
    ∃ i, GetOngoingSwap id w = Ok i ∧ OfferID i = id)).
Proof.
  unfold HasOngoingSwap, GetOngoingSwap. split.
  - rewrite bool_decide_eq_false.
    destruct (ongoing (m w) !! id) as [p|] eqn:Hp.
    + split; [intros Hno; destruct Hno; by eexists|].
      by destruct (mem w !! p).
    + split; [done|]. by intros _ [? [=]].
  - intros [Hon _]. rewrite bool_decide_eq_true.
    destruct (ongoing (m w) !! id) as [p|] eqn:Hp.
    + destruct (Hon id p Hp) as (i & Hi & Hid). rewrite Hi.
      split; [by exists i | by eexists].
    + split; [by intros [? [=]] | by intros (? & [=] & _)].
Qed.

End manager_more.

(** X1, run: the maps are still consistent after the only ongoing swap was
    completed over a database whose write fails. *)
Lemma manager_keeps_consistent_run :
  Swap.consistent (Run.one_ongoing true) ∧
  Swap.consistent (Swap.CompleteOngoingSwap 99%Z 1%positive (Run.one_ongoing true)).1.
Proof.
  assert (Hc : Swap.consistent (Run.one_ongoing true)).
  { split; intros id p Hp; simpl in Hp.
    - apply lookup_singleton_Some in Hp as [<- <-]. by exists Run.locked.
    - by rewrite lookup_empty in Hp. }
  split; [exact Hc|].
  destruct (manager_keeps_consistent (Run.one_ongoing true) Hc)
    as (_ & _ & _ & _ & _ & Hdone).
  exact (Hdone 99%Z 1%positive).
Defined.

(** X2, run: over a database that holds the ongoing swap 7 and the aborted
    swap 9, the new manager has 7 as an ongoing swap and not 9. *)
Lemma NewManager_loads_ongoing_run :
  ∃ w, Swap.NewManager Run.two_stored ∅ = (Run.two_stored, Swap.Ok w) ∧
    Swap.HasOngoingSwap 7%N w = true ∧
    Swap.HasOngoingSwap 9%N w = false.
Proof.
  assert (Hdb : (Swap.GetAllSwaps Run.two_stored).2
                = inr [Run.finished 9%N; Run.locked])
    by (vm_compute; reflexivity).
  destruct (NewManager_loads_ongoing Run.two_stored ∅) as [_ Hload].
  destruct (Hload [Run.finished 9%N; Run.locked] Hdb)
    as (w & Hnew & _ & _ & _ & _ & Hhas & _).
  exists w. split; [exact Hnew|]. split.
  - apply Hhas. exists Run.locked. split; [|split; reflexivity].
    apply elem_of_cons. right. apply elem_of_cons. by left.
  - destruct (Swap.HasOngoingSwap 9%N w) eqn:H9; [|reflexivity].
    apply Hhas in H9 as (s & Hs & Hon & Hid).
    apply elem_of_cons in Hs as [->|Hs]; [discriminate Hon|].
    apply elem_of_cons in Hs as [->|Hs]; [discriminate Hid|].
    by apply elem_of_nil in Hs.
Defined.

(** X3, run: adding the swap held at address 1 again, over a database whose
    write fails, returns the error and the swap is found. *)
Lemma AddSwap_registers_run :
  let w := Run.one_ongoing true in
  let w' := (Swap.AddSwap 1%positive w).1 in
  Swap.mem w !! 1%positive = Some Run.locked ∧
  (Swap.AddSwap 1%positive w).2
    = Some (Swap.errDatabase (Swap.ErrDBOther 5)) ∧
  Swap.GetOngoingSwap 7%N w' = Swap.Ok Run.locked.
Proof.
  assert (H1 : Swap.mem (Run.one_ongoing true) !! 1%positive = Some Run.locked)
    by reflexivity.
  destruct (AddSwap_registers 1%positive (Run.one_ongoing true) Run.locked H1)
    as (Hr & _ & Hon & _).
  split; [exact H1|]. split.
  - etransitivity; [exact Hr | reflexivity].
  - exact (proj1 (Hon eq_refl)).
Defined.

(** X4, run: the only ongoing swap is completed twice. *)
Lemma CompleteOngoingSwap_only_once_run :
  let w := Run.one_ongoing false in
  let w1 := (Swap.CompleteOngoingSwap 99%Z 1%positive w).1 in
  Swap.mem w !! 1%positive = Some Run.locked ∧
  is_Some (Swap.ongoing (Swap.m w) !! 7%N) ∧
  Swap.CompleteOngoingSwap 100%Z 1%positive w1
    = (w1, Some Swap.errNoSwapWithID).
Proof.
  assert (H1 : Swap.mem (Run.one_ongoing false) !! 1%positive = Some Run.locked)
    by reflexivity.
  assert (H2 : is_Some (Swap.ongoing (Swap.m (Run.one_ongoing false))
                          !! Swap.OfferID Run.locked))
    by (vm_compute; eauto).
  split; [exact H1|]. split; [exact H2|].
  exact (CompleteOngoingSwap_only_once 99%Z 100%Z 1%positive
           (Run.one_ongoing false) Run.locked H1 H2).
Defined.

(** X5, run: completing the swap 7 leaves the past entry of the id 8 and
    the address 2 as they were. *)
Lemma CompleteOngoingSwap_touches_one_swap_run :
  let w := Run.one_ongoing false in
  let w' := (Swap.CompleteOngoingSwap 99%Z 1%positive w).1 in
  Swap.mem w' !! 2%positive = Swap.mem w !! 2%positive ∧
  Swap.past (Swap.m w') !! 8%N = Swap.past (Swap.m w) !! 8%N.
Proof.
  destruct (CompleteOngoingSwap_touches_one_swap 99%Z 1%positive
              (Run.one_ongoing false)) as (Hmem & Hmaps & _).
  split.
  - apply Hmem. discriminate.
  - apply (Hmaps Run.locked 8%N); [reflexivity | discriminate].
Defined.

(** X6, run: once completed, the swap 7 is served as a past swap. *)
Lemma completed_swap_is_past_run :
  let w := Run.one_ongoing true in
  let w1 := (Swap.CompleteOngoingSwap 99%Z 1%positive w).1 in
  Swap.mem w !! 1%positive = Some Run.locked ∧
  is_Some (Swap.ongoing (Swap.m w) !! 7%N) ∧
  Swap.GetPastSwap 7%N w1 = (w1, Swap.Ok 1%positive) ∧
  Swap.HasOngoingSwap 7%N w1 = false.
Proof.
  assert (H1 : Swap.mem (Run.one_ongoing true) !! 1%positive = Some Run.locked)
    by reflexivity.
  assert (H2 : is_Some (Swap.ongoing (Swap.m (Run.one_ongoing true))
                          !! Swap.OfferID Run.locked))
    by (vm_compute; eauto).
  destruct (completed_swap_is_past 99%Z 1%positive (Run.one_ongoing true)
              Run.locked H1 H2) as (Hpast & _ & Hhas & _).
  split; [exact H1|]. split; [exact H2|]. split; [exact Hpast | exact Hhas].
Defined.

(** X7, run: the id 3 is neither in the past map nor in the database. *)
Lemma GetPastSwap_miss_run :
  let w := Run.one_ongoing false in
  Swap.past (Swap.m w) !! 3%N = None ∧
  (Swap.GetSwap 3%N (Swap.db (Swap.m w))).2 = inl Swap.ErrKeyNotFound ∧
  (Swap.GetPastSwap 3%N w).2 = Swap.Err Swap.errNoSwapWithID ∧
  Swap.mem (Swap.GetPastSwap 3%N w).1 = Swap.mem w.
Proof.
  assert (H1 : Swap.past (Swap.m (Run.one_ongoing false)) !! 3%N = None)
    by reflexivity.
  assert (H2 : (Swap.GetSwap 3%N (Swap.db (Swap.m (Run.one_ongoing false)))).2
               = inl Swap.ErrKeyNotFound)
    by (vm_compute; reflexivity).
  destruct (GetPastSwap_miss 3%N (Run.one_ongoing false) Swap.ErrKeyNotFound
              H1 H2) as (Hr & Hmem & _).
  split; [exact H1|]. split; [exact H2|]. split; [exact Hr | exact Hmem].
Defined.

(** X8, run: the database answers the key 7 with the record of swap 9; the
    id 7 is not cached by the query. *)
Lemma GetPastSwap_cached_run :
  let w1 := (Swap.GetPastSwap 7%N Run.misfiled).1 in
  Swap.past (Swap.m Run.misfiled) !! 7%N = None ∧
  (Swap.GetSwap 7%N (Swap.db (Swap.m Run.misfiled))).2
    = inr (Run.finished 9%N) ∧
  Swap.past (Swap.m w1) !! 7%N = None.
Proof.
  assert (H1 : Swap.past (Swap.m Run.misfiled) !! 7%N = None) by reflexivity.
  assert (H2 : (Swap.GetSwap 7%N (Swap.db (Swap.m Run.misfiled))).2
               = inr (Run.finished 9%N))
    by (vm_compute; reflexivity).
  destruct (GetPastSwap_cached 7%N Run.misfiled (Run.finished 9%N) H1 H2)
    as (_ & Hne).
  split; [exact H1|]. split; [exact H2|]. apply Hne. discriminate.
Defined.

(** X9, run: the swap 7 is ongoing and is the one returned. *)
Lemma HasOngoingSwap_GetOngoingSwap_run :
  Swap.consistent (Run.one_ongoing false) ∧
  Swap.HasOngoingSwap 7%N (Run.one_ongoing false) = true ∧
  ∃ i, Swap.GetOngoingSwap 7%N (Run.one_ongoing false) = Swap.Ok i ∧
    Swap.OfferID i = 7%N.
Proof.
  assert (Hc : Swap.consistent (Run.one_ongoing false)).
  { split; intros id p Hp; simpl in Hp.
    - apply lookup_singleton_Some in Hp as [<- <-]. by exists Run.locked.
    - by rewrite lookup_empty in Hp. }
  assert (Hhas : Swap.HasOngoingSwap 7%N (Run.one_ongoing false) = true)
    by (vm_compute; reflexivity).
  destruct (HasOngoingSwap_GetOngoingSwap 7%N (Run.one_ongoing false))
    as (_ & Hiff).
  split; [exact Hc|]. split; [exact Hhas|]. exact (proj1 (Hiff Hc) Hhas).
Defined.

(* ===================================================================== *)
(** ** The external sender: where transactions go, when a call ends *)
(* ===================================================================== *)

Section sender_more.
Import Types TxSender.
Variable Pack : abi_call → error + list N.

Lemma exchange_sent (p : pkg) (tx tx' : Transaction) (fe : frontend) :
  tx' ∈ (exchange p tx fe).1 → tx' = tx.
Proof.
  unfold exchange. destruct (takes fe); [|by intros ?%elem_of_nil].
  destruct (select_in p fe); simpl; by intros ?%list_elem_of_singleton.
Qed.

(** X10. Where the transactions go: what [SetReady], [Claim] and [Refund]
    hand to the front-end is addressed to the swap creator contract and
    carries no value, what [approve] hands over is addressed to the token
    contract; [SetSwapCreatorAddr] redirects the first three and leaves
    [approve] as it was. *)
Theorem sender_destinations
  (s : ExternalSender) (p : pkg) (swap : list N) (secret : N)
  (spender : Address) (amount : Z) (fe : frontend) :
  (∀ tx, tx ∈ (SetReady Pack s p swap fe).1 ∨
         tx ∈ (Claim Pack s p swap secret fe).1 ∨
         tx ∈ (Refund Pack s p swap secret fe).1 →
     To tx = contractAddr s ∧ Value tx = None) ∧
  (∀ tx, tx ∈ (approve Pack s p spender amount fe).1 →
     To tx = erc20Addr s ∧ Value tx = None) ∧
  (∀ addr tx,
     tx ∈ (SetReady Pack (SetSwapCreatorAddr addr s) p swap fe).1 ∨
     tx ∈ (Claim Pack (SetSwapCreatorAddr addr s) p swap secret fe).1 ∨
     tx ∈ (Refund Pack (SetSwapCreatorAddr addr s) p swap secret fe).1 →
     To tx = addr) ∧
  (∀ addr,
     approve Pack (SetSwapCreatorAddr addr s) p spender amount fe
       = approve Pack s p spender amount fe).
Proof.
  assert (Hgo : ∀ s' c to tx,
            tx ∈ (match Pack c with
                  | inl e => ([], Returns (inl e))
                  | inr input => sendAndReceive s' p input to fe
                  end).1 → To tx = to ∧ Value tx = None).
  { intros s' c to tx. destruct (Pack c) as [e|input]; simpl.
    - by intros ?%elem_of_nil.
    - unfold sendAndReceive. by intros ->%exchange_sent. }
  split; [|split; [|split]].
  - intros tx [H|[H|H]]; exact (Hgo _ _ _ _ H).
  - intros tx H. exact (Hgo _ _ _ _ H).
  - intros addr tx [H|[H|H]]; exact (proj1 (Hgo _ _ _ _ H)).
  - done.
Qed.


(** The ways a round trip can end. *)
Lemma exchange_cases (p : pkg) (tx : Transaction) (fe : frontend) :
  (takes fe = false ∧ exchange p tx fe = ([], Blocks)) ∨
  (takes fe = true ∧
   ((exchange p tx fe = ([tx], Returns (inl errTransactionTimeout)) ∧
     (answer fe = None ∨
      ∃ d h, answer fe = Some (d, h) ∧ (transactionTimeout p ≤ d)%Z)) ∨
    (exchange p tx fe = ([tx], Returns (receipt fe)) ∧
     ∃ d h, answer fe = Some (d, h) ∧ (d ≤ transactionTimeout p)%Z))).
Proof.
  unfold exchange, select_in. destruct (takes fe); [right | by left].
  split; [done|].
  destruct (answer fe) as [[d h]|]; [|left; split; [done | by left]].
  destruct (Z.ltb_spec d (transactionTimeout p)).
  { right. split; [done|]. exists d, h. split; [done | lia]. }
  destruct (Z.ltb_spec (transactionTimeout p) d).
  { left. split; [done|]. right. exists d, h. split; [done | lia]. }
  destruct (timer_wins_tie fe).
  - left. split; [done|]. right. exists d, h. split; [done | lia].
  - right. split; [done|]. exists d, h. split; [done | lia].
Qed.

(** X12. How [sendAndReceive] ends: it stays blocked exactly when nobody
    takes the transaction, and then nothing was handed over; otherwise
    exactly one transaction without value was handed over, also when the
    call times out; it times out only if no hash came before the deadline,
    and returns a receipt only if a hash came by the deadline. *)
Theorem sendAndReceive_outcomes
  (s : ExternalSender) (p : pkg) (input : list N) (to : Address)
  (fe : frontend) :
  let sent := (sendAndReceive s p input to fe).1 in
  let out := (sendAndReceive s p input to fe).2 in
  (out = Blocks ↔ takes fe = false) ∧
  (out = Blocks → sent = []) ∧
  (out ≠ Blocks → sent = [mkTransaction to input None]) ∧
  (receipt fe ≠ inl errTransactionTimeout →
   out = Returns (inl errTransactionTimeout) →
   answer fe = None ∨
   ∃ d h, answer fe = Some (d, h) ∧ (transactionTimeout p ≤ d)%Z) ∧
  (∀ r, out = Returns (inr r) →
     receipt fe = inr r ∧
     ∃ d h, answer fe = Some (d, h) ∧ (d ≤ transactionTimeout p)%Z).
Proof.
  unfold sendAndReceive. simpl.
  destruct (exchange_cases p (mkTransaction to input None) fe)
    as [[Ht ->]|[Ht [[-> Hlate]|[-> Hin]]]]; simpl.
  - split; [done|]. split; [done|]. split; [done|]. split; [done|].
    intros r [=].
  - split; [split; [discriminate | congruence]|]. split; [discriminate|].
    split; [done|]. split; [done|]. intros r [=].
  - split; [split; [discriminate | congruence]|]. split; [discriminate|].
    split; [done|]. split.
    + intros Hr [= Heq]. congruence.
    + intros r [= Heq]. done.
Qed.

End sender_more.

(** X10, run: the transaction of [Claim] after [SetSwapCreatorAddr] goes to
    the new contract address. *)
Lemma sender_destinations_run :
  let s := TxSender.SetSwapCreatorAddr 6%N (TxSender.mkExternalSender 1%N 2%N) in
  ∃ tx,
    tx ∈ (TxSender.Claim TxSender.pack_ok s TxSender.pkg_init [8%N] 9%N
            (Run.answers_after Types.Minute)).1 ∧
    TxSender.To tx = 6%N.
Proof.
  destruct (sender_destinations TxSender.pack_ok
              (TxSender.mkExternalSender 1%N 2%N) TxSender.pkg_init [8%N] 9%N
              3%N 0%Z (Run.answers_after Types.Minute))
    as (_ & _ & Hto & _).
  assert (Hin : TxSender.mkTransaction 6%N [3%N; 8%N; 9%N] None
                ∈ (TxSender.Claim TxSender.pack_ok
                     (TxSender.SetSwapCreatorAddr 6%N
                        (TxSender.mkExternalSender 1%N 2%N))
                     TxSender.pkg_init [8%N] 9%N
                     (Run.answers_after Types.Minute)).1)
    by (apply elem_of_cons; left; reflexivity).
  exists (TxSender.mkTransaction 6%N [3%N; 8%N; 9%N] None).
  split; [exact Hin|].
  exact (Hto 6%N _ (or_intror (or_introl Hin))).
Defined.


(** X12, run: a front-end that takes the transaction and never answers; the
    call times out with the transaction handed over. *)
Lemma sendAndReceive_outcomes_run :
  let s := TxSender.mkExternalSender 1%N 2%N in
  (TxSender.sendAndReceive s TxSender.pkg_init [4%N] 1%N Run.never_answers).2
    = TxSender.Returns (inl TxSender.errTransactionTimeout) ∧
  (TxSender.sendAndReceive s TxSender.pkg_init [4%N] 1%N Run.never_answers).1
    = [TxSender.mkTransaction 1%N [4%N] None].
Proof.
  destruct (sendAndReceive_outcomes (TxSender.mkExternalSender 1%N 2%N)
              TxSender.pkg_init [4%N] 1%N Run.never_answers)
    as (_ & _ & Hsent & _).
  split; [reflexivity|]. apply Hsent. discriminate.
Defined.

(* ===================================================================== *)
(** ** The maker: what exit, completion, recovery and locking leave behind *)
(* ===================================================================== *)

Section maker_more_facts.
Import Types XMRMaker.
Context {D O B : Type}.
Context `{!Swap.Database D, !OfferManager O, !Backend B, !Externals D}.

(** Whatever a first call of [CompleteOngoingSwap] did, a second call on the
    same pointer finds no ongoing swap and changes nothing. *)
Lemma CompleteOngoingSwap_again
  (now now' : Time) (p : Swap.loc) (w : Swap.world D) (i : Swap.Info) :
  Swap.mem w !! p = Some i →
  let w1 := (Swap.CompleteOngoingSwap now p w).1 in
  (∃ j, Swap.mem w1 !! p = Some j ∧ Swap.OfferID j = Swap.OfferID i ∧
        Swap.Status j = Swap.Status i) ∧
  (is_Some (Swap.ongoing (Swap.m w) !! Swap.OfferID i) ∨
   is_Some (Swap.CompleteOngoingSwap now p w).2 →
   Swap.CompleteOngoingSwap now' p w1 = (w1, Some Swap.errNoSwapWithID)).
Proof.
  intros Hi. unfold Swap.CompleteOngoingSwap. rewrite Hi.
  destruct (Swap.ongoing (Swap.m w) !! Swap.OfferID i) eqn:Hq.
  - destruct (Swap.PutSwap _ _) as [db' r]. simpl.
    rewrite lookup_insert_eq. simpl. rewrite lookup_delete_eq.
    split; [by eexists | done].
  - simpl. rewrite Hi, Hq. split; [by eexists | done].
Qed.

(** X13. The function deferred by [exit] is idempotent on the swap: run
    again on the state and the world it left, it closes the protocol stream
    once more and changes neither the swap state, the manager nor the
    offers. *)
Theorem exit_cleanup_runs_once
  (now now' : Time) (s s1 : swapState) (w w1 : mworld D O B) :
  exit_deferred now s w = Some (s1, w1) →
  ∃ id, exit_deferred now' s1 w1
        = Some (s1, mkMWorld (sw w1) (om w1)
                      (CloseProtocolStream id (backend w1)) (calls w1)).
Proof.
  unfold exit_deferred at 1.
  destruct (Swap.mem (sw w) !! info s) as [i0|] eqn:Hi0; [|discriminate].
  destruct (CompleteOngoingSwap_again now now' (info s) (sw w) i0 Hi0)
    as [(j & Hj & Hid & _) Hagain].
  destruct (Swap.CompleteOngoingSwap now (info s) (sw w)) as [sw1 [e|]] eqn:Hc;
    simpl in *.
  - intros [= <- <-]. exists (Swap.OfferID j).
    unfold exit_deferred. simpl. rewrite Hj.
    rewrite Hagain by (right; by eexists). done.
  - rewrite Hj. intros [= <- <-]. exists (Swap.OfferID j).
    unfold exit_deferred. simpl. rewrite Hj.
    assert (Hwas : is_Some (Swap.ongoing (Swap.m (sw w)) !! Swap.OfferID i0)).
    { unfold Swap.CompleteOngoingSwap in Hc. rewrite Hi0 in Hc.
      destruct (Swap.ongoing (Swap.m (sw w)) !! Swap.OfferID i0);
        [by eexists | discriminate]. }
    rewrite Hagain by (by left). done.
Qed.

Section exit_more.
Variable handleEventETHRefunded :
  N → swapState → mworld D O B → swapState * mworld D O B * option error.
Variable handleEventContractReady :
  swapState → mworld D O B → swapState * mworld D O B * option error.

(** X14. [exit] returns the error of its body, not that of the deferred
    function. When the swap is marked completed, the context is cancelled,
    [done] is closed, the swap is past with end time [now] and the recovery
    record is deleted after the stream was closed; when marking it
    completed fails, the deferred function stops there: the context stays
    live, the offers are untouched and the recovery record is kept. *)
Theorem exit_stops_swap_only_if_completed
  (now : Time) (next : option Event) (s s1 : swapState) (w w1 : mworld D O B)
  (err : option error) (i : Swap.Info) :
  exit_body handleEventETHRefunded handleEventContractReady next s w
    = Some (s1, w1, err) →
  Swap.mem (sw w1) !! info s1 = Some i →
  let out := exit handleEventETHRefunded handleEventContractReady now next s w in
  let s2 := out.1.2 in
  let w2 := out.2 in
  let done_ := Swap.CompleteOngoingSwap now (info s1) (sw w1) in
  out.1.1 = ExitReturns err ∧
  (done_.2 = None →
     cancelled s2 = true ∧ done s2 = true ∧
     nextExpectedEvent s2 = nextExpectedEvent s1 ∧
     Swap.HasOngoingSwap (Swap.OfferID i) (sw w2) = false ∧
     Swap.GetPastSwap (Swap.OfferID i) (sw w2) = (sw w2, Swap.Ok (info s1)) ∧
     Swap.mem (sw w2) !! info s1 = Some (Swap.set_EndTime (Some now) i) ∧
     backend w2 = (DeleteSwap (ID (offer s1))
                     (CloseProtocolStream (Swap.OfferID i) (backend w1))).1) ∧
  (is_Some done_.2 →
     s2 = s1 ∧ sw w2 = done_.1 ∧ om w2 = om w1 ∧
     backend w2 = CloseProtocolStream (Swap.OfferID i) (backend w1)).
Proof.
  intros Hbody Hi. unfold exit. rewrite Hbody.
  unfold exit_deferred. rewrite Hi.
  pose proof (CompleteOngoingSwap_success_mem now (info s1) (sw w1) i Hi)
    as Hmem.
  assert (Hmaps : (Swap.CompleteOngoingSwap now (info s1) (sw w1)).2 = None →
            Swap.ongoing (Swap.m (Swap.CompleteOngoingSwap now (info s1) (sw w1)).1)
              !! Swap.OfferID i = None ∧
            Swap.past (Swap.m (Swap.CompleteOngoingSwap now (info s1) (sw w1)).1)
              !! Swap.OfferID i = Some (info s1)).
  { unfold Swap.CompleteOngoingSwap. rewrite Hi.
    destruct (Swap.ongoing (Swap.m (sw w1)) !! Swap.OfferID i); [|discriminate].
    destruct (Swap.PutSwap _ _) as [db' r]. simpl. intros _.
    split; [apply lookup_delete_eq | apply lookup_insert_eq]. }
  destruct (Swap.CompleteOngoingSwap now (info s1) (sw w1)) as [sw1 [e|]];
    simpl in *.
  { split; [done|]. split; [discriminate|]. done. }
  rewrite (Hmem eq_refl). simpl. destruct (Hmaps eq_refl) as [Ho Hp].
  split; [done|]. split; [|by intros [? [=]]]. intros _.
  split; [done|]. split; [done|]. split; [done|]. split.
  { unfold Swap.HasOngoingSwap. apply bool_decide_eq_false. rewrite Ho.
    by intros [? [=]]. }
  split; [|by split; [apply Hmem|]].
  unfold Swap.GetPastSwap. by rewrite Hp.
Qed.

(** X15. [exit] can wait for ever only in one place: when the swap expects
    [EventContractReady] and no event comes. A swap expecting
    [EventETHRefunded] or [EventExit] gets [errUnexpectedMessageType], one
    expecting [EventETHLocked] or nothing returns nil, unless the deferred
    function panics; an [EventETHLocked] or [EventExit] met while waiting
    for the contract to be ready is dropped without error. *)
Theorem exit_blocks_only_waiting
  (now : Time) (next : option Event) (s : swapState) (w : mworld D O B) :
  let out := (exit handleEventETHRefunded handleEventContractReady now next s w).1.1 in
  (out = ExitBlocks ↔
   nextExpectedEvent s = EventContractReadyType ∧ next = None) ∧
  (nextExpectedEvent s = EventETHRefundedType ∨
   nextExpectedEvent s = EventExitType →
   out = ExitReturns (Some errUnexpectedMessageType) ∨ out = ExitPanics) ∧
  (nextExpectedEvent s = EventETHLockedType ∨
   nextExpectedEvent s = EventNoneType →
   out = ExitReturns None ∨ out = ExitPanics) ∧
  (nextExpectedEvent s = EventContractReadyType →
   next = Some EventETHLocked ∨ next = Some EventExit →
   exit_body handleEventETHRefunded handleEventContractReady next s w
     = Some (s, w, None)).
Proof.
  unfold exit, exit_body. simpl.
  destruct (nextExpectedEvent s) eqn:Hnext.
  - destruct (clearNextExpectedEvent CompletedAbort s (sw w)) as [s1 sw1].
    destruct (exit_deferred _ _ _) as [[s2 w2]|]; simpl;
      (split; [split; [discriminate | by intros [[=] _]]|]);
      (split; [by intros [[=]|[=]]|]); (split; [|by intros [=]]); eauto.
  - destruct next as [[| |secret|]|]; simpl.
    + destruct (exit_deferred _ _ _) as [[s2 w2]|]; simpl;
        (split; [split; [discriminate | by intros [_ [=]]]|]);
        (split; [by intros [[=]|[=]]|]); (split; [by intros [[=]|[=]]|]); done.
    + destruct (handleEventContractReady s w) as [[s1 w1] e1].
      destruct (exit_deferred _ _ _) as [[s2 w2]|]; simpl;
        (split; [split; [discriminate | by intros [_ [=]]]|]);
        (split; [by intros [[=]|[=]]|]); (split; [by intros [[=]|[=]]|]);
        by intros _ [[=]|[=]].
    + destruct (handleEventETHRefunded secret s w) as [[s1 w1] e1].
      destruct (exit_deferred _ _ _) as [[s2 w2]|]; simpl;
        (split; [split; [discriminate | by intros [_ [=]]]|]);
        (split; [by intros [[=]|[=]]|]); (split; [by intros [[=]|[=]]|]);
        by intros _ [[=]|[=]].
    + destruct (exit_deferred _ _ _) as [[s2 w2]|]; simpl;
        (split; [split; [discriminate | by intros [_ [=]]]|]);
        (split; [by intros [[=]|[=]]|]); (split; [by intros [[=]|[=]]|]); done.
    + split; [done|]. split; [by intros [[=]|[=]]|].
      split; [by intros [[=]|[=]]|]. by intros _ [[=]|[=]].
  - destruct (clearNextExpectedEvent CompletedAbort s (sw w)) as [s1 sw1].
    destruct (exit_deferred _ _ _) as [[s2 w2]|]; simpl;
      (split; [split; [discriminate | by intros [[=] _]]|]);
      (split; [|split; [by intros [[=]|[=]] | by intros [=]]]); eauto.
  - destruct (clearNextExpectedEvent CompletedAbort s (sw w)) as [s1 sw1].
    destruct (exit_deferred _ _ _) as [[s2 w2]|]; simpl;
      (split; [split; [discriminate | by intros [[=] _]]|]);
      (split; [|split; [by intros [[=]|[=]] | by intros [=]]]); eauto.
  - destruct (exit_deferred _ _ _) as [[s2 w2]|]; simpl;
      (split; [split; [discriminate | by intros [[=] _]]|]);
      (split; [by intros [[=]|[=]]|]); (split; [|by intros [=]]); eauto.
Qed.

End exit_more.

(** X16. [completeSwap] stores the status [CompletedSuccess] before
    anything can fail and undoes nothing: a failure to mark the swap
    completed leaves offers and recovery database alone; a failed
    [DeleteOffer] comes after the swap moved to the past map; a failed
    [DeleteSwap] comes after the offer was deleted. A swap that is not
    ongoing gives [errNoSwapWithID]. *)
Theorem completeSwap_failure_order
  (now_status now_end : Time) (p : Swap.loc) (w : mworld D O B) (i : Swap.Info) :
  Swap.mem (sw w) !! p = Some i →
  let w' := (completeSwap now_status now_end p w).1 in
  let r := (completeSwap now_status now_end p w).2 in
  (∃ j, Swap.mem (sw w') !! p = Some j ∧ Swap.Status j = CompletedSuccess) ∧
  (Swap.ongoing (Swap.m (sw w)) !! Swap.OfferID i = None →
     r = Some (errMarkCompleted Swap.errNoSwapWithID)) ∧
  (∀ e, r = Some (errMarkCompleted e) →
     om w' = om w ∧ backend w' = backend w) ∧
  (∀ e, r = Some (errDeleteOffer e) →
     backend w' = backend w ∧
     Swap.ongoing (Swap.m (sw w')) !! Swap.OfferID i = None ∧
     Swap.past (Swap.m (sw w')) !! Swap.OfferID i = Some p) ∧
  (∀ e, r = Some (errDeleteSwapInfo e) →
     (DeleteOffer (Swap.OfferID i) (om w)).2 = None ∧
     GetOffer (Swap.OfferID i) (om w') = None ∧
     Swap.past (Swap.m (sw w')) !! Swap.OfferID i = Some p).
Proof.
  intros Hi. unfold completeSwap. rewrite Hi.
  unfold Swap.CompleteOngoingSwap, Swap.store. simpl.
  rewrite lookup_insert_eq. simpl.
  destruct (Swap.ongoing (Swap.m (sw w)) !! Swap.OfferID i) eqn:Hq; simpl.
  2:{ rewrite lookup_insert_eq.
      split; [by eexists|]. split; [done|]. split; [done|].
      split; by intros e [=]. }
  destruct (Swap.PutSwap _ _) as [db' [e|]]; simpl.
  { rewrite lookup_insert_eq. split; [by eexists|]. split; [done|].
    split; [done|]. split; by intros e' [=]. }
  destruct (DeleteOffer (Swap.OfferID i) (om w)) as [om1 [e|]] eqn:Hdel; simpl.
  { rewrite lookup_insert_eq. split; [by eexists|]. split; [done|].
    split; [by intros e' [=]|]. split; [|by intros e' [=]].
    intros e' _. split; [done|].
    split; [apply lookup_delete_eq | apply lookup_insert_eq]. }
  destruct (DeleteSwap (Swap.OfferID i) (backend w)) as [b1 [e|]]; simpl.
  - rewrite lookup_insert_eq. split; [by eexists|]. split; [done|].
    split; [by intros e' [=]|]. split; [by intros e' [=]|].
    intros e' _. split; [done|].
    split; [by eapply DeleteOffer_absent | apply lookup_insert_eq].
  - rewrite lookup_insert_eq. split; [by eexists|]. split; [done|].
    split; [by intros e' [=]|]. split; by intros e' [=].
Qed.

(** X17. [lockFunds] reads the balance but does not use it: whatever the
    wallet reports, the calls are [GetBalance], [setNextExpectedEvent],
    [Transfer] of the full amount to the swap address, and the result is
    that of [Transfer]. A failed transfer leaves the next expected event as
    [setNextExpectedEvent] stored it. *)
Theorem lockFunds_transfers_whatever_balance
  (amount : Z) (s : swapState) (w : mworld D O B)
  (spend view ours : N) (b1 : B) (balance : Z) :
  xmrtakerPublicSpendKey s = Some spend →
  xmrtakerPrivateViewKey s = Some view →
  pubkeys s = Some ours →
  GetBalance 0 (backend w) = (b1, inr balance) →
  (setNextExpectedEvent EventContractReadyType s (sw w)).2 = None →
  let out := lockFunds amount s w in
  let sent := Transfer (swapAddress spend view ours) 0 amount
                MinSpendConfirmations b1 in
  calls out.1.2 =
    calls w ++ [CallGetBalance;
                CallSetNextExpectedEvent EventContractReadyType false;
                CallTransfer (swapAddress spend view ours) amount
                  (match sent.2 with inl _ => true | inr _ => false end)] ∧
  (out.2 = None ↔ ∃ tx, sent.2 = inr tx) ∧
  backend out.1.2 = sent.1 ∧
  om out.1.2 = om w ∧
  (out.1.1, sw out.1.2)
    = (setNextExpectedEvent EventContractReadyType s (sw w)).1.
Proof.
  intros Hspend Hview Hours Hbal Hset. unfold lockFunds.
  rewrite Hspend, Hview, Hours, Hbal. simpl.
  destruct (setNextExpectedEvent EventContractReadyType s (sw w))
    as [[s2 sw2] r]. simpl in Hset. subst r. simpl.
  destruct (Transfer _ _ _ _ _) as [b3 [e|tx]]; simpl.
  - split; [by rewrite <- !app_assoc|]. split; [|done].
    split; [discriminate | by intros [? [=]]].
  - split; [by rewrite <- !app_assoc|]. split; [|done].
    split; [by eexists | done].
Qed.

(** X18. [newSwapStateFromOngoing] changes the swap manager and the offers
    only when the ETH was already claimed: on every other path, failing or
    not, manager, memory, offers and call log are as before. *)
Theorem recovery_leaves_manager_unless_claimed
  (now_status now_end : Time) (offer : Offer) (offerExtra : OfferExtra)
  (ethSwapInfo : EthereumSwapInfo) (info : Swap.loc) (sk : N)
  (w : mworld D O B) :
  (checkIfAlreadyClaimed ethSwapInfo (backend w)).2 ≠ inr true →
  let res := newSwapStateFromOngoing now_status now_end offer offerExtra
               ethSwapInfo info sk w in
  sw res.1 = sw w ∧ om res.1 = om w ∧ calls res.1 = calls w.
Proof.
  intros Hno. unfold newSwapStateFromOngoing.
  destruct (checkIfAlreadyClaimed ethSwapInfo (backend w)) as [b1 [e|[|]]];
    simpl in *; [done | done |].
  destruct (Swap.mem (sw w) !! info) as [i|]; [|done].
  destruct (decide (Swap.Status i = XMRLocked)); [|done].
  unfold newSwapState, setContract.
  repeat case_match; simplify_eq/=; done.
Qed.

End maker_more_facts.

(** X13, run: the deferred function of [exit] run twice on the aborted
    swap. *)
Lemma exit_cleanup_runs_once_run :
  let s := Run.waiting XMRMaker.EventNoneType in
  let w := XMRMaker.mkMWorld
             (Swap.store 1%positive Run.aborted (Run.one_ongoing false))
             (∅ : gmap Types.Hash XMRMaker.Offer) Run.pending [] in
  ∃ s1 w1,
    XMRMaker.exit_deferred 99%Z s w = Some (s1, w1) ∧
    ∃ id, XMRMaker.exit_deferred 100%Z s1 w1
          = Some (s1, XMRMaker.mkMWorld (XMRMaker.sw w1) (XMRMaker.om w1)
                        (XMRMaker.CloseProtocolStream id (XMRMaker.backend w1))
                        (XMRMaker.calls w1)).
Proof.
  simpl.
  destruct (XMRMaker.exit_deferred 99%Z (Run.waiting XMRMaker.EventNoneType)
              (XMRMaker.mkMWorld
                 (Swap.store 1%positive Run.aborted (Run.one_ongoing false))
                 (∅ : gmap Types.Hash XMRMaker.Offer) Run.pending []))
    as [[s1 w1]|] eqn:Hd; [|vm_compute in Hd; discriminate Hd].
  exists s1, w1. split; [reflexivity|].
  exact (exit_cleanup_runs_once 99%Z 100%Z _ s1 _ w1 Hd).
Defined.

(** X14, run: an exit before the ETH was locked cancels the context and
    leaves the swap 7 as a past swap. *)
Lemma exit_stops_swap_only_if_completed_run :
  let s := Run.waiting XMRMaker.EventETHLockedType in
  let w := Run.maker_world Run.pending in
  let out := XMRMaker.exit Run.idle_refunded Run.idle_ready 99%Z None s w in
  out.1.1 = XMRMaker.ExitReturns None ∧
  XMRMaker.cancelled out.1.2 = true ∧
  Swap.HasOngoingSwap 7%N (XMRMaker.sw out.2) = false.
Proof.
  pose (s1 := Run.waiting XMRMaker.EventNoneType).
  pose (w1 := XMRMaker.mkMWorld
                (Swap.store 1%positive Run.aborted (Run.one_ongoing false))
                (∅ : gmap Types.Hash XMRMaker.Offer) Run.pending []).
  assert (Hbody : XMRMaker.exit_body Run.idle_refunded Run.idle_ready None
                    (Run.waiting XMRMaker.EventETHLockedType)
                    (Run.maker_world Run.pending) = Some (s1, w1, None))
    by (vm_compute; reflexivity).
  assert (Hi : Swap.mem (XMRMaker.sw w1) !! XMRMaker.info s1 = Some Run.aborted)
    by (vm_compute; reflexivity).
  assert (Hok : (Swap.CompleteOngoingSwap 99%Z (XMRMaker.info s1)
                   (XMRMaker.sw w1)).2 = None)
    by (vm_compute; reflexivity).
  destruct (exit_stops_swap_only_if_completed Run.idle_refunded Run.idle_ready
              99%Z None _ s1 _ w1 None Run.aborted Hbody Hi)
    as (Hret & Hdone & _).
  destruct (Hdone Hok) as (Hc & _ & _ & Hhas & _).
  split; [exact Hret|]. split; [exact Hc | exact Hhas].
Defined.

(** X15, run: a swap that waits for the contract to be ready, and no
    event. *)
Lemma exit_blocks_only_waiting_run :
  (XMRMaker.exit Run.idle_refunded Run.idle_ready 99%Z None
     (Run.waiting XMRMaker.EventContractReadyType)
     (Run.maker_world Run.pending)).1.1 = XMRMaker.ExitBlocks.
Proof.
  destruct (exit_blocks_only_waiting Run.idle_refunded Run.idle_ready 99%Z None
              (Run.waiting XMRMaker.EventContractReadyType)
              (Run.maker_world Run.pending)) as (Hblocks & _).
  apply Hblocks. split; reflexivity.
Defined.

(** X16, run: the swap held at address 1 is completed with success. *)
Lemma completeSwap_failure_order_run :
  let w := Run.maker_world Run.pending in
  Swap.mem (XMRMaker.sw w) !! 1%positive = Some Run.locked ∧
  ∃ j, Swap.mem (XMRMaker.sw (XMRMaker.completeSwap 50%Z 99%Z 1%positive w).1)
         !! 1%positive = Some j ∧
       Swap.Status j = Types.CompletedSuccess.
Proof.
  assert (H1 : Swap.mem (XMRMaker.sw (Run.maker_world Run.pending))
                 !! 1%positive = Some Run.locked) by reflexivity.
  split; [exact H1|].
  exact (proj1 (completeSwap_failure_order 50%Z 99%Z 1%positive
                  (Run.maker_world Run.pending) Run.locked H1)).
Defined.

(** X17, run: the wallet refuses the transfer; the state and the manager
    are those [setNextExpectedEvent] left. *)
Lemma lockFunds_transfers_whatever_balance_run :
  let s := Run.waiting XMRMaker.EventETHLockedType in
  let w := Run.maker_world (XMRMaker.mkFixed XMRMaker.StagePending [] true) in
  let out := XMRMaker.lockFunds 1000%Z s w in
  out.2 = Some (XMRMaker.errExternal (XMRMaker.ExtErr 1)) ∧
  (out.1.1, XMRMaker.sw out.1.2)
    = (XMRMaker.setNextExpectedEvent XMRMaker.EventContractReadyType s
         (XMRMaker.sw w)).1 ∧
  XMRMaker.nextExpectedEvent out.1.1 = XMRMaker.EventContractReadyType.
Proof.
  pose (chain := XMRMaker.mkFixed XMRMaker.StagePending [] true).
  assert (Hbal : XMRMaker.GetBalance 0 (XMRMaker.backend (Run.maker_world chain))
                 = (chain, inr 0%Z)) by reflexivity.
  assert (Hset : (XMRMaker.setNextExpectedEvent XMRMaker.EventContractReadyType
                    (Run.waiting XMRMaker.EventETHLockedType)
                    (XMRMaker.sw (Run.maker_world chain))).2 = None)
    by (vm_compute; reflexivity).
  destruct (lockFunds_transfers_whatever_balance 1000%Z
              (Run.waiting XMRMaker.EventETHLockedType) (Run.maker_world chain)
              13%N 14%N 12%N chain 0%Z eq_refl eq_refl eq_refl Hbal Hset)
    as (_ & _ & _ & _ & Hstate).
  split; [vm_compute; reflexivity|]. split; [exact Hstate|].
  vm_compute. reflexivity.
Defined.

(** X18, run: recovery on the chain where the swap is pending leaves the
    manager as it was. *)
Lemma recovery_leaves_manager_unless_claimed_run :
  let w := Run.maker_world Run.pending in
  XMRMaker.sw (XMRMaker.newSwapStateFromOngoing 50%Z 99%Z Run.offer7
                 (XMRMaker.mkOfferExtra false) Run.swap40 1%positive 11%N w).1
  = XMRMaker.sw w.
Proof.
  assert (Hno : (XMRMaker.checkIfAlreadyClaimed Run.swap40
                   (XMRMaker.backend (Run.maker_world Run.pending))).2
                ≠ inr true)
    by (vm_compute; discriminate).
  exact (proj1 (recovery_leaves_manager_unless_claimed 50%Z 99%Z Run.offer7
                  (XMRMaker.mkOfferExtra false) Run.swap40 1%positive 11%N
                  (Run.maker_world Run.pending) Hno)).
Defined.

(* ===================================================================== *)
(** ** The maker: starting a swap, reclaiming the Monero *)
(* ===================================================================== *)

Section maker_start_facts.
Import Types XMRMaker.
Context {D O B : Type}.
Context `{!Swap.Database D, !OfferManager O, !Backend B, !Externals D}.
Context `{!BackendMore B, !ExternalsMore D B}.

Lemma scanStart_bounds (height : N) :
  (scanStart height ≤ height)%N ∧
  (height ≤ scanStart height + MinSpendConfirmations)%N ∧
  (MinSpendConfirmations ≤ height →
   scanStart height + MinSpendConfirmations = height)%N.
Proof.
  unfold scanStart. destruct (N.leb_spec MinSpendConfirmations height); lia.
Qed.

(** [newSwapState] and [generateAndSetKeys] leave the manager, the memory
    and the offers alone. *)
Lemma newSwapState_frame (offer : Offer) (offerExtra : OfferExtra)
  (n : Z) (hgt : N) (p : Swap.loc) (w : mworld D O B) :
  let out := newSwapState offer offerExtra n hgt p w in
  sw out.1 = sw w ∧ om out.1 = om w ∧ calls out.1 = calls w ∧
  ∀ s, out.2 = inr s →
    ∃ i, Swap.mem (sw w) !! p = Some i ∧
      info s = p ∧ moneroStartHeight s = hgt ∧ privkeys s = None ∧
      XMRMaker.offer s = offer ∧
      nextExpectedEvent s = nextExpectedEventFromStatus (Swap.Status i) ∧
      cancelled s = false ∧ done s = false.
Proof.
  unfold newSwapState. repeat case_match; simplify_eq/=;
    (split; [done|]); (split; [done|]); (split; [done|]);
    intros s' [=]; subst; eauto 10.
Qed.

(** X19. When [newSwapStateFromStart] returns a swap state, the swap is
    ongoing in the manager at a new address, as the record [NewInfo] built
    with status [KeysExchanged]; the scan starts at most
    [MinSpendConfirmations] below the wallet's height and never above it;
    the state expects the event of that status and holds generated keys;
    [KeysExchanged] was appended to the status channel; the offers are
    untouched. *)
Theorem newSwapStateFromStart_success
  (now : Time) (takerPeerID : N) (offer : Offer) (offerExtra : OfferExtra)
  (statusCh : option statusChan) (providesAmount desiredAmount : Z)
  (w w' : mworld D O B) (ch' : statusChan) (s : swapState) (k : sessionKeys) :
  newSwapStateFromStart now takerPeerID offer offerExtra statusCh
    providesAmount desiredAmount w = (w', ch', StartReturns (inr (s, k))) →
  let b0 := if UseRelayer offerExtra
            then (PutSwapRelayerInfo (ID offer) offerExtra (backend w)).1
            else backend w in
  ∃ height,
    (GetHeight b0).2 = inr height ∧
    (moneroStartHeight s ≤ height)%N ∧
    (height ≤ moneroStartHeight s + MinSpendConfirmations)%N ∧
    Swap.mem (sw w) !! info s = None ∧
    Swap.GetOngoingSwap (ID offer) (sw w')
      = Swap.Ok (Swap.NewInfo now takerPeerID (ID offer) providesAmount
                   desiredAmount KeysExchanged (moneroStartHeight s)) ∧
    Swap.ongoing (Swap.m (sw w')) !! ID offer = Some (info s) ∧
    nextExpectedEvent s = nextExpectedEventFromStatus KeysExchanged ∧
    is_Some (privkeys s) ∧ is_Some (pubkeys s) ∧
    is_Some (dleqProof k) ∧ is_Some (secp256k1Pub k) ∧
    held ch' = held (default (mkStatusChan 7 []) statusCh) ++ [KeysExchanged] ∧
    om w' = om w.
Proof.
  unfold newSwapStateFromStart.
  set (ch := match statusCh with None => mkStatusChan 7 [] | Some c => c end).
  destruct (if UseRelayer offerExtra
            then PutSwapRelayerInfo (ID offer) offerExtra (backend w)
            else (backend w, None)) as [b0 [e|]] eqn:Hrel; [discriminate|].
  assert (Hb0 : (if UseRelayer offerExtra
                 then (PutSwapRelayerInfo (ID offer) offerExtra (backend w)).1
                 else backend w) = b0).
  { destruct (UseRelayer offerExtra); [by rewrite Hrel | by injection Hrel]. }
  simpl. rewrite Hb0.
  destruct (GetHeight b0) as [b1 [e|height]]; [discriminate|].
  destruct (HeaderByNumber b1) as [b2 [e|n]]; [discriminate|].
  unfold Swap.alloc, Swap.AddSwap. simpl. rewrite lookup_insert_eq. simpl.
  destruct (Swap.PutSwap _ _) as [db' [e|]]; [discriminate|]. simpl.
  match goal with
  | |- context [newSwapState ?a ?b ?c ?d ?e ?f] =>
      pose proof (newSwapState_frame a b c d e f) as Hframe;
      destruct (newSwapState a b c d e f) as [w2 [e'|s0]]
  end; [discriminate|].
  simpl in Hframe. destruct Hframe as (Hsw & Hom & _ & Hs0).
  destruct (Hs0 s0 eq_refl) as (i & Hi & Hinfo & Hh & Hpriv & _ & Hnext & _).
  rewrite lookup_insert_eq in Hi. injection Hi as <-. simpl in Hnext.
  unfold generateAndSetKeys. rewrite Hpriv.
  destruct (GenerateKeysAndProof (backend w2)) as [b3 [e|kp]]; [discriminate|].
  rewrite Hsw. simpl. rewrite Hinfo, lookup_insert_eq.
  destruct (PutSwapPrivateKey _ _ _) as [b4 [e|]]; [discriminate|]. simpl.
  unfold send. destruct (length (held ch) <? capacity ch)%nat; [|discriminate].
  intros [= <- <- <- <-]. exists height. simpl.
  destruct (scanStart_bounds height) as (Hle & Hge & _).
  rewrite Hinfo, Hh, Hsw, Hom.
  split; [done|]. split; [done|]. split; [done|].
  split; [apply not_elem_of_dom, is_fresh|].
  unfold Swap.GetOngoingSwap. simpl. rewrite !lookup_insert_eq.
  split; [done|]. split; [done|]. split; [done|].
  split; [by eexists|]. split; [by eexists|].
  split; [by eexists|]. split; [by eexists|].
  split; [|done]. by destruct statusCh.
Qed.

(** X20. [newSwapStateFromStart] registers the swap before the steps that
    can still fail: if the relayer record, the wallet height or the header
    cannot be had, the manager is untouched; once they are, the swap is
    ongoing in the manager however the call ends (failed database write,
    failed [newSwapState], failed key generation, full status channel).
    The offers are never touched. *)
Theorem newSwapStateFromStart_registers_first
  (now : Time) (takerPeerID : N) (offer : Offer) (offerExtra : OfferExtra)
  (statusCh : option statusChan) (providesAmount desiredAmount : Z)
  (w : mworld D O B) :
  let out := newSwapStateFromStart now takerPeerID offer offerExtra statusCh
               providesAmount desiredAmount w in
  let rel := if UseRelayer offerExtra
             then PutSwapRelayerInfo (ID offer) offerExtra (backend w)
             else (backend w, None) in
  let hgt := GetHeight rel.1 in
  let hdr := HeaderByNumber hgt.1 in
  (is_Some rel.2 ∨ (∃ e, hgt.2 = inl e) ∨ (∃ e, hdr.2 = inl e) →
     sw out.1.1 = sw w ∧ om out.1.1 = om w ∧
     ∃ e, out.2 = StartReturns (inl (errMaker (errExternal e)))) ∧
  (rel.2 = None → (∃ h, hgt.2 = inr h) → (∃ n, hdr.2 = inr n) →
     Swap.HasOngoingSwap (ID offer) (sw out.1.1) = true ∧
     om out.1.1 = om w).
Proof.
  unfold newSwapStateFromStart. simpl.
  destruct (if UseRelayer offerExtra
            then PutSwapRelayerInfo (ID offer) offerExtra (backend w)
            else (backend w, None)) as [b0 [e|]]; simpl.
  { split; [eauto | by intros [=]]. }
  destruct (GetHeight b0) as [b1 [e|height]]; simpl.
  { split; [eauto | by intros _ [? [=]]]. }
  destruct (HeaderByNumber b1) as [b2 [e|n]]; simpl.
  { split; [eauto | by intros _ _ [? [=]]]. }
  split; [by intros [[? [=]]|[[? [=]]|[? [=]]]]|]. intros _ _ _.
  unfold Swap.alloc, Swap.AddSwap. simpl. rewrite lookup_insert_eq. simpl.
  destruct (Swap.PutSwap _ _) as [db' [e|]]; simpl.
  { split; [|done]. unfold Swap.HasOngoingSwap. simpl.
    apply bool_decide_eq_true. rewrite lookup_insert_eq. by eexists. }
  match goal with
  | |- context [newSwapState ?a ?b ?c ?d ?e ?f] =>
      pose proof (newSwapState_frame a b c d e f) as Hframe;
      destruct (newSwapState a b c d e f) as [w2 [e'|s0]]
  end; simpl in Hframe; destruct Hframe as (Hsw & Hom & _ & _); simpl.
  { rewrite Hsw, Hom. split; [|done]. unfold Swap.HasOngoingSwap. simpl.
    apply bool_decide_eq_true. rewrite lookup_insert_eq. by eexists. }
  destruct (generateAndSetKeys _ _ _ _) as [[[s1 k1] b5] r5].
  assert (Hhas : Swap.HasOngoingSwap (ID offer) (sw w2) = true).
  { rewrite Hsw. unfold Swap.HasOngoingSwap. simpl.
    apply bool_decide_eq_true. rewrite lookup_insert_eq. by eexists. }
  destruct r5 as [e|]; simpl; [by rewrite Hom|].
  destruct (send _ _); simpl; by rewrite Hom.
Qed.

(** X21. [reclaimMonero] persists the counterparty's private key first:
    [ClaimMonero] is called only after that write succeeded; if the write
    fails nothing else is called and nothing changes. The recovery database
    is read for the taker's keys only when the state lacks one of them, and
    the claim uses the key pair built from the secret, our keys and the
    taker's view key. *)
Theorem reclaimMonero_persists_key_first
  (skA : N) (s : swapState) (w : Swap.world D) (b : B) :
  let out := reclaimMonero skA s w b in
  let log := out.1.2 in
  (∀ pre kp dest failed post,
     log = pre ++ RClaimMonero kp dest failed :: post →
     ∃ id, RPutCounterpartySwapPrivateKey id skA false ∈ pre) ∧
  (∀ id failed, RGetCounterpartySwapKeys id failed ∈ log →
     xmrtakerPublicSpendKey s = None ∨ xmrtakerPrivateViewKey s = None) ∧
  (∀ i e, Swap.mem w !! info s = Some i →
     (PutCounterpartySwapPrivateKey (Swap.OfferID i) skA b).2 = Some e →
     out.2 = Some (errMaker (errExternal e)) ∧
     log = [RPutCounterpartySwapPrivateKey (Swap.OfferID i) skA true] ∧
     out.1.1.1.1 = s ∧ out.1.1.1.2 = w) ∧
  (∀ kp dest failed, RClaimMonero kp dest failed ∈ log →
     ∃ priv view,
       privkeys s = Some priv ∧
       xmrtakerPrivateViewKey out.1.1.1.1 = Some view ∧
       kp = GetClaimKeypair skA (SpendKey priv) view (ViewKey priv)).
Proof.
  unfold reclaimMonero.
  destruct (Swap.mem w !! info s) as [i|] eqn:Hi; simpl.
  2:{ split; [by intros [|??] ?????|]. split; [by intros ?? ?%elem_of_nil|].
      split; [by intros ?? [=]|]. by intros ??? ?%elem_of_nil. }
  destruct (PutCounterpartySwapPrivateKey (Swap.OfferID i) skA b)
    as [b1 [e|]] eqn:Hput; simpl.
  { split; [by intros [|? [|??]] ?????|].
    split; [by intros ?? [=]%list_elem_of_singleton|].
    split; [intros i' e' [= <-]; rewrite Hput; by intros [= <-]|].
    by intros ??? [=]%list_elem_of_singleton. }
  destruct (xmrtakerPublicSpendKey s) as [spend|] eqn:Hspend;
    [destruct (xmrtakerPrivateViewKey s) as [view|] eqn:Hview|].
  - (* both keys known: the recovery database is not read *)
    simpl. rewrite Hview.
    destruct (privkeys s) as [priv|] eqn:Hpriv; simpl.
    + destruct (ClaimMonero _ _ _ _ _) as [[w3 b3] r3]. simpl.
      split.
      { intros pre kp dest failed post Heq. exists (Swap.OfferID i).
        destruct pre as [|? [|? [|??]]]; simplify_eq/=.
        apply elem_of_cons. by left. }
      split.
      { intros id failed Hin. apply elem_of_cons in Hin as [[=]|Hin].
        by apply list_elem_of_singleton in Hin. }
      split; [intros i' e' [= <-]; by rewrite Hput|].
      intros kp dest failed Hin. apply elem_of_cons in Hin as [[=]|Hin].
      apply list_elem_of_singleton in Hin. injection Hin as -> _ _.
      by exists priv, view.
    + split; [by intros [|? [|??]] ?????|].
      split; [by intros ?? [=]%list_elem_of_singleton|].
      split; [intros i' e' [= <-]; by rewrite Hput|].
      by intros ??? [=]%list_elem_of_singleton.
  - destruct (GetCounterpartySwapKeys (Swap.OfferID i) b1)
      as [b' [e|[spend' view']]]; simpl.
    + split; [by intros [|? [|? [|??]]] ?????|].
      split; [intros; by right|].
      split; [intros i' e' [= <-]; by rewrite Hput|].
      intros kp dest failed Hin. apply elem_of_cons in Hin as [[=]|Hin].
      by apply list_elem_of_singleton in Hin.
    + destruct (privkeys s) as [priv|] eqn:Hpriv; simpl.
      * destruct (ClaimMonero _ _ _ _ _) as [[w3 b3] r3]. simpl.
        split.
        { intros pre kp dest failed post Heq. exists (Swap.OfferID i).
          destruct pre as [|? [|? [|? [|??]]]]; simplify_eq/=.
          apply elem_of_cons. by left. }
        split; [intros; by right|].
        split; [intros i' e' [= <-]; by rewrite Hput|].
        intros kp dest failed Hin. apply elem_of_cons in Hin as [[=]|Hin].
        apply elem_of_cons in Hin as [[=]|Hin].
        apply list_elem_of_singleton in Hin. injection Hin as -> _ _.
        by exists priv, view'.
      * split; [by intros [|? [|? [|??]]] ?????|].
        split; [intros; by right|].
        split; [intros i' e' [= <-]; by rewrite Hput|].
        intros kp dest failed Hin. apply elem_of_cons in Hin as [[=]|Hin].
        by apply list_elem_of_singleton in Hin.
  - destruct (GetCounterpartySwapKeys (Swap.OfferID i) b1)
      as [b' [e|[spend' view']]]; simpl.
    + split; [by intros [|? [|? [|??]]] ?????|].
      split; [intros; by left|].
      split; [intros i' e' [= <-]; by rewrite Hput|].
      intros kp dest failed Hin. apply elem_of_cons in Hin as [[=]|Hin].
      by apply list_elem_of_singleton in Hin.
    + destruct (privkeys s) as [priv|] eqn:Hpriv; simpl.
      * destruct (ClaimMonero _ _ _ _ _) as [[w3 b3] r3]. simpl.
        split.
        { intros pre kp dest failed post Heq. exists (Swap.OfferID i).
          destruct pre as [|? [|? [|? [|??]]]]; simplify_eq/=.
          apply elem_of_cons. by left. }
        split; [intros; by left|].
        split; [intros i' e' [= <-]; by rewrite Hput|].
        intros kp dest failed Hin. apply elem_of_cons in Hin as [[=]|Hin].
        apply elem_of_cons in Hin as [[=]|Hin].
        apply list_elem_of_singleton in Hin. injection Hin as -> _ _.
        by exists priv, view'.
      * split; [by intros [|? [|? [|??]]] ?????|].
        split; [intros; by left|].
        split; [intros i' e' [= <-]; by rewrite Hput|].
        intros kp dest failed Hin. apply elem_of_cons in Hin as [[=]|Hin].
        by apply list_elem_of_singleton in Hin.
Qed.

End maker_start_facts.

(** X19, run: a swap started on the offer 7 in an empty world, with the
    wallet at height 25: the scan starts at 15 and the status channel holds
    [KeysExchanged]. *)
Lemma newSwapStateFromStart_success_run :
  ∃ w' ch' s k,
    XMRMaker.newSwapStateFromStart 50%Z 1%N Run.offer7
      (XMRMaker.mkOfferExtra false) None 10%Z 20%Z (Run.empty_world Run.pending)
    = (w', ch', XMRMaker.StartReturns (inr (s, k))) ∧
    XMRMaker.moneroStartHeight s = 15%N ∧
    Swap.GetOngoingSwap 7%N (XMRMaker.sw w')
      = Swap.Ok (Swap.NewInfo 50%Z 1%N 7%N 10%Z 20%Z Types.KeysExchanged 15%N) ∧
    XMRMaker.held ch' = [Types.KeysExchanged].
Proof.
  destruct (XMRMaker.newSwapStateFromStart 50%Z 1%N Run.offer7
              (XMRMaker.mkOfferExtra false) None 10%Z 20%Z
              (Run.empty_world Run.pending))
    as [[w' ch'] [[e|[s k]]|]] eqn:Hstart;
    [vm_compute in Hstart; discriminate Hstart | |
     vm_compute in Hstart; discriminate Hstart].
  assert (Hh : XMRMaker.moneroStartHeight s = 15%N).
  { vm_compute in Hstart. injection Hstart as _ _ <- _. reflexivity. }
  destruct (newSwapStateFromStart_success 50%Z 1%N Run.offer7
              (XMRMaker.mkOfferExtra false) None 10%Z 20%Z
              (Run.empty_world Run.pending) w' ch' s k Hstart)
    as (height & _ & _ & _ & _ & Hget & _ & _ & _ & _ & _ & _ & Hheld & _).
  exists w', ch', s, k. split; [reflexivity|]. split; [exact Hh|].
  split; [|exact Hheld]. rewrite <- Hh. exact Hget.
Defined.

(** X20, run: the status channel is full, the call waits on it, and the swap
    is already ongoing in the manager. *)
Lemma newSwapStateFromStart_registers_first_run :
  let out := XMRMaker.newSwapStateFromStart 50%Z 1%N Run.offer7
               (XMRMaker.mkOfferExtra false)
               (Some (XMRMaker.mkStatusChan 0 [])) 10%Z 20%Z
               (Run.empty_world Run.pending) in
  out.2 = XMRMaker.StartBlocks ∧
  Swap.HasOngoingSwap 7%N (XMRMaker.sw out.1.1) = true.
Proof.
  destruct (newSwapStateFromStart_registers_first 50%Z 1%N Run.offer7
              (XMRMaker.mkOfferExtra false)
              (Some (XMRMaker.mkStatusChan 0 [])) 10%Z 20%Z
              (Run.empty_world Run.pending)) as (_ & Hreg).
  split; [vm_compute; reflexivity|].
  apply Hreg; [reflexivity | by exists 25%N | by exists 100%Z].
Defined.

(** X21, run: the Monero of the swap 7 is reclaimed with the secret 5; the
    key is persisted, then the claim is made. *)
Lemma reclaimMonero_persists_key_first_run :
  let out := XMRMaker.reclaimMonero 5%N
               (Run.waiting XMRMaker.EventContractReadyType)
               (Run.one_ongoing false) Run.pending in
  out.2 = None ∧
  ∃ pre kp dest post,
    out.1.2 = pre ++ XMRMaker.RClaimMonero kp dest false :: post ∧
    ∃ id, XMRMaker.RPutCounterpartySwapPrivateKey id 5%N false ∈ pre.
Proof.
  destruct (reclaimMonero_persists_key_first 5%N
              (Run.waiting XMRMaker.EventContractReadyType)
              (Run.one_ongoing false) Run.pending) as (Hfirst & _).
  split; [vm_compute; reflexivity|].
  exists [XMRMaker.RPutCounterpartySwapPrivateKey 7%N 5%N false],
    (5 + 2 * 11 + 14 + (2 * 11 + 1))%N, 99%N, [].
  assert (Hlog : (XMRMaker.reclaimMonero 5%N
                    (Run.waiting XMRMaker.EventContractReadyType)
                    (Run.one_ongoing false) Run.pending).1.2
                 = [XMRMaker.RPutCounterpartySwapPrivateKey 7%N 5%N false]
                   ++ XMRMaker.RClaimMonero (5 + 2 * 11 + 14 + (2 * 11 + 1))%N
                        99%N false :: [])
    by (vm_compute; reflexivity).
  split; [exact Hlog|]. exact (Hfirst _ _ _ _ _ Hlog).
Defined.

(* ===================================================================== *)
(** ** The RPC server: which namespace decides the result *)
(* ===================================================================== *)

Section rpc_facts.
Import RPC.
Context {R : Type} `{!RPCServer R}.

Lemma register_namespace_daemon (acc : R * bool * option error) :
  register_namespace acc DaemonNamespace = acc.
Proof. by destruct acc as [[??]?]. Qed.

Lemma register_namespace_unknown (r : R) (net : bool) (err : option error)
  (ns : string) :
  ns ∉ AllNamespaces →
  register_namespace (r, net, err) ns = (r, net, Some (errUnknownNamespace ns)).
Proof.
  unfold AllNamespaces. rewrite !elem_of_union, !elem_of_singleton.
  intros Hns. unfold register_namespace.
  repeat case_decide; try done; exfalso; apply Hns; auto 10.
Qed.

Lemma register_namespace_known (r : R) (net : bool) (err : option error)
  (ns : string) :
  ns ∈ AllNamespaces → ns ≠ DaemonNamespace →
  register_namespace (r, net, err) ns
  = ((RegisterService ns r).1,
     net || bool_decide (ns = NetNamespace),
     errRegister ns <$> (RegisterService ns r).2).
Proof.
  unfold AllNamespaces. rewrite !elem_of_union, !elem_of_singleton.
  intros Hns Hd. unfold register_namespace.
  repeat case_decide; subst; try done;
    try (destruct (RegisterService _ r); simpl;
         by rewrite ?orb_true_r, ?orb_false_r).
  by destruct Hns as [[[[?|?]|?]|?]|?].
Qed.

Lemma foldl_register_daemons (post : list string)
  (acc : R * bool * option error) :
  Forall (λ ns, ns = DaemonNamespace) post →
  foldl register_namespace acc post = acc.
Proof.
  intros Hpost. revert acc. induction Hpost as [|ns post -> _ IH]; intros acc.
  - done.
  - simpl. by rewrite register_namespace_daemon.
Qed.

(** X22. The loop of [NewServer] keeps only the error of the last
    namespace it visits that is not the daemon's. If that one is unknown,
    [NewServer] cancels the context and returns the unknown-namespace
    error; if it is known, the result is that of its registration and of
    [Listen], whatever the namespaces visited before it did, unknown ones
    included. *)
Theorem NewServer_last_namespace_decides
  (pre post : list string) (ns : string) (listen : N + N) (r : R) :
  (RegisterService DaemonNamespace r).2 = None →
  ns ≠ DaemonNamespace →
  Forall (λ n, n = DaemonNamespace) post →
  let r0 := (RegisterService DaemonNamespace r).1 in
  let before := foldl register_namespace (r0, false, None) pre in
  let out := NewServer (pre ++ ns :: post) listen r in
  (ns ∉ AllNamespaces →
     out = (before.1.1, true, inl (errUnknownNamespace ns))) ∧
  (ns ∈ AllNamespaces →
     let reg := RegisterService ns before.1.1 in
     match reg.2, listen with
     | Some e, _ => out = (reg.1, true, inl (errRegister ns e))
     | None, inl e => out = (reg.1, true, inl (errListen e))
     | None, inr ln =>
         out = (reg.1, false,
                inr (mkServer ln (before.1.2 || bool_decide (ns = NetNamespace))))
     end).
Proof.
  intros Hd Hns Hpost. simpl. unfold NewServer.
  destruct (RegisterService DaemonNamespace r) as [r0 e0]. simpl in *. subst e0.
  rewrite foldl_app. cbn [foldl].
  rewrite (foldl_register_daemons post) by done.
  destruct (foldl register_namespace (r0, false, None) pre) as [[r1 net] err].
  cbn [fst snd]. split; intros Hin.
  - by rewrite register_namespace_unknown.
  - rewrite register_namespace_known by done.
    destruct (RegisterService ns r1) as [r' [e|]]; simpl; [done|].
    by destruct listen.
Qed.

End rpc_facts.

(** X22, run: the namespaces are visited in the order bogus, swap; the
    server is built, with the daemon's and the swap service registered and
    no error for the unknown namespace. *)
Lemma NewServer_last_namespace_decides_run :
  RPC.NewServer ["bogus"; RPC.SwapNamespace] (inr 8%N) Run.blank
  = (RPC.mkRecording [RPC.DaemonNamespace; RPC.SwapNamespace] [], false,
     inr (RPC.mkServer 8%N false)).
Proof.
  assert (Hd : (RPC.RegisterService RPC.DaemonNamespace Run.blank).2 = None)
    by (vm_compute; reflexivity).
  assert (Hns : RPC.SwapNamespace ≠ RPC.DaemonNamespace) by discriminate.
  assert (Hin : RPC.SwapNamespace ∈ RPC.AllNamespaces).
  { unfold RPC.AllNamespaces. rewrite !elem_of_union, !elem_of_singleton.
    by right. }
  assert (Hpost : Forall (λ n : string, n = RPC.DaemonNamespace) [])
    by constructor.
  destruct (NewServer_last_namespace_decides ["bogus"] [] RPC.SwapNamespace
              (inr 8%N) Run.blank Hd Hns Hpost) as (_ & Hknown).
  exact (Hknown Hin).
Defined.

(* ===================================================================== *)
(** ** The manager: what a returned copy shares with the stored record *)
(* ===================================================================== *)

Section pointer_facts.
Import Types SwapPtr.

(** On sources that are all allocated, [copy_all] succeeds, leaves the
    structs it found in place, and pairs each source with a new address that
    holds the same struct, pointer fields included. *)
Lemma copy_all_shallow (ss : list Swap.loc) :
  ∀ (h : heap),
    Forall (λ s, is_Some (h !! s)) ss →
    ∃ h' ps,
      copy_all ss h = (h', Swap.Ok ps) ∧
      (∀ l, is_Some (h !! l) → h' !! l = h !! l) ∧
      Forall2 (λ p s, h !! p = None ∧ h' !! p = h !! s) ps ss.
Proof.
  induction ss as [|s rest IH]; intros h Hall; simpl.
  - exists h, []. split; [done|]. split; [done | constructor].
  - apply Forall_cons in Hall as [[i Hs] Hrest]. rewrite Hs.
    set (sCopy := fresh (dom h)). set (h1 := <[sCopy := i]> h).
    assert (HsCopy : h !! sCopy = None) by apply not_elem_of_dom, is_fresh.
    assert (Hh1 : ∀ l, is_Some (h !! l) → h1 !! l = h !! l).
    { intros l [x Hl]. apply lookup_insert_ne. intros <-. congruence. }
    assert (Hnew : h1 !! sCopy = Some i) by apply lookup_insert_eq.
    destruct (IH h1) as (h2 & swaps & Hc & Hold & Hpairs).
    { eapply Forall_impl; [exact Hrest|]. simpl. intros l Hl. by rewrite Hh1. }
    rewrite Hc. exists h2, (sCopy :: swaps). split; [done|]. split.
    + intros l Hl. rewrite Hold; [by apply Hh1 |]. by rewrite Hh1.
    + constructor.
      * split; [done|]. rewrite Hold; [by rewrite Hnew, Hs | by eexists].
      * apply Forall2_same_length_lookup.
        destruct (proj1 (Forall2_same_length_lookup _ _ _) Hpairs) as [Hlen Hlk].
        split; [done|]. intros k p s' Hp Hs'.
        destruct (Hlk k p s' Hp Hs') as [Hnone Heq].
        assert (Hs'' : is_Some (h !! s')).
        { eapply (proj1 (Forall_lookup _ _) Hrest); exact Hs'. }
        split.
        -- destruct (h !! p) eqn:Hhp; [|done].
           rewrite Hh1 in Hnone; [congruence | by eexists].
        -- rewrite Heq. by apply Hh1.
Qed.

(** A write to a cell leaves the structs and the map alone; the manager's
    record then reads the new content in every field that designates the
    cell. *)
Lemma reads_write (id : Hash) (f : field) (r : ref) (v : Z) (w : world)
  (i : Info) :
  stored id w = Some i → ptr f i = Some r →
  stored id (write r v w) = Some i ∧ reads id f (write r v w) = Some v.
Proof.
  intros Hst Hp. unfold reads, stored in *. simpl. rewrite Hst. simpl.
  rewrite Hp. simpl. by rewrite lookup_insert_eq.
Qed.

(** C7, as amended. The copies are shallow. For every swap in the ongoing
    map, [GetOngoingSwap] returns the stored struct by value and
    [GetOngoingSwaps] returns one new address per swap that holds a copy of
    the stored struct. An assignment to the returned struct (to the variable
    that received it, or through a returned pointer) leaves the manager's
    record and every cell as they were. The pointer fields of the copy are
    those of the stored struct: a write through one of them is read back
    from the manager's record. *)
Theorem GetOngoing_returns_shallow_copies (w : world) :
  ongoing_allocated w →
  (∀ id s i, ongoing w !! id = Some s → mem w !! s = Some i →
     GetOngoingSwap id w = Swap.Ok i ∧
     (∀ v id',
        let x := fst (alloc i (mem w)) in
        let w1 := mkWorld (snd (alloc i (mem w))) (cells w) (ongoing w) in
        stored id' (store x v w1) = stored id' w ∧
        cells (store x v w1) = cells w) ∧
     (∀ f r v, ptr f i = Some r →
        stored id (write r v w) = Some i ∧
        reads id f (write r v w) = Some v)) ∧
  (∃ w' ps, GetOngoingSwaps w = (w', Swap.Ok ps) ∧
     cells w' = cells w ∧ ongoing w' = ongoing w ∧
     length ps = size (ongoing w) ∧
     (∀ id, stored id w' = stored id w) ∧
     (∀ id s, ongoing w !! id = Some s →
        (s ∉ ps) ∧ ∃ p, p ∈ ps ∧ mem w' !! p = mem w !! s) ∧
     (∀ p, p ∈ ps →
        mem w !! p = None ∧
        ∃ id s, ongoing w !! id = Some s ∧ mem w' !! p = mem w !! s) ∧
     (∀ p v id, p ∈ ps →
        stored id (store p v w') = stored id w ∧
        cells (store p v w') = cells w) ∧
     (∀ p j f r v, p ∈ ps → mem w' !! p = Some j → ptr f j = Some r →
        ∃ id, stored id w = Some j ∧
          stored id (write r v w') = Some j ∧
          reads id f (write r v w') = Some v)).
Proof.
  intros Hwf. split.
  - intros id s i Hs Hi. split; [|split].
    + unfold GetOngoingSwap. by rewrite Hs, Hi.
    + intros v id'. simpl. split; [|done]. unfold stored. simpl.
      destruct (ongoing w !! id') as [s'|] eqn:Hs'; [|done]. simpl.
      destruct (Hwf _ _ Hs') as [j Hj].
      assert (Hne : fresh (dom (mem w)) ≠ s').
      { intros <-. apply (is_fresh (dom (mem w))). apply elem_of_dom. by eexists. }
      by rewrite !lookup_insert_ne.
    + intros f r v Hp. apply reads_write; [|done].
      unfold stored. rewrite Hs. simpl. done.
  - set (ss := (snd <$> map_to_list (ongoing w))).
    assert (Hss : ∀ s, s ∈ ss ↔ ∃ id, ongoing w !! id = Some s).
    { intros s. unfold ss. rewrite list_elem_of_fmap. split.
      - intros ([id s0] & -> & Hin). exists id. by apply elem_of_map_to_list.
      - intros [id Hid]. exists (id, s). split; [done|].
        by apply elem_of_map_to_list. }
    destruct (copy_all_shallow ss (mem w)) as (h' & ps & Hc & Hold & Hpairs).
    { apply Forall_forall. intros s Hs. apply Hss in Hs as [id Hid]. eauto. }
    destruct (proj1 (Forall2_same_length_lookup _ _ _) Hpairs) as [Hlen Hlk].
    assert (Hps : ∀ p, p ∈ ps →
              mem w !! p = None ∧ ∃ s, s ∈ ss ∧ h' !! p = mem w !! s).
    { intros p Hp. apply list_elem_of_lookup in Hp as [k Hk].
      destruct (lookup_lt_is_Some_2 ss k) as [s Hs].
      { rewrite <- Hlen. eapply lookup_lt_Some, Hk. }
      destruct (Hlk k p s Hk Hs) as [Hnone Heq].
      split; [done|]. exists s. split; [|done].
      eapply list_elem_of_lookup_2, Hs. }
    assert (Hst : ∀ id, (ongoing w !! id ≫= λ s, h' !! s) = stored id w).
    { intros id. unfold stored.
      destruct (ongoing w !! id) as [s|] eqn:Hs; [|done]. simpl.
      apply Hold. eauto. }
    exists (mkWorld h' (cells w) (ongoing w)), ps.
    unfold GetOngoingSwaps. fold ss. rewrite Hc. simpl.
    split; [done|]. split; [done|]. split; [done|]. split.
    { rewrite Hlen. unfold ss. rewrite length_fmap. apply length_map_to_list. }
    split; [exact Hst|]. split; [|split; [|split]].
    + intros id s Hs. split.
      * intros Hin. apply Hps in Hin as [Hnone _].
        destruct (Hwf _ _ Hs) as [j Hj]. congruence.
      * assert (Hin : s ∈ ss) by (apply Hss; eauto).
        apply list_elem_of_lookup in Hin as [k Hk].
        destruct (lookup_lt_is_Some_2 ps k) as [p Hp].
        { rewrite Hlen. eapply lookup_lt_Some, Hk. }
        exists p. split; [eapply list_elem_of_lookup_2, Hp|].
        by destruct (Hlk k p s Hp Hk).
    + intros p Hp. destruct (Hps p Hp) as (Hnone & s & Hs & Heq).
      split; [done|]. apply Hss in Hs as [id Hid]. by exists id, s.
    + intros p v id Hp. split; [|done]. rewrite <- Hst. unfold stored. simpl.
      destruct (ongoing w !! id) as [s|] eqn:Hs; [|done]. simpl.
      apply lookup_insert_ne. intros ->.
      destruct (Hps s Hp) as [Hnone _]. destruct (Hwf _ _ Hs) as [j Hj].
      congruence.
    + intros p j f r v Hp Hj Hptr.
      destruct (Hps p Hp) as (_ & s & Hs & Heq).
      apply Hss in Hs as [id Hid]. exists id.
      assert (Hstored : stored id w = Some j).
      { unfold stored. rewrite Hid. simpl. by rewrite <- Heq. }
      split; [done|]. apply reads_write; [|done].
      unfold stored. simpl. rewrite <- Hstored. apply Hst.
Qed.

End pointer_facts.

(** C7, as stated, fails: the swap 7 expects the amount 20. A caller takes
    the copy that [GetOngoingSwap] returns, or one that [GetOngoingSwaps]
    returns, and sets the decimal that the copy's [ExpectedAmount]
    designates to 999; the manager's record of the swap then expects
    999. *)
Lemma GetOngoing_copies_share_amounts :
  let w := Run.shared in
  SwapPtr.reads 7%N SwapPtr.FExpectedAmount w = Some 20%Z ∧
  (∃ j r,
     SwapPtr.GetOngoingSwap 7%N w = Swap.Ok j ∧
     SwapPtr.ptr SwapPtr.FExpectedAmount j = Some r ∧
     SwapPtr.reads 7%N SwapPtr.FExpectedAmount (SwapPtr.write r 999%Z w)
       = Some 999%Z) ∧
  (∃ w' p j r,
     SwapPtr.GetOngoingSwaps w = (w', Swap.Ok [p]) ∧
     SwapPtr.mem w' !! p = Some j ∧
     SwapPtr.ptr SwapPtr.FExpectedAmount j = Some r ∧
     SwapPtr.reads 7%N SwapPtr.FExpectedAmount (SwapPtr.write r 999%Z w')
       = Some 999%Z).
Proof.
  simpl. split; [vm_compute; reflexivity|]. split.
  - exists Run.locked_ptr, 2%positive.
    split; [vm_compute; reflexivity|]. split; vm_compute; reflexivity.
  - eexists _, _, Run.locked_ptr, 2%positive.
    split; [vm_compute; reflexivity|].
    split; [vm_compute; reflexivity|]. split; vm_compute; reflexivity.
Qed.

(** C7 as amended, run on the same world: [GetOngoingSwap] returns the
    struct of the swap 7; an assignment through the pointer that
    [GetOngoingSwaps] returned leaves the manager's record as it was, and a
    write through the copy's [ProvidedAmount] is read back from the
    manager's record. *)
Lemma GetOngoing_returns_shallow_copies_run :
  SwapPtr.ongoing_allocated Run.shared ∧
  SwapPtr.GetOngoingSwap 7%N Run.shared = Swap.Ok Run.locked_ptr ∧
  SwapPtr.reads 7%N SwapPtr.FProvidedAmount
    (SwapPtr.write 1%positive 0%Z Run.shared) = Some 0%Z ∧
  ∃ w' ps, SwapPtr.GetOngoingSwaps Run.shared = (w', Swap.Ok ps) ∧
    length ps = 1%nat ∧
    ∀ p v, p ∈ ps →
      SwapPtr.stored 7%N (SwapPtr.store p v w') = Some Run.locked_ptr.
Proof.
  assert (Hwf : SwapPtr.ongoing_allocated Run.shared).
  { intros id s H. unfold Run.shared in H. simpl in H.
    apply lookup_singleton_Some in H as [_ <-].
    vm_compute. eauto. }
  assert (H7 : SwapPtr.ongoing Run.shared !! 7%N = Some 1%positive)
    by (vm_compute; reflexivity).
  assert (H1 : SwapPtr.mem Run.shared !! 1%positive = Some Run.locked_ptr)
    by (vm_compute; reflexivity).
  destruct (GetOngoing_returns_shallow_copies Run.shared Hwf)
    as (Hone & w' & ps & Hget & _ & _ & Hlen & _ & _ & _ & Hstore & _).
  destruct (Hone 7%N 1%positive Run.locked_ptr H7 H1) as (Hok & _ & Hshare).
  split; [exact Hwf|]. split; [exact Hok|]. split.
  - exact (proj2 (Hshare SwapPtr.FProvidedAmount 1%positive 0%Z eq_refl)).
  - exists w', ps. split; [exact Hget|]. split; [exact Hlen|].
    intros p v Hp. destruct (Hstore p v 7%N Hp) as [Hsame _].
    etransitivity; [exact Hsame | vm_compute; reflexivity].
Defined.

(* ===================================================================== *)
(** ** The external sender: [NewSwap] on the ABI of the contract *)
(* ===================================================================== *)

Section pack_facts.
Import Types TxSender.

(** [Pack] fails for a call whose name the ABI has only with another number
    of inputs, or not at all. *)
Lemma abi_pack_mismatch (abi : list Method)
  (encode : abi_call → error + list N) (c : abi_call) :
  Forall (λ mth, Name mth = (packed_as c).1 → Inputs mth ≠ (packed_as c).2) abi →
  abi_pack abi encode c = inl errMethodNotFound ∨
  abi_pack abi encode c = inl errArgumentCount.
Proof.
  intros Hall. unfold abi_pack.
  destruct (find _ abi) as [mth|] eqn:Hfind; [|by left].
  apply find_some in Hfind as [Hin Hname].
  apply bool_decide_eq_true in Hname.
  apply list_elem_of_In in Hin.
  pose proof (proj1 (Forall_forall _ _) Hall mth Hin Hname) as Hne.
  destruct (decide _); [done | by right].
Qed.

(** C6. A token amount is refused with the unsupported error and nothing is
    handed over. For any other amount the claim's timeout is never reached
    on the ABI of the contract: [NewSwap] packs "new_swap" with seven
    arguments, the contract has [newSwap] with eight inputs, so [Pack]
    fails and [NewSwap] returns its error before it hands a transaction
    over; it returns at once, whatever the front-end does, and the error is
    not the timeout error. The same holds on every ABI that has no method
    "new_swap" of seven inputs. *)
Theorem NewSwap_fails_at_Pack
  (abi : list Method) (encode : abi_call → error + list N)
  (s : ExternalSender) (p : pkg) (pubKeyClaim pubKeyRefund : N)
  (claimer : Address) (timeoutDuration nonce : Z) (amount : EthAssetAmount)
  (fe : frontend) :
  Forall (λ mth, Name mth = "new_swap" → Inputs mth ≠ 7%nat) abi →
  let run := NewSwap (abi_pack abi encode) s p pubKeyClaim pubKeyRefund
               claimer timeoutDuration nonce amount fe in
  (IsToken amount = true → run = ([], Returns (inl errTokenUnsupported))) ∧
  (IsToken amount = false →
     (run = ([], Returns (inl errMethodNotFound)) ∨
      run = ([], Returns (inl errArgumentCount))) ∧
     run.2 ≠ Returns (inl errTransactionTimeout) ∧
     run.2 ≠ Blocks) ∧
  (abi = SwapCreatorParsedABI → IsToken amount = false →
     run = ([], Returns (inl errMethodNotFound))).
Proof.
  intros Hall. simpl. unfold NewSwap. split; [|split].
  - intros ->. done.
  - intros ->.
    destruct (abi_pack_mismatch abi encode
                (call_new_swap pubKeyClaim pubKeyRefund claimer timeoutDuration
                   (TokenAddress amount) (BigInt amount) nonce) Hall)
      as [-> | ->]; (split; [by auto|]); split; discriminate.
  - intros -> ->. reflexivity.
Qed.

End pack_facts.

(** C6, run: an amount of ether, a sender on the ABI of the contract and a
    front-end that takes the transaction and never answers: [NewSwap]
    returns the error of [Pack] and has handed nothing over. *)
Lemma NewSwap_fails_at_Pack_run :
  Forall (λ mth, TxSender.Name mth = "new_swap" → TxSender.Inputs mth ≠ 7%nat)
    TxSender.SwapCreatorParsedABI ∧
  TxSender.IsToken Run.ether = false ∧
  TxSender.NewSwap (TxSender.abi_pack TxSender.SwapCreatorParsedABI TxSender.pack_ok)
    (TxSender.mkExternalSender 1%N 2%N) TxSender.pkg_init 8%N 9%N 3%N 600%Z 0%Z
    Run.ether Run.never_answers
  = ([], TxSender.Returns (inl TxSender.errMethodNotFound)).
Proof.
  assert (Habi : Forall (λ mth, TxSender.Name mth = "new_swap" →
                            TxSender.Inputs mth ≠ 7%nat)
                   TxSender.SwapCreatorParsedABI).
  { unfold TxSender.SwapCreatorParsedABI.
    repeat (constructor; [simpl; discriminate|]). constructor. }
  split; [exact Habi|]. split; [reflexivity|].
  destruct (NewSwap_fails_at_Pack TxSender.SwapCreatorParsedABI TxSender.pack_ok
              (TxSender.mkExternalSender 1%N 2%N) TxSender.pkg_init 8%N 9%N 3%N
              600%Z 0%Z Run.ether Run.never_answers Habi) as (_ & _ & Hreal).
  exact (Hreal eq_refl eq_refl).
Defined.
